(** * Activation-code wizard: a model of Monday-CRM.py and Backup.py

    The development embeds the pure helpers (product-name mapping, sort
    key), the priority sort and the orchestration function
    [process_activation_request] of both source files, and proves the
    properties the specification states about them.

    Conventions.
    - Python [str] values are modelled as [string]; the model covers titles
      and names made of ASCII characters (code points below 128), which is
      where the character classes below agree with Python's [re] module and
      [str.isdigit].
    - Python dictionaries are [gmap]s with string keys.
    - Every remote call is answered by a scripted reply ([Remote] below), and
      every run records the remote calls it issues in a trace. *)

From Stdlib Require Import String Ascii List ZArith Lia Bool DecimalString.
From stdpp Require Import gmap strings list.

Open Scope string_scope.
Open Scope list_scope.

(* ===================================================================== *)
(** ** Python string primitives *)
(* ===================================================================== *)

Module PyStr.

Definition code (c : ascii) : nat := nat_of_ascii c.

Definition in_range (lo hi : nat) (c : ascii) : bool :=
  (lo <=? code c)%nat && (code c <=? hi)%nat.

(** [0-9] *)
Definition is_digit (c : ascii) : bool := in_range 48 57 c.
Definition is_upper (c : ascii) : bool := in_range 65 90 c.
Definition is_lower (c : ascii) : bool := in_range 97 122 c.

(** [\w] on ASCII: letters, digits and the underscore. *)
Definition is_word (c : ascii) : bool :=
  is_digit c || is_upper c || is_lower c || (code c =? 95)%nat.

(** [\s] on ASCII, as Python's [str] patterns have it: TAB, LF, VT, FF, CR,
    the separators 0x1c-0x1f and the space. *)
Definition is_space (c : ascii) : bool :=
  in_range 9 13 c || in_range 28 32 c.

Definition lower (c : ascii) : ascii :=
  if is_upper c then ascii_of_nat (code c + 32) else c.

Definition upper (c : ascii) : ascii :=
  if is_lower c then ascii_of_nat (code c - 32) else c.

(** [s.upper()] *)
Fixpoint str_upper (s : string) : string :=
  match s with
  | EmptyString => EmptyString
  | String c s' => String (upper c) (str_upper s')
  end.

Fixpoint all_digits (s : string) : bool :=
  match s with
  | EmptyString => true
  | String c s' => is_digit c && all_digits s'
  end.

(** [s.isdigit()] for an ASCII string: every character is a digit and there
    is at least one. ([str.isdigit] also accepts digits beyond ASCII.) *)
Definition isdigit (s : string) : bool :=
  match s with
  | EmptyString => false
  | _ => all_digits s
  end.

(** [s.split(' ')]: cut at every single space; never returns an empty list.
    [cur] is the token being read. *)
Fixpoint split_from (cur : string) (s : string) : list string :=
  match s with
  | EmptyString => [cur]
  | String c s' =>
      if Ascii.eqb c " " then cur :: split_from EmptyString s'
      else split_from (cur +:+ String c EmptyString) s'
  end.

Definition split_space (s : string) : list string := split_from EmptyString s.

(** [sep.join(parts)] *)
Fixpoint join (sep : string) (parts : list string) : string :=
  match parts with
  | [] => EmptyString
  | [p] => p
  | p :: rest => p +:+ sep +:+ join sep rest
  end.

(** [sub in s] *)
Fixpoint contains (sub s : string) : bool :=
  String.prefix sub s ||
  match s with
  | EmptyString => false
  | String _ s' => contains sub s'
  end.

(** Truthiness of a string and of an optional string ([None] and the empty
    string are falsy). *)
Definition truthy (s : string) : bool :=
  match s with EmptyString => false | _ => true end.

Definition truthy_opt (o : option string) : bool :=
  match o with Some s => truthy s | None => false end.

(** [str(n)] for a non-negative integer. *)
Definition str_of_N (n : N) : string := NilZero.string_of_uint (N.to_uint n).
Definition str_of_nat (n : nat) : string := NilZero.string_of_uint (Nat.to_uint n).

(** [sub] occurs in [s], as a proposition. *)
Definition substring (sub s : string) : Prop :=
  exists pre post, s = pre +:+ sub +:+ post.

Definition head (s : string) : option ascii :=
  match s with EmptyString => None | String c _ => Some c end.

(** [s.replace(old, new)] for a non-empty [old]: every occurrence, left to
    right, without overlap. [skip] counts the characters of an occurrence
    still to be dropped. *)
Fixpoint replace_from (old new : string) (skip : nat) (s : string) : string :=
  match s with
  | EmptyString => EmptyString
  | String c s' =>
      match skip with
      | S k => replace_from old new k s'
      | O =>
          if String.prefix old s
          then new +:+ replace_from old new (String.length old - 1) s'
          else String c (replace_from old new 0 s')
      end
  end.

Definition replace (old new s : string) : string := replace_from old new 0 s.

Fixpoint lstrip (s : string) : string :=
  match s with
  | EmptyString => EmptyString
  | String c s' => if is_space c then lstrip s' else s
  end.

Definition str_rev (s : string) : string :=
  string_of_list_ascii (rev (list_ascii_of_string s)).

(** [s.strip()] for an ASCII string. ([str.strip] also strips the white
    space beyond ASCII.) *)
Definition strip (s : string) : string :=
  str_rev (lstrip (str_rev (lstrip s))).

End PyStr.

(* ===================================================================== *)
(** ** The pattern [\b(PREFIX)\s?-?(\d+)\b] under [re.IGNORECASE] *)
(* ===================================================================== *)

Module Regex.
Import PyStr.

Definition is_word_opt (o : option ascii) : bool :=
  match o with Some c => is_word c | None => false end.

(** [\b] between the character before and the character after a position
    (the ends of the string count as non-word). *)
Definition word_boundary (before after : option ascii) : bool :=
  xorb (is_word_opt before) (is_word_opt after).

(** A literal pattern character against a text character, ignoring case. *)
Definition ci_eq (p c : ascii) : bool := Ascii.eqb (lower p) (lower c).

(** The literal [prefix] at the head of [s]; returns the matched text
    (group 1) and the rest. *)
Fixpoint match_ci (prefix s : string) : option (string * string) :=
  match prefix with
  | EmptyString => Some (EmptyString, s)
  | String p prefix' =>
      match s with
      | EmptyString => None
      | String c s' =>
          if ci_eq p c then
            match match_ci prefix' s' with
            | Some (g, rest) => Some (String c g, rest)
            | None => None
            end
          else None
      end
  end.

(** [(\d+)\b]: greedy, so more digits are tried first; on failure of what
    follows, the match backs off to the digits read so far. *)
Fixpoint digits_b (s : string) : option string :=
  match s with
  | EmptyString => None
  | String c s' =>
      if is_digit c then
        match digits_b s' with
        | Some ds => Some (String c ds)
        | None =>
            if word_boundary (Some c) (head s')
            then Some (String c EmptyString) else None
        end
      else None
  end.

(** [-?(\d+)\b]: the hyphen is taken when present, and given back when the
    rest fails. *)
Definition dash_digits (s : string) : option string :=
  match s with
  | String c s' =>
      if Ascii.eqb c "-" then
        match digits_b s' with
        | Some ds => Some ds
        | None => digits_b s
        end
      else digits_b s
  | EmptyString => digits_b s
  end.

(** [\s?-?(\d+)\b] *)
Definition sep_digits (s : string) : option string :=
  match s with
  | String c s' =>
      if is_space c then
        match dash_digits s' with
        | Some ds => Some ds
        | None => dash_digits s
        end
      else dash_digits s
  | EmptyString => dash_digits s
  end.

(** The whole pattern anchored at one position; [before] is the character
    left of it. Returns groups 1 and 2. The classes are those of [PyStr], so
    this is the pattern on ASCII text. *)
Definition match_here (prefix : string) (before : option ascii) (s : string)
  : option (string * string) :=
  if word_boundary before (head s) then
    match match_ci prefix s with
    | Some (g1, rest) =>
        match sep_digits rest with
        | Some g2 => Some (g1, g2)
        | None => None
        end
    | None => None
    end
  else None.

(** [re.search]: the leftmost position where the pattern matches. *)
Fixpoint search_from (prefix : string) (before : option ascii) (s : string)
  : option (string * string) :=
  match match_here prefix before s with
  | Some r => Some r
  | None =>
      match s with
      | EmptyString => None
      | String c s' => search_from prefix (Some c) s'
      end
  end.

Definition search (prefix title : string) : option (string * string) :=
  search_from prefix None title.

End Regex.

(* ===================================================================== *)
(** ** Static tables *)
(* ===================================================================== *)

Definition STATUS_LABEL_NOT_USED : string := "Not used".
Definition STATUS_COLUMN_ID : string := "status".
Definition MAC_LINK_COLUMN_ID : string := "mac_dowload_link0".
Definition WIN_LINK_COLUMN_ID : string := "win_download_link".
Definition NA : string := "N/A".

Definition BASE_PRODUCT_MAPPING : gmap string string :=
  {[ "DFP" := "FilmPack";
     "DVP" := "ViewPoint";
     "PR" := "PureRaw";
     "PL" := "PhotoLab";
     "NIK" := "Nik Collection";
     "VP" := "ViewPoint";
     "FP" := "FilmPack" ]}.

Definition REGEX_PREFIX_ORDER : list string :=
  ["DFP"; "DVP"; "PR"; "PL"; "NIK"; "VP"; "FP"].

(** [PRODUCT_ORDER_PRIORITY], with the entry added after the literal. *)
Definition PRODUCT_ORDER_PRIORITY : gmap string nat :=
  <["Nik Collection" := 2]>
  ({[ "PhotoLab" := 1;
      "Nik" := 2;
      "PureRaw" := 3;
      "FilmPack" := 4;
      "ViewPoint" := 5 ]} : gmap string nat).

Definition DEFAULT_PRIORITY : nat := 99.

(* ===================================================================== *)
(** ** get_product_display_name *)
(* ===================================================================== *)

(** The loop over [REGEX_PREFIX_ORDER]: the first prefix whose pattern
    matches and whose upper-cased match has a non-empty base name decides;
    a match without base name does not stop the loop. *)
Fixpoint display_name_loop (prefixes : list string) (group_title : string)
  : string :=
  match prefixes with
  | [] => group_title
  | prefix :: rest =>
      match Regex.search prefix group_title with
      | Some (g1, version_number) =>
          let matched_prefix := PyStr.str_upper g1 in
          match BASE_PRODUCT_MAPPING !! matched_prefix with
          | Some base_name =>
              if PyStr.truthy base_name
              then base_name +:+ " " +:+ version_number
              else display_name_loop rest group_title
          | None => display_name_loop rest group_title
          end
      | None => display_name_loop rest group_title
      end
  end.

Definition get_product_display_name (group_title : string) : string :=
  display_name_loop REGEX_PREFIX_ORDER group_title.

(* ===================================================================== *)
(** ** Found items, get_sort_key and the priority sort *)
(* ===================================================================== *)

(** One entry of [items_found_details]: the tuple
    [(item_id, activation_code, product_display_name, mac_link_url,
    win_link_url)], fields in tuple order. *)
Record ItemDetail := mkDetail {
  d_item_id : string;
  d_code : string;
  d_product : string;
  d_mac : string;
  d_win : string
}.

(** The loop that collects [base_name_parts]: it stops at the first part for
    which [isdigit] holds. *)
Fixpoint base_name_parts (parts : list string) : list string :=
  match parts with
  | [] => []
  | part :: rest =>
      if PyStr.isdigit part then [] else part :: base_name_parts rest
  end.

Definition base_name_of (product_display_name : string) : string :=
  PyStr.join " " (base_name_parts (PyStr.split_space product_display_name)).

(** [base_name.split(' ')[0]]; [split] never returns an empty list. *)
Definition first_word (base_name : string) : string :=
  match PyStr.split_space base_name with
  | w :: _ => w
  | [] => EmptyString
  end.

Definition sort_key_of_name (product_display_name : string) : nat :=
  let base_name := base_name_of product_display_name in
  let priority := PRODUCT_ORDER_PRIORITY !! base_name in
  let priority :=
    match priority with
    | None =>
        if PyStr.contains " " base_name
        then PRODUCT_ORDER_PRIORITY !! first_word base_name
        else priority
    | Some _ => priority
    end in
  match priority with
  | Some p => p
  | None => DEFAULT_PRIORITY
  end.

Definition get_sort_key (item_detail : ItemDetail) : nat :=
  sort_key_of_name (d_product item_detail).

(** [list.sort(key=...)] is Python's built-in sort: ascending in the key and
    documented as stable. It is modelled by the stable insertion sort; the
    theorems [py_sort_sorted], [py_sort_perm] and the stability theorem
    below show that the model is a stable sort, and a stable sort of a
    list by a key is unique. *)
Section Sort.
Context {A : Type} (key : A -> nat).

Fixpoint insert_by (x : A) (l : list A) : list A :=
  match l with
  | [] => [x]
  | y :: l' =>
      if (key x <=? key y)%nat then x :: y :: l' else y :: insert_by x l'
  end.

Fixpoint py_sort (l : list A) : list A :=
  match l with
  | [] => []
  | x :: l' => insert_by x (py_sort l')
  end.

Fixpoint key_sorted (l : list A) : Prop :=
  match l with
  | [] => True
  | x :: l' => (forall y, In y l' -> (key x <= key y)%nat) /\ key_sorted l'
  end.

(** The items of [l] whose key is [k], in their order in [l]. *)
Definition with_key (k : nat) (l : list A) : list A :=
  List.filter (fun x => (key x =? k)%nat) l.
End Sort.

(** The sorting step of [process_activation_request]. *)
Definition sort_found (items_found_details : list ItemDetail) : list ItemDetail :=
  match items_found_details with
  | [] => items_found_details
  | _ => py_sort get_sort_key items_found_details
  end.

(* ===================================================================== *)
(** ** Board items as the API returns them *)
(* ===================================================================== *)

(** What [json.loads(cv["value"])] followed by [.get("url", "N/A")] gives. *)
Inductive LinkJson :=
| JsonUrl (url : string)   (* an object; [url] is its "url" entry, "N/A" when absent *)
| JsonInvalid              (* JSONDecodeError or TypeError: the link stays "N/A" *)
| JsonNotObject.           (* parsed, but not an object: [.get] raises *)

(** One entry of [column_values]: [cv.get("id")], [cv.get("text")] and, when
    [cv.get("value")] is truthy, what parsing it gives. *)
Record ColumnValue := mkCv {
  cv_id : option string;
  cv_text : option string;
  cv_value : option LinkJson
}.

Inductive CvEntry :=
| CvDict (cv : ColumnValue)
| CvMalformed.             (* not a dict: [cv.get] raises *)

(** An item of a page; a missing key is [None]. *)
Record Item := mkItem {
  item_id : option string;
  item_name : option string;
  column_values : option (list CvEntry)
}.

(** Locals of the column loop of one item. *)
Record ColState := mkCol {
  status_val : option string;
  mac_link_url : string;
  win_link_url : string
}.

(** [cv.get("text") or "N/A"], then the fallback to the parsed value.
    [None] is an exception that the inner handler does not catch. *)
Definition link_of (cv : ColumnValue) : option string :=
  let link := if PyStr.truthy_opt (cv_text cv)
              then default NA (cv_text cv) else NA in
  if String.eqb link NA then
    match cv_value cv with
    | Some (JsonUrl url) => Some url
    | Some JsonInvalid => Some link
    | Some JsonNotObject => None
    | None => Some link
    end
  else Some link.

(** The loop [for cv in item["column_values"]]; [None] when it raises. *)
Fixpoint column_loop (cvs : list CvEntry) (st : ColState) : option ColState :=
  match cvs with
  | [] => Some st
  | CvMalformed :: _ => None
  | CvDict cv :: rest =>
      let col_id := cv_id cv in
      if decide (col_id = Some STATUS_COLUMN_ID) then
        column_loop rest
          (mkCol (cv_text cv) (mac_link_url st) (win_link_url st))
      else if decide (col_id = Some MAC_LINK_COLUMN_ID) then
        match link_of cv with
        | Some l => column_loop rest (mkCol (status_val st) l (win_link_url st))
        | None => None
        end
      else if decide (col_id = Some WIN_LINK_COLUMN_ID) then
        match link_of cv with
        | Some l => column_loop rest (mkCol (status_val st) (mac_link_url st) l)
        | None => None
        end
      else column_loop rest st
  end.

(** The inner [try] of one item: [None] is the [continue] of its handler. *)
Definition item_columns (item : Item) : option ColState :=
  match column_values item with
  | None => None
  | Some cvs => column_loop cvs (mkCol None NA NA)
  end.

Inductive ScanResult :=
| ScanFound (d : ItemDetail)
| ScanNone
| ScanRaise (e : string).  (* [item["id"]] or [item["name"]] is missing *)

(** The loop [for item in reversed(items)], given the items already
    reversed: the first item whose status text is the sentinel is taken. *)
Fixpoint scan_items (product_display_name : string) (rev_items : list Item)
  : ScanResult :=
  match rev_items with
  | [] => ScanNone
  | item :: rest =>
      match item_id item with
      | None => ScanRaise "'id'"
      | Some iid =>
          match item_name item with
          | None => ScanRaise "'name'"
          | Some activation_code =>
              match item_columns item with
              | None => scan_items product_display_name rest
              | Some st =>
                  if decide (status_val st = Some STATUS_LABEL_NOT_USED) then
                    ScanFound (mkDetail iid activation_code product_display_name
                                 (mac_link_url st) (win_link_url st))
                  else scan_items product_display_name rest
              end
          end
      end
  end.

Definition scan_group (product_display_name : string) (items : list Item)
  : ScanResult :=
  scan_items product_display_name (rev items).

(** What the column loop of the scan leaves in [status_val] for an item,
    [None] also when the loop raises. This follows the code; the status text
    of an item as its data give it is [status_text] below. *)
Definition item_status (item : Item) : option string :=
  match item_columns item with
  | Some st => status_val st
  | None => None
  end.

(* ===================================================================== *)
(** ** Remote services: scripted replies and the trace of calls *)
(* ===================================================================== *)

(** The reply to one [items_page] request of a group. A reply that carries a
    cursor also fixes the reply to the request made with that cursor, so a
    value of this type is the whole (finite) exchange for one group. *)
Inductive PageReply :=
| PageError (e : string)   (* any exception of the request or of its decoding *)
| PageLast (new_items : list Item)
| PageMore (new_items : list Item) (cursor : string) (next : PageReply).

(** What [update_monday_item_status] and [update_monday_item_person]
    return: [(True, None)] or [(False, message)]. *)
Inductive MutReply :=
| MutOk
| MutFail (msg : string).

(** What the block that creates the note does: it raises, or it returns a
    response whose note id may be missing. *)
Inductive NoteReply :=
| NoteRaise (e : string)
| NoteCreated (response_id : option N).

(** What the [requests.put] that tags the note does. *)
Inductive TagReply :=
| TagResponse (status_code : N) (error_details : string)
| TagNetworkError (e : string)
| TagUnexpected (e : string).

Record Group := mkGroup { g_id : string; g_title : string }.

(** The replies of one run. Group replies are indexed by the position of the
    group in [group_ids], mutation replies by the position of the item in the
    sorted list of found items. *)
Record Remote := mkRemote {
  owner_reply : option string * option string;       (* get_zendesk_deal_owner_email *)
  groups_reply : option (list Group) * option string; (* fetch_monday_data *)
  items_reply : nat -> PageReply;
  note_reply : NoteReply;
  tag_reply : TagReply;
  status_reply : nat -> MutReply;
  person_reply : nat -> MutReply
}.

Inductive Call :=
| CallOwner (deal_id : string)
| CallGroups
| CallItemsPage (group_id : string) (cursor : option string)
| CallCreateNote (deal_id : string) (content : string)
| CallTagNote (note_id : N)
| CallSetStatus (item_id : string)
| CallAssignPerson (item_id : string) (user_id : N).

(** A board mutation: a status change or an assignee change. *)
Definition is_mutation (c : Call) : bool :=
  match c with
  | CallSetStatus _ | CallAssignPerson _ _ => true
  | _ => false
  end.

(** Where a run of [process_activation_request] ends. *)
Inductive ReturnSite :=
| AtOwnerError   (* Backup.py only *)
| AtNoItems
| AtNoteError
| AtSummary
| AtFallback.

Inductive Outcome :=
| Return (site : ReturnSite) (overall_success : bool) (message : string)
| Raise (exn : string).

Definition succeeded (o : Outcome) : bool :=
  match o with Return _ ok _ => ok | Raise _ => false end.

Definition message_of (o : Outcome) : string :=
  match o with Return _ _ m => m | Raise e => e end.

Definition nl : string := String (ascii_of_nat 10) EmptyString.

Definition truthy_N (o : option N) : bool :=
  match o with Some n => negb (n =? 0)%N | None => false end.

Definition ZENDESK_OWNER_EMAIL_TO_MONDAY_ID : gmap string N :=
  {[ "asoni@dxo.com" := 47981810%N;
     "nbeaumont@dxo.com" := 41505346%N;
     "jcinquin@dxo.com" := 45440204%N;
     "msato@dxo.com" := 45440202%N;
     "sbakir@dxo.com" := 45440162%N;
     "mplant@dxo.com" := 45440206%N;
     "yshi@dxo.com" := 45440205%N;
     "kdare@dxo.com" := 68681569%N;
     "mandrianoelison@dxo.com" := 69767169%N;
     "mfernandes@dxo.com" := 70228860%N ]}.

Definition target_status_label : string := "Sent & put in B2B CRM".

(* ===================================================================== *)
(** ** Step 1 of the orchestration: one available item per group *)
(* ===================================================================== *)

(** The [while True] loop over the pages of one group. *)
Fixpoint paginate (group_id : string) (current_cursor : option string)
    (all_items_in_group : list Item) (reply : PageReply)
  : (string + list Item) * list Call :=
  let call := CallItemsPage group_id current_cursor in
  match reply with
  | PageError e => (inl e, [call])
  | PageLast new_items => (inr (all_items_in_group ++ new_items), [call])
  | PageMore new_items next_cursor next =>
      if PyStr.truthy next_cursor then
        let '(res, calls) :=
          paginate group_id (Some next_cursor)
            (all_items_in_group ++ new_items) next in
        (res, call :: calls)
      else (inr (all_items_in_group ++ new_items), [call])
  end.

(** The items of a group as Monday-CRM.py fetches them: no cursor and no
    items to begin with. *)
Definition fetch_all_pages (group_id : string) (reply : PageReply)
  : (string + list Item) * list Call :=
  paginate group_id None [] reply.

(** Backup.py asks for a single page and follows no cursor. *)
Definition single_page (group_id : string) (reply : PageReply)
  : (string + list Item) * list Call :=
  let call := CallItemsPage group_id None in
  match reply with
  | PageError e => (inl e, [call])
  | PageLast items => (inr items, [call])
  | PageMore items _ _ => (inr items, [call])
  end.

Record FindState := mkFind {
  items_found_details : list ItemDetail;
  global_error : option string;
  find_calls : list Call
}.

Definition set_global_error (global_error : option string) (e : string)
  : option string :=
  if PyStr.truthy_opt global_error then global_error
  else Some ("Error during Monday.com processing: " +:+ e).

Definition group_title_of (group_map : gmap string string) (group_id : string)
  : string :=
  default ("Group ID " +:+ group_id) (group_map !! group_id).

(** The body of [for group_id in group_ids], given how the items of the
    group are fetched. *)
Definition find_in_group
    (fetch : string -> PageReply -> (string + list Item) * list Call)
    (group_map : gmap string string) (reply : PageReply) (group_id : string)
    (st : FindState) : FindState :=
  let group_title := group_title_of group_map group_id in
  let product_display_name := get_product_display_name group_title in
  let '(res, calls) := fetch group_id reply in
  let calls := find_calls st ++ calls in
  match res with
  | inl e =>
      mkFind (items_found_details st) (set_global_error (global_error st) e) calls
  | inr items =>
      match scan_group product_display_name items with
      | ScanFound d =>
          mkFind (items_found_details st ++ [d]) (global_error st) calls
      | ScanNone => mkFind (items_found_details st) (global_error st) calls
      | ScanRaise e =>
          mkFind (items_found_details st) (set_global_error (global_error st) e) calls
      end
  end.

Fixpoint find_loop
    (fetch : string -> PageReply -> (string + list Item) * list Call)
    (replies : nat -> PageReply) (group_map : gmap string string)
    (i : nat) (group_ids : list string) (st : FindState) : FindState :=
  match group_ids with
  | [] => st
  | group_id :: rest =>
      find_loop fetch replies group_map (S i) rest
        (find_in_group fetch group_map (replies i) group_id st)
  end.

Definition find_items
    (fetch : string -> PageReply -> (string + list Item) * list Call)
    (replies : nat -> PageReply) (group_map : gmap string string)
    (group_ids : list string) : FindState :=
  find_loop fetch replies group_map 0 group_ids (mkFind [] None []).

Definition no_codes_message (deal_id : string) : string :=
  "No '" +:+ STATUS_LABEL_NOT_USED +:+
  "' activation codes found in the selected groups for Deal ID " +:+
  deal_id +:+ ".".

(* ===================================================================== *)
(** ** Step 4 of the orchestration: status and assignee per item *)
(* ===================================================================== *)

Record Counters := mkCounters {
  monday_update_successes : nat;
  monday_update_failures : nat;
  monday_update_error_msgs : list string;
  monday_person_successes : nat;
  monday_person_failures : nat;
  monday_person_error_msgs : list string;
  update_calls : list Call
}.

Definition zero_counters : Counters := mkCounters 0 0 [] 0 0 [] [].

(** The body of [for item_id, _, _, _, _ in items_found_details] for the
    item at position [i]. *)
Definition update_item (remote : Remote) (monday_user_id_to_assign : option N)
    (i : nat) (d : ItemDetail) (c : Counters) : Counters :=
  let iid := d_item_id d in
  let calls := update_calls c ++ [CallSetStatus iid] in
  match status_reply remote i with
  | MutOk =>
      if truthy_N monday_user_id_to_assign then
        let uid := default 0%N monday_user_id_to_assign in
        let calls := calls ++ [CallAssignPerson iid uid] in
        match person_reply remote i with
        | MutOk =>
            mkCounters (S (monday_update_successes c)) (monday_update_failures c)
              (monday_update_error_msgs c)
              (S (monday_person_successes c)) (monday_person_failures c)
              (monday_person_error_msgs c) calls
        | MutFail person_msg =>
            mkCounters (S (monday_update_successes c)) (monday_update_failures c)
              (monday_update_error_msgs c)
              (monday_person_successes c) (S (monday_person_failures c))
              (monday_person_error_msgs c ++
                 ["Item " +:+ iid +:+ ": " +:+ person_msg]) calls
        end
      else
        mkCounters (S (monday_update_successes c)) (monday_update_failures c)
          (monday_update_error_msgs c)
          (monday_person_successes c) (monday_person_failures c)
          (monday_person_error_msgs c) calls
  | MutFail update_msg =>
      mkCounters (monday_update_successes c) (S (monday_update_failures c))
        (monday_update_error_msgs c ++ ["Item " +:+ iid +:+ ": " +:+ update_msg])
        (monday_person_successes c) (monday_person_failures c)
        (monday_person_error_msgs c) calls
  end.

Fixpoint update_loop (remote : Remote) (monday_user_id_to_assign : option N)
    (i : nat) (items : list ItemDetail) (c : Counters) : Counters :=
  match items with
  | [] => c
  | d :: rest =>
      update_loop remote monday_user_id_to_assign (S i) rest
        (update_item remote monday_user_id_to_assign i d c)
  end.

Definition update_items (remote : Remote) (monday_user_id_to_assign : option N)
    (items : list ItemDetail) : Counters :=
  update_loop remote monday_user_id_to_assign 0 items zero_counters.

(* ===================================================================== *)
(** ** Monday-CRM.py *)
(* ===================================================================== *)

Module MondayCRM.

Definition owner_warning_of (owner_email : option string)
    (monday_user_id_to_assign : option N) : option string :=
  if negb (truthy_N monday_user_id_to_assign) && PyStr.truthy_opt owner_email
  then Some ("Warning: Owner email '" +:+ default EmptyString owner_email +:+
             "' not found in map. Person column will not be updated.")
  else None.

Definition note_entry (d : ItemDetail) : string :=
  let mac_link_str :=
    if negb (String.eqb (d_mac d) NA)
    then "[MAC Download Link](" +:+ d_mac d +:+ ")"
    else "MAC Download Link: N/A" in
  let win_link_str :=
    if negb (String.eqb (d_win d) NA)
    then "[WIN Download Link](" +:+ d_win d +:+ ")"
    else "WIN Download Link: N/A" in
  "Product Name: " +:+ d_product d +:+ " || Activation Code: " +:+ d_code d +:+
  " || " +:+ mac_link_str +:+ " || " +:+ win_link_str.

Definition zendesk_note_content (note_messages : list string) : string :=
  "Activation Codes" +:+ nl +:+ nl +:+
  PyStr.join (nl +:+ nl +:+ "-----------" +:+ nl +:+ nl) note_messages.

(** Locals set by the [try] block that writes and tags the note. *)
Record NoteState := mkNote {
  zendesk_success : bool;
  note_tag_success : bool;
  note_tag_error_msg : option string
}.

Definition tag_note (reply : TagReply) (new_note_id : N) (zs : bool)
  : NoteState :=
  let nid := PyStr.str_of_N new_note_id in
  match reply with
  | TagResponse status_code error_details =>
      if (status_code =? 200)%N then mkNote zs true None
      else mkNote zs false
             (Some ("Failed to tag note " +:+ nid +:+
                    " via direct API call. Status: " +:+
                    PyStr.str_of_N status_code +:+ ", Response: " +:+
                    error_details))
  | TagNetworkError e_req =>
      mkNote zs false
        (Some ("Network error while trying to tag note " +:+ nid +:+
               " via direct API call: " +:+ e_req))
  | TagUnexpected e_update =>
      mkNote zs false
        (Some ("Unexpected error while trying to tag note " +:+ nid +:+
               " via direct API call: " +:+ e_update))
  end.

(** The [try] block of step 3: [inl e] when the [except] clause runs. *)
Definition write_note (remote : Remote) (deal_id content : string)
  : (string + NoteState) * list Call :=
  let create := CallCreateNote deal_id content in
  match note_reply remote with
  | NoteRaise e => (inl e, [create])
  | NoteCreated response_id =>
      let zendesk_success := true in
      if zendesk_success && truthy_N response_id then
        let new_note_id := default 0%N response_id in
        (inr (tag_note (tag_reply remote) new_note_id zendesk_success),
         [create; CallTagNote new_note_id])
      else if zendesk_success then
        (inr (mkNote zendesk_success false
                (Some "Note created, but could not get Note ID from response to update tags.")),
         [create])
      else (inr (mkNote zendesk_success false None), [create])
  end.

Definition success_parts_of (deal_id : string) (owner_email : option string)
    (ns : NoteState) (c : Counters) : list string :=
  (if zendesk_success ns then
     ["Added note to Zendesk Deal " +:+ deal_id] ++
     (if note_tag_success ns then ["Tagged note with 'LICENCE'"] else [])
   else []) ++
  (if (0 <? monday_update_successes c)%nat then
     ["Updated status to '" +:+ target_status_label +:+ "' for " +:+
      PyStr.str_of_nat (monday_update_successes c) +:+ " item(s) on Monday.com"]
   else []) ++
  (if (0 <? monday_person_successes c)%nat then
     let owner_display :=
       if PyStr.truthy_opt owner_email then default EmptyString owner_email
       else "(Unknown Email)" in
     ["Assigned owner (" +:+ owner_display +:+ ") for " +:+
      PyStr.str_of_nat (monday_person_successes c) +:+ " item(s)"]
   else []).

Definition failure_parts_of (n_items : nat) (owner_warning : option string)
    (ns : NoteState) (c : Counters) : list string :=
  (if PyStr.truthy_opt (note_tag_error_msg ns)
   then [default EmptyString (note_tag_error_msg ns)] else []) ++
  (if (0 <? monday_update_failures c)%nat then
     ["failed to update status for " +:+
      PyStr.str_of_nat (monday_update_failures c) +:+ "/" +:+
      PyStr.str_of_nat n_items +:+ " item(s)"] ++
     (match monday_update_error_msgs c with
      | [] => []
      | msgs => ["(Status Errors: " +:+ PyStr.join "; " msgs +:+ ")"]
      end)
   else []) ++
  (if PyStr.truthy_opt owner_warning
   then [PyStr.replace "Warning: " EmptyString (default EmptyString owner_warning)]
   else []).

Definition failure_item (part : string) : string :=
  let prefix := if PyStr.contains "failed" part then "❌" else "⚠️" in
  "<li>" +:+ prefix +:+ " " +:+ part +:+ "</li>".

Definition final_message_of (success_parts failure_parts : list string)
  : string :=
  let m := "<b>Process Summary:</b><ul>" in
  let m := fold_left (fun m part => m +:+ "<li>✅ " +:+ part +:+ "</li>")
             success_parts m in
  let m := m +:+ "</ul>" in
  match failure_parts with
  | [] => m
  | _ =>
      let m := m +:+ "<br><b>Notes / Issues:</b><ul>" in
      let m := fold_left (fun m part => m +:+ failure_item part)
                 failure_parts m in
      m +:+ "</ul>"
  end.

(** The last statement: [zendesk_error_msg] is not bound on this path, so
    the [or] raises unless [global_error] is truthy. *)
Definition fallback (global_error : option string) : Outcome :=
  if PyStr.truthy_opt global_error
  then Return AtFallback false (default EmptyString global_error)
  else Raise "NameError: zendesk_error_msg".

Definition or_else (global_error : option string) (msg : string) : string :=
  if PyStr.truthy_opt global_error then default EmptyString global_error
  else msg.

Definition process_activation_request (remote : Remote)
    (deal_id : string) (group_ids : list string)
    (group_map : gmap string string) (owner_email : option string)
    (monday_user_id_to_assign : option N) : Outcome * list Call :=
  let owner_warning := owner_warning_of owner_email monday_user_id_to_assign in
  let found := find_items fetch_all_pages (items_reply remote) group_map group_ids in
  let global_error := global_error found in
  let items := sort_found (items_found_details found) in
  match items with
  | [] =>
      (Return AtNoItems false (or_else global_error (no_codes_message deal_id)),
       find_calls found)
  | _ =>
      let note_messages := map note_entry items in
      let '(res, ncalls) :=
        write_note remote deal_id (zendesk_note_content note_messages) in
      match res with
      | inl e =>
          let zendesk_error_msg :=
            "Failed to write note to Zendesk Deal ID " +:+ deal_id +:+ ": " +:+ e in
          (Return AtNoteError false (or_else global_error zendesk_error_msg),
           find_calls found ++ ncalls)
      | inr ns =>
          if zendesk_success ns then
            let c := update_items remote monday_user_id_to_assign items in
            let final_overall_success :=
              if zendesk_success ns then true else false in
            let final_message :=
              final_message_of
                (success_parts_of deal_id owner_email ns c)
                (failure_parts_of (length items) owner_warning ns c) in
            (Return AtSummary final_overall_success final_message,
             find_calls found ++ ncalls ++ update_calls c)
          else (fallback global_error, find_calls found ++ ncalls)
      end
  end.

End MondayCRM.

(* ===================================================================== *)
(** ** The wizard of Monday-CRM.py: session state and step handlers *)
(* ===================================================================== *)

Record Session := mkSession {
  ss_current_step : nat;
  ss_deal_id : string;
  ss_owner_email : option string;
  ss_show_error : option string;
  ss_all_groups : list Group;
  ss_selected_groups : list string;
  ss_processing : bool;
  ss_note_written : option bool;
  ss_success_message : option string
}.

(** The initial session state. *)
Definition initial_session : Session :=
  mkSession 1 EmptyString None None [] [] false None None.

Definition with_error (st : Session) (e : option string) : Session :=
  mkSession (ss_current_step st) (ss_deal_id st) (ss_owner_email st) e (ss_all_groups st)
    (ss_selected_groups st) (ss_processing st) (ss_note_written st) (ss_success_message st).

Definition with_deal_id (st : Session) (d : string) : Session :=
  mkSession (ss_current_step st) d (ss_owner_email st) (ss_show_error st) (ss_all_groups st)
    (ss_selected_groups st) (ss_processing st) (ss_note_written st) (ss_success_message st).

Definition with_owner_email (st : Session) (o : option string) : Session :=
  mkSession (ss_current_step st) (ss_deal_id st) o (ss_show_error st) (ss_all_groups st)
    (ss_selected_groups st) (ss_processing st) (ss_note_written st) (ss_success_message st).

Definition with_selection (st : Session) (titles : list string) : Session :=
  mkSession (ss_current_step st) (ss_deal_id st) (ss_owner_email st) (ss_show_error st)
    (ss_all_groups st) titles (ss_processing st) (ss_note_written st) (ss_success_message st).

Definition title_in (titles : list string) (g : Group) : bool :=
  existsb (String.eqb (g_title g)) titles.

(** [{g["id"]: g["title"] for g in ...}]: a later group overwrites an
    earlier one with the same id. *)
Definition selection_map (groups : list Group) : gmap string string :=
  fold_left (fun m g => <[g_id g := g_title g]> m) groups ∅.

Module Wizard.

(** The handler of step 1 once the form is submitted; every [st.rerun()]
    ends the script run, so nothing after it is executed. *)
Definition step1_submit (remote : Remote) (st : Session)
    (deal_id_input : string) : Session * list Call :=
  let deal_id := PyStr.strip deal_id_input in
  if negb (PyStr.isdigit deal_id) then
    (with_error st (Some "Please enter a valid numeric Deal ID."), [])
  else
    let st := with_deal_id st deal_id in
    let '(owner_email, owner_error) := owner_reply remote in
    let calls := [CallOwner deal_id] in
    if PyStr.truthy_opt owner_error then (with_error st owner_error, calls)
    else if negb (PyStr.truthy_opt owner_email) then
      (with_error st
         (Some ("Could not retrieve owner email for Zendesk Deal " +:+
                deal_id +:+ ".")), calls)
    else
      let st := with_owner_email st owner_email in
      let '(fetched_groups, error_msg) := groups_reply remote in
      let calls := calls ++ [CallGroups] in
      match fetched_groups with
      | None =>
          if PyStr.truthy_opt error_msg then (with_error st error_msg, calls)
          else
            (mkSession 2 (ss_deal_id st) (ss_owner_email st) error_msg []
               [] (ss_processing st) (ss_note_written st) (ss_success_message st),
             calls)
      | Some groups =>
          (mkSession 2 (ss_deal_id st) (ss_owner_email st) error_msg groups
             [] (ss_processing st) (ss_note_written st) (ss_success_message st),
           calls)
      end.

(** Step 2 once "Proceed" is pressed with the current selection: the
    selection is turned into ids and a map, the assignee is looked up, the
    request is processed and the result stored. The button is disabled
    while nothing is selected. *)
Definition step2_proceed (remote : Remote) (st : Session)
  : Session * list Call :=
  match ss_selected_groups st with
  | [] => (st, [])
  | selected_titles =>
      let chosen := List.filter (title_in selected_titles) (ss_all_groups st) in
      let selected_group_ids := map g_id chosen in
      let selected_group_map := selection_map chosen in
      let current_owner_email := ss_owner_email st in
      let monday_user_id :=
        match current_owner_email with
        | Some e => ZENDESK_OWNER_EMAIL_TO_MONDAY_ID !! e
        | None => None
        end in
      let '(out, calls) :=
        MondayCRM.process_activation_request remote (ss_deal_id st)
          selected_group_ids selected_group_map current_owner_email
          monday_user_id in
      match out with
      | Return _ true message =>
          (mkSession 3 (ss_deal_id st) (ss_owner_email st) None (ss_all_groups st)
             (ss_selected_groups st) false (Some true) (Some message), calls)
      | Return _ false message =>
          (mkSession (ss_current_step st) (ss_deal_id st) (ss_owner_email st)
             (Some message) (ss_all_groups st) (ss_selected_groups st) false
             (Some false) None, calls)
      | Raise _ =>
          (mkSession (ss_current_step st) (ss_deal_id st) (ss_owner_email st)
             (ss_show_error st) (ss_all_groups st) (ss_selected_groups st) true
             (ss_note_written st) (ss_success_message st), calls)
      end
  end.

(** One pass of the operator through the wizard: the deal id is submitted
    at step 1 and, when the wizard has moved to step 2, the given titles are
    ticked and "Proceed" is pressed. *)
Definition run (remote : Remote) (deal_id_input : string)
    (selected_titles : list string) : Session * list Call :=
  let '(st1, calls1) := step1_submit remote initial_session deal_id_input in
  if (ss_current_step st1 =? 2)%nat then
    let '(st2, calls2) :=
      step2_proceed remote (with_selection st1 selected_titles) in
    (st2, calls1 ++ calls2)
  else (st1, calls1).

End Wizard.

(* ===================================================================== *)
(** ** Backup.py *)
(* ===================================================================== *)

Module Backup.

Definition owner_warning_of (owner_email : string)
    (monday_user_id_to_assign : option N) : option string :=
  if negb (truthy_N monday_user_id_to_assign)
  then Some ("Warning: Owner email '" +:+ owner_email +:+
             "' not found in ZENDESK_OWNER_EMAIL_TO_MONDAY_ID map. Person column will not be updated.")
  else None.

Definition note_entry (d : ItemDetail) : string :=
  "Product Name: " +:+ d_product d +:+ nl +:+
  "Activation Code: " +:+ d_code d +:+ nl +:+
  (if negb (String.eqb (d_mac d) NA)
   then "[MAC Download Link](" +:+ d_mac d +:+ ")" +:+ nl
   else "MAC Download Link: N/A" +:+ nl) +:+
  (if negb (String.eqb (d_win d) NA)
   then "[WIN Download Link](" +:+ d_win d +:+ ")"
   else "WIN Download Link: N/A").

Definition zendesk_note_content (note_messages : list string) : string :=
  "Activation Codes" +:+ nl +:+ nl +:+
  PyStr.join (nl +:+ nl +:+ "-----------" +:+ nl +:+ nl) note_messages.

(** The [try] block that writes the note: the exception text, or the value
    of [zendesk_success] after it. *)
Definition write_note (remote : Remote) (deal_id content : string)
  : (string + bool) * list Call :=
  let create := CallCreateNote deal_id content in
  match note_reply remote with
  | NoteRaise e => (inl e, [create])
  | NoteCreated _ => (inr true, [create])
  end.

(** The summary; returns [final_overall_success] and the message. *)
Definition summary (deal_id : string) (n_items : nat)
    (monday_user_id_to_assign : option N) (owner_warning : option string)
    (c : Counters) : bool * string :=
  let success_parts := ["Added note to Zendesk Deal " +:+ deal_id] in
  let '(success_parts, failure_parts, final_overall_success) :=
    if (monday_update_failures c =? 0)%nat then
      (success_parts ++
         ["updated status for " +:+
          PyStr.str_of_nat (monday_update_successes c) +:+
          " item(s) on Monday.com"], [], true)
    else
      (success_parts,
       ["failed to update status for " +:+
        PyStr.str_of_nat (monday_update_failures c) +:+ "/" +:+
        PyStr.str_of_nat n_items +:+ " item(s)"] ++
       (match monday_update_error_msgs c with
        | [] => []
        | msgs => ["(Status Errors: " +:+ PyStr.join "; " msgs +:+ ")"]
        end), false) in
  let '(success_parts, failure_parts) :=
    if truthy_N monday_user_id_to_assign then
      if (monday_person_failures c =? 0)%nat then
        if (0 <? monday_person_successes c)%nat then
          (success_parts ++
             ["assigned owner for " +:+
              PyStr.str_of_nat (monday_person_successes c) +:+ " item(s)"],
           failure_parts)
        else (success_parts, failure_parts)
      else
        (success_parts,
         failure_parts ++
         ["failed to assign owner for " +:+
          PyStr.str_of_nat (monday_person_failures c) +:+ "/" +:+
          PyStr.str_of_nat n_items +:+ " item(s)"] ++
         (match monday_person_error_msgs c with
          | [] => []
          | msgs => ["(Owner Assign Errors: " +:+ PyStr.join "; " msgs +:+ ")"]
          end))
    else if PyStr.truthy_opt owner_warning then
      (success_parts,
       failure_parts ++ ["(Owner not assigned: owner email not mapped)"])
    else (success_parts, failure_parts) in
  let final_message :=
    "Process Summary: " +:+ PyStr.join " & " success_parts +:+ "." in
  let final_message :=
    match failure_parts with
    | [] => final_message
    | _ =>
        final_message +:+ " However, " +:+
        PyStr.strip (PyStr.join " and " failure_parts) +:+ "."
    end in
  (final_overall_success, final_message).

(** The last statement; [zendesk_error_msg] is not bound on this path. *)
Definition fallback (global_error : option string) : Outcome :=
  if PyStr.truthy_opt global_error
  then Return AtFallback false (default EmptyString global_error)
  else Raise "NameError: zendesk_error_msg".

Definition process_activation_request (remote : Remote)
    (deal_id : string) (group_ids : list string)
    (group_map : gmap string string) : Outcome * list Call :=
  let '(owner_email, owner_error) := owner_reply remote in
  let ocalls := [CallOwner deal_id] in
  if PyStr.truthy_opt owner_error then
    (Return AtOwnerError false (default EmptyString owner_error), ocalls)
  else if negb (PyStr.truthy_opt owner_email) then
    (Return AtOwnerError false
       ("Could not retrieve owner email for Zendesk Deal " +:+ deal_id +:+ "."),
     ocalls)
  else
    let email := default EmptyString owner_email in
    let monday_user_id_to_assign := ZENDESK_OWNER_EMAIL_TO_MONDAY_ID !! email in
    let owner_warning := owner_warning_of email monday_user_id_to_assign in
    let found := find_items single_page (items_reply remote) group_map group_ids in
    let global_error := global_error found in
    let items := sort_found (items_found_details found) in
    match items with
    | [] =>
        (Return AtNoItems false
           (MondayCRM.or_else global_error (no_codes_message deal_id)),
         ocalls ++ find_calls found)
    | _ =>
        let note_messages := map note_entry items in
        let '(res, ncalls) :=
          write_note remote deal_id (zendesk_note_content note_messages) in
        match res with
        | inl e =>
            let zendesk_error_msg :=
              "Failed to write note to Zendesk Deal ID " +:+ deal_id +:+ ": " +:+ e in
            (Return AtNoteError false
               (MondayCRM.or_else global_error zendesk_error_msg),
             ocalls ++ find_calls found ++ ncalls)
        | inr zendesk_success =>
            if zendesk_success then
              let c := update_items remote monday_user_id_to_assign items in
              let '(final_overall_success, final_message) :=
                summary deal_id (length items) monday_user_id_to_assign
                  owner_warning c in
              (Return AtSummary final_overall_success final_message,
               ocalls ++ find_calls found ++ ncalls ++ update_calls c)
            else (fallback global_error, ocalls ++ find_calls found ++ ncalls)
        end
    end.

End Backup.

(* ===================================================================== *)
(** ** Notions used to state the properties *)
(* ===================================================================== *)

Module Token.
Import PyStr Regex.

(** [tok] is [prefix] up to the case of its letters. *)
Fixpoint ci_string (prefix tok : string) : bool :=
  match prefix, tok with
  | EmptyString, EmptyString => true
  | String p prefix', String c tok' => ci_eq p c && ci_string prefix' tok'
  | _, _ => false
  end.

Fixpoint all_upper (s : string) : bool :=
  match s with
  | EmptyString => true
  | String c s' => is_upper c && all_upper s'
  end.

(** The last character of [s], or [b] when [s] is empty. *)
Fixpoint last_or (b : option ascii) (s : string) : option ascii :=
  match s with
  | EmptyString => b
  | String c s' => last_or (Some c) s'
  end.

(** Nothing, one white-space character, a hyphen, or both in this order. *)
Definition is_separator (sep : string) : Prop :=
  sep = EmptyString \/ sep = "-" \/
  exists c, is_space c = true /\
            (sep = String c EmptyString \/ sep = String c "-").

(** The title contains the token [prefix] with version [v] as a whole
    word: the prefix in any case, a separator, the digits [v], with no word
    character directly before or after. *)
Definition token_at (prefix title v : string) : Prop :=
  exists pre tok sep post,
    title = pre +:+ tok +:+ sep +:+ v +:+ post /\
    is_word_opt (last_or None pre) = false /\
    ci_string prefix tok = true /\
    is_separator sep /\
    v <> EmptyString /\ all_digits v = true /\
    is_word_opt (head post) = false.

Definition has_token (prefix title : string) : Prop :=
  exists v, token_at prefix title v.

End Token.

(** A fetched item carries the [id] and [name] that the query asks for. *)
Definition item_has_keys (item : Item) : Prop :=
  item_id item <> None /\ item_name item <> None.

(** The fetch of a group succeeds: paging ends without an exception and
    returns items with their [id] and [name]. *)
Definition fetch_succeeds
    (fetch : string -> PageReply -> (string + list Item) * list Call)
    (group_id : string) (reply : PageReply) : Prop :=
  exists items calls,
    fetch group_id reply = (inr items, calls) /\ Forall item_has_keys items.

(** The available item that a group yields, if any. *)
Definition group_item
    (fetch : string -> PageReply -> (string + list Item) * list Call)
    (group_map : gmap string string) (reply : PageReply) (group_id : string)
  : option ItemDetail :=
  match fetch group_id reply with
  | (inr items, _) =>
      match scan_group
              (get_product_display_name (group_title_of group_map group_id))
              items with
      | ScanFound d => Some d
      | _ => None
      end
  | (inl _, _) => None
  end.

(** The items that the groups from position [i] on yield, in group order. *)
Fixpoint yielded_items
    (fetch : string -> PageReply -> (string + list Item) * list Call)
    (replies : nat -> PageReply) (group_map : gmap string string)
    (i : nat) (group_ids : list string) : list ItemDetail :=
  match group_ids with
  | [] => []
  | group_id :: rest =>
      option_list (group_item fetch group_map (replies i) group_id) ++
      yielded_items fetch replies group_map (S i) rest
  end.

Definition is_ok (r : MutReply) : bool :=
  match r with MutOk => true | MutFail _ => false end.

Definition fail_detail (item_id : string) (r : MutReply) : list string :=
  match r with
  | MutOk => []
  | MutFail msg => ["Item " +:+ item_id +:+ ": " +:+ msg]
  end.

(** Number of positions of [items] at which [P] holds. *)
Definition count_at {A : Type} (P : nat -> bool) (items : list A) : nat :=
  length (List.filter (fun b : bool => b) (imap (fun i _ => P i) items)).

(** The calls issued for the item at position [i]: the status update, then
    the assignment when it is attempted. *)
Definition attempted (remote : Remote) (uid : option N) (i : nat) : bool :=
  is_ok (status_reply remote i) && truthy_N uid.

Definition item_calls (remote : Remote) (uid : option N) (i : nat)
    (d : ItemDetail) : list Call :=
  CallSetStatus (d_item_id d) ::
  (if attempted remote uid i
   then [CallAssignPerson (d_item_id d) (default 0%N uid)] else []).

(** Owner resolution fails: it reports an error, or no email. *)
Definition owner_failed (remote : Remote) : Prop :=
  PyStr.truthy_opt (owner_reply remote).2 = true \/
  PyStr.truthy_opt (owner_reply remote).1 = false.

Definition no_mutation (calls : list Call) : bool :=
  forallb (fun c => negb (is_mutation c)) calls.

(** A tagging call that does not end with status 200. *)
Definition tag_failed (r : TagReply) : Prop :=
  match r with
  | TagResponse status_code _ => status_code <> 200%N
  | TagNetworkError _ | TagUnexpected _ => True
  end.

(** The 256 values of [ascii]. *)
Definition all_ascii : list ascii := map ascii_of_nat (seq 0 256).

(** ** Sample replies *)

Module Samples.

Definition status_cv (text : string) : CvEntry :=
  CvDict (mkCv (Some STATUS_COLUMN_ID) (Some text) None).

Definition item_with_status (id code text : string) : Item :=
  mkItem (Some id) (Some code) (Some [status_cv text]).

Definition one_group : list Group := [mkGroup "g1" "PL8"].

Definition one_group_map : gmap string string := {[ "g1" := "PL8" ]}.

(** One group with one available item; the note is created and tagged, the
    status update succeeds and the owner assignment fails. *)
Definition assignment_fails : Remote :=
  mkRemote (Some "asoni@dxo.com", None) (Some one_group, None)
    (fun _ => PageLast [item_with_status "1" "CODE1" "Not used"])
    (NoteCreated (Some 55%N)) (TagResponse 200 EmptyString)
    (fun _ => MutOk) (fun _ => MutFail "boom").

(** The same, but the status update fails. *)
Definition status_fails : Remote :=
  mkRemote (Some "asoni@dxo.com", None) (Some one_group, None)
    (fun _ => PageLast [item_with_status "1" "CODE1" "Not used"])
    (NoteCreated (Some 55%N)) (TagResponse 200 EmptyString)
    (fun _ => MutFail "boom") (fun _ => MutOk).

(** The same, but tagging the note is refused. *)
Definition tag_fails : Remote :=
  mkRemote (Some "asoni@dxo.com", None) (Some one_group, None)
    (fun _ => PageLast [item_with_status "1" "CODE1" "Not used"])
    (NoteCreated (Some 55%N)) (TagResponse 500 "oops")
    (fun _ => MutOk) (fun _ => MutOk).

(** The deal is not found. *)
Definition owner_not_found : Remote :=
  mkRemote (None, Some "Zendesk Deal ID 123 not found.") (Some one_group, None)
    (fun _ => PageLast [item_with_status "1" "CODE1" "Not used"])
    (NoteCreated (Some 55%N)) (TagResponse 200 EmptyString)
    (fun _ => MutOk) (fun _ => MutOk).

(** Two pages for every group, none with an available item. *)
Definition nothing_available : Remote :=
  mkRemote (Some "asoni@dxo.com", None) (Some one_group, None)
    (fun _ => PageMore [item_with_status "1" "CODE1" "Used"] "c1"
                (PageLast [item_with_status "2" "CODE2" "Reserved"]))
    (NoteCreated (Some 55%N)) (TagResponse 200 EmptyString)
    (fun _ => MutOk) (fun _ => MutOk).

End Samples.

(* ===================================================================== *)
(** ** Further notions: errors of a group, kinds of calls *)
(* ===================================================================== *)

(** The exception that the [try] block of a group ends with, if any: the
    one of the fetch, or the missing key met by the scan. *)
Definition group_error
    (fetch : string -> PageReply -> (string + list Item) * list Call)
    (group_map : gmap string string) (reply : PageReply) (group_id : string)
  : option string :=
  match fetch group_id reply with
  | (inl e, _) => Some e
  | (inr items, _) =>
      match scan_group
              (get_product_display_name (group_title_of group_map group_id))
              items with
      | ScanRaise e => Some e
      | _ => None
      end
  end.

(** The exception of the first group, from position [i] on, that has one. *)
Fixpoint first_group_error
    (fetch : string -> PageReply -> (string + list Item) * list Call)
    (replies : nat -> PageReply) (group_map : gmap string string)
    (i : nat) (group_ids : list string) : option string :=
  match group_ids with
  | [] => None
  | group_id :: rest =>
      match group_error fetch group_map (replies i) group_id with
      | Some e => Some e
      | None => first_group_error fetch replies group_map (S i) rest
      end
  end.

Definition is_items_page (c : Call) : bool :=
  match c with CallItemsPage _ _ => true | _ => false end.

Definition is_create_note (c : Call) : bool :=
  match c with CallCreateNote _ _ => true | _ => false end.

Definition is_set_status (c : Call) : bool :=
  match c with CallSetStatus _ => true | _ => false end.

Definition is_assign_person (c : Call) : bool :=
  match c with CallAssignPerson _ _ => true | _ => false end.

Definition count_calls (p : Call -> bool) (calls : list Call) : nat :=
  length (List.filter p calls).

(** The five customer-facing product names. *)
Definition base_names : list string :=
  ["FilmPack"; "ViewPoint"; "PureRaw"; "PhotoLab"; "Nik Collection"].

(** The exchange of one group, read page by page: the pages read, the
    cursors followed, and the exception it ends with, if any. *)
Inductive Reads : PageReply -> list (list Item) -> list string -> option string -> Prop :=
| ReadsError e : Reads (PageError e) [] [] (Some e)
| ReadsLast new_items : Reads (PageLast new_items) [new_items] [] None
| ReadsStop new_items cursor next :
    PyStr.truthy cursor = false ->
    Reads (PageMore new_items cursor next) [new_items] [] None
| ReadsMore new_items cursor next pages cursors outcome :
    PyStr.truthy cursor = true ->
    Reads next pages cursors outcome ->
    Reads (PageMore new_items cursor next) (new_items :: pages)
      (cursor :: cursors) outcome.

(** No reply of the exchange carries a cursor: the group fits in one page. *)
Definition one_page (reply : PageReply) : Prop :=
  match reply with
  | PageMore _ _ _ => False
  | _ => True
  end.

(* ===================================================================== *)
(** ** More of the wizard: reset, check boxes, result page *)
(* ===================================================================== *)

Module WizardMore.

(** [reset_app]: back to step 1 with an empty deal id, no result, no error
    and no groups. The keys it does not touch ([owner_email], [processing],
    [success_message]) keep their values. ([monday_data],
    [selected_group_details] and the query parameters, which it also resets,
    are read by no other code and are not part of [Session].) *)
Definition reset_app (st : Session) : Session :=
  mkSession 1 EmptyString (ss_owner_email st) None [] []
    (ss_processing st) None (ss_success_message st).

(** The check-box loop of step 2: the titles of the groups whose box is
    ticked, in board order. A box is keyed by the id of its group. *)
Definition tick (is_checked : string -> bool) (all_groups : list Group)
  : list string :=
  map g_title (List.filter (fun g => is_checked (g_id g)) all_groups).

(** The groups that "Proceed" selects for the ticked titles. *)
Definition chosen_groups (selected_titles : list string)
    (all_groups : list Group) : list Group :=
  List.filter (title_in selected_titles) all_groups.

Inductive View :=
| ViewSuccess (message : option string)   (* balloons, and the summary if any *)
| ViewInfo (text : string)
| ViewError (text : string)
| ViewUnclear.                            (* "final status unclear" *)

Definition no_codes_prefix : string := "INFO: No codes found:".

(** The handler of step 3, up to its "Start Over" button: what it shows and
    the session it leaves. *)
Definition step3_view (st : Session) : View * Session :=
  match ss_note_written st with
  | Some true =>
      if PyStr.truthy_opt (ss_success_message st) then
        (ViewSuccess (ss_success_message st),
         mkSession (ss_current_step st) (ss_deal_id st) (ss_owner_email st)
           (ss_show_error st) (ss_all_groups st) (ss_selected_groups st)
           (ss_processing st) (ss_note_written st) None)
      else (ViewSuccess None, st)
  | _ =>
      if PyStr.truthy_opt (ss_show_error st) then
        let error_message := default EmptyString (ss_show_error st) in
        (if String.prefix no_codes_prefix error_message
         then ViewInfo (PyStr.strip
                          (PyStr.replace no_codes_prefix EmptyString error_message))
         else ViewError error_message,
         with_error st None)
      else (ViewUnclear, st)
  end.

End WizardMore.

(* ===================================================================== *)
(** ** get_zendesk_deal_owner_email *)
(* ===================================================================== *)

Module Zendesk.

(** [s.lower()] on ASCII. *)
Fixpoint str_lower (s : string) : string :=
  match s with
  | EmptyString => EmptyString
  | String c s' => String (PyStr.lower c) (str_lower s')
  end.

(** What evaluating [z_client.deals.retrieve(id=int(deal_id))] does: it
    raises (the conversion of the id included), or it returns a deal, seen
    through [not deal or not deal.get('owner_id')]: the owner id, when the
    deal and its owner id are truthy. *)
Inductive DealReply :=
| DealRaise (e : string)
| DealObject (owner_id : option N).

(** What [z_client.users.retrieve(id=owner_id)] does; the email is [None]
    when the user or its email is missing. *)
Inductive UserReply :=
| UserRaise (e : string)
| UserObject (email : option string).

Record Service := mkService {
  deal_reply : DealReply;
  user_reply : N -> UserReply
}.

Inductive ZCall :=
| CallDeal (deal_id : string)
| CallUser (owner_id : N).

(** The [except Exception] clause: [e] is [str(e)]. *)
Definition on_exception (deal_id e : string) : option string * option string :=
  if PyStr.contains "Not Found" e
  then (None, Some ("Zendesk Deal ID " +:+ deal_id +:+ " not found."))
  else (None, Some ("Error fetching Zendesk deal owner email for Deal ID " +:+
                    deal_id +:+ ": " +:+ e)).

Definition get_zendesk_deal_owner_email (z : Service) (deal_id : string)
  : (option string * option string) * list ZCall :=
  match deal_reply z with
  | DealRaise e => (on_exception deal_id e, [CallDeal deal_id])
  | DealObject owner =>
      if negb (truthy_N owner) then
        ((None, Some ("Could not find deal or owner ID for Zendesk Deal " +:+
                      deal_id +:+ ".")),
         [CallDeal deal_id])
      else
        let owner_id := default 0%N owner in
        let calls := [CallDeal deal_id; CallUser owner_id] in
        match user_reply z owner_id with
        | UserRaise e => (on_exception deal_id e, calls)
        | UserObject email =>
            if negb (PyStr.truthy_opt email) then
              ((None, Some ("Could not find owner details or email for Owner ID " +:+
                            PyStr.str_of_N owner_id +:+ " (Deal " +:+ deal_id +:+
                            ").")),
               calls)
            else ((Some (str_lower (default EmptyString email)), None), calls)
        end
  end.

Definition is_user_call (c : ZCall) : bool :=
  match c with CallUser _ => true | CallDeal _ => false end.


End Zendesk.

(* ===================================================================== *)
(** ** load_api_keys *)
(* ===================================================================== *)

Module Keys.

(** What [config.get(section, "api_key")] does. *)
Inductive CfgReply :=
| CfgValue (v : string)
| CfgMissing (e : string)   (* NoSectionError or NoOptionError; [e] is its text *)
| CfgRaise (e : string).    (* any other exception: not caught *)

(** The configuration file as [os.path.exists] and [config.read] see it. *)
Inductive ConfigFile :=
| NoFile
| Unreadable (e : string)   (* [config.read] raises: not caught *)
| Parsed (monday zendesk : CfgReply).

Record Env := mkEnv {
  env_monday : option string;    (* os.environ.get("MONDAY_API_KEY") *)
  env_zendesk : option string;   (* os.environ.get("ZENDESK_API_KEY") *)
  config_file : ConfigFile
}.

Inductive Loaded :=
| KeysLoaded (monday_key zendesk_key : string)
| Stopped (error : string)    (* [st.error] then [st.stop()] *)
| Crashed (e : string).       (* an exception that nothing catches *)

Definition quote : ascii := ascii_of_nat 34.

Fixpoint lstrip_quotes (s : string) : string :=
  match s with
  | EmptyString => EmptyString
  | String c s' => if Ascii.eqb c quote then lstrip_quotes s' else s
  end.

(** [s.strip] with the double quote as the only character to strip. *)
Definition strip_quotes (s : string) : string :=
  PyStr.str_rev (lstrip_quotes (PyStr.str_rev (lstrip_quotes s))).

(** [config.get(...).strip()] followed by that [strip] of quotes. *)
Definition clean (v : string) : string := strip_quotes (PyStr.strip v).

Definition CONFIG_FILE : string := "parameters.config".

Definition missing_message (e : string) : string :=
  "Could not find required section or key in " +:+ CONFIG_FILE +:+ ": " +:+ e.

Definition load_api_keys (env : Env) : Loaded :=
  if PyStr.truthy_opt (env_monday env) && PyStr.truthy_opt (env_zendesk env)
  then KeysLoaded (default EmptyString (env_monday env))
                  (default EmptyString (env_zendesk env))
  else
    match config_file env with
    | NoFile =>
        Stopped ("Configuration file '" +:+ CONFIG_FILE +:+
                 "' not found and API keys not in environment variables.")
    | Unreadable e => Crashed e
    | Parsed monday zendesk =>
        match monday with
        | CfgMissing e => Stopped (missing_message e)
        | CfgRaise e => Crashed e
        | CfgValue m =>
            let monday_key_conf := clean m in
            match zendesk with
            | CfgMissing e => Stopped (missing_message e)
            | CfgRaise e => Crashed e
            | CfgValue z =>
                let zendesk_key_conf := clean z in
                if negb (PyStr.truthy monday_key_conf) ||
                   negb (PyStr.truthy zendesk_key_conf)
                then Stopped ("API keys missing or empty in " +:+ CONFIG_FILE +:+ ".")
                else KeysLoaded monday_key_conf zendesk_key_conf
            end
        end
    end.

End Keys.

(* ===================================================================== *)
(** ** get_monday_users.py: the users that are listed *)
(* ===================================================================== *)

Module Users.

(** A user of the reply; the three flags are the truthiness of
    [user.get('is_guest')], [user.get('is_pending')] and
    [user.get('is_view_only')]. *)
Record User := mkUser {
  u_id : string;
  u_name : string;
  is_guest : bool;
  is_pending : bool;
  is_view_only : bool
}.

Definition is_active (user : User) : bool :=
  negb (is_guest user) && negb (is_pending user) && negb (is_view_only user).

(** The users that the script lists, given what [get_monday_users]
    returned ([None] also stands for an empty list, which is as falsy):
    [None] when it prints "Failed to retrieve user list." *)
Definition listed (users : option (list User)) : option (list User) :=
  match users with
  | None | Some [] => None
  | Some users =>
      let active_users := List.filter is_active users in
      match active_users with
      | [] => Some users
      | _ => Some active_users
      end
  end.

End Users.

(* ===================================================================== *)
(** ** Decoded JSON values and the Python operations on them *)
(* ===================================================================== *)

Module Json.

(** A value as [response.json()] and [json.loads] return it. A float is
    kept by its truth value, which is all that the code asks of one. An
    object lists its members in the order of the Python dict; a key occurs
    once, and a lookup takes the first member with the key. [JNull] is
    Python's [None]. *)
#[warnings="-register-all"] Inductive value :=
| JNull
| JBool (b : bool)
| JInt (z : Z)
| JFloat (nonzero : bool)
| JStr (s : string)
| JArr (elements : list value)
| JObj (members : list (string * value)).

(** The exceptions that the code can meet, by class. *)
Inductive exn :=
| RequestException (text : string)   (* requests.exceptions.RequestException *)
| JSONDecodeError (text : string)    (* json.JSONDecodeError *)
| KeyError (key : value)
| IndexError
| TypeError (v : value)              (* the type of [v] does not support the operation *)
| AttributeError (v : value) (name : string)
| ValueError (s : string)
| Exception (text : string).         (* [raise Exception(text)] *)

Definition bind {A B : Type} (m : exn + A) (k : A -> exn + B) : exn + B :=
  match m with
  | inl e => inl e
  | inr a => k a
  end.

Declare Scope py_scope.
Delimit Scope py_scope with py.
Notation "x <- m ;; k" := (bind m (fun x => k))
  (at level 100, m at next level, right associativity) : py_scope.
Open Scope py_scope.

Fixpoint traverse {A B : Type} (f : A -> exn + B) (l : list A) : exn + list B :=
  match l with
  | [] => inr []
  | a :: l' => b <- f a ;; bs <- traverse f l' ;; inr (b :: bs)
  end.

Definition truthy (v : value) : bool :=
  match v with
  | JNull => false
  | JBool b => b
  | JInt z => negb (z =? 0)%Z
  | JFloat nonzero => nonzero
  | JStr s => PyStr.truthy s
  | JArr [] => false
  | JArr (_ :: _) => true
  | JObj [] => false
  | JObj (_ :: _) => true
  end.

Fixpoint lookup (key : string) (members : list (string * value)) : option value :=
  match members with
  | [] => None
  | (k, v) :: rest => if String.eqb key k then Some v else lookup key rest
  end.

(** [v == s] for a string [s]. *)
Definition is_str (s : string) (v : value) : bool :=
  match v with
  | JStr t => String.eqb s t
  | _ => false
  end.

(** [key in v] *)
Definition contains (key : string) (v : value) : exn + bool :=
  match v with
  | JObj members => inr (bool_decide (is_Some (lookup key members)))
  | JArr elements => inr (existsb (is_str key) elements)
  | JStr s => inr (PyStr.contains key s)
  | _ => inl (TypeError v)
  end.

(** [v.get(key, d)] *)
Definition get_or (v : value) (key : string) (d : value) : exn + value :=
  match v with
  | JObj members => inr (default d (lookup key members))
  | _ => inl (AttributeError v "get")
  end.

(** [v.get(key)] *)
Definition get (v : value) (key : string) : exn + value := get_or v key JNull.

(** [v[key]] for a string [key] *)
Definition item (v : value) (key : string) : exn + value :=
  match v with
  | JObj members =>
      match lookup key members with
      | Some x => inr x
      | None => inl (KeyError (JStr key))
      end
  | _ => inl (TypeError v)
  end.

(** [v[0]]; the keys of a decoded object are strings, so 0 is none of
    them. *)
Definition first (v : value) : exn + value :=
  match v with
  | JArr (x :: _) => inr x
  | JArr [] => inl IndexError
  | JStr (String c _) => inr (JStr (String c EmptyString))
  | JStr EmptyString => inl IndexError
  | JObj _ => inl (KeyError (JInt 0))
  | _ => inl (TypeError v)
  end.

(** [v.items()] *)
Definition items (v : value) : exn + list (string * value) :=
  match v with
  | JObj members => inr members
  | _ => inl (AttributeError v "items")
  end.

(** What [for x in v] visits. *)
Definition iter (v : value) : exn + list value :=
  match v with
  | JArr elements => inr elements
  | JObj members => inr (map (fun kv => JStr kv.1) members)
  | JStr s => inr (map (fun c => JStr (String c EmptyString)) (list_ascii_of_string s))
  | _ => inl (TypeError v)
  end.

(** An HTTP exchange: what [requests.post] does, then what
    [response.raise_for_status()], [response.text] and [response.json()]
    do. [response.json()] fails with a [RequestException] in recent
    versions of requests and with a [JSONDecodeError] in older ones. *)
Inductive Reply :=
| NoResponse (e : exn)
| Response (http_error : option string) (text : string) (body : exn + value).

(** [response = requests.post(...)], [response.raise_for_status()],
    [result = response.json()]. *)
Definition result_of (reply : Reply) : exn + value :=
  match reply with
  | NoResponse e => inl e
  | Response (Some e) _ _ => inl (RequestException e)
  | Response None _ body => body
  end.

(** [response_text if 'response_text' in locals() else 'N/A'] in a handler
    of the [try] block that starts with the request. *)
Definition response_text_of (reply : Reply) : string :=
  match reply with
  | NoResponse _ => "N/A"
  | Response _ text _ => text
  end.

End Json.

(* ===================================================================== *)
(** ** The requests to monday.com *)
(* ===================================================================== *)

Module MondayApi.
Import Json.

(** The requests sent. *)
Inductive WireCall :=
| QueryColumn (column_id : string)
| ChangeStatus (item_id : string) (status_index : option Z)
| ChangePerson (item_id : string) (monday_user_id : N).

Definition is_change (c : WireCall) : bool :=
  match c with
  | QueryColumn _ => false
  | ChangeStatus _ _ | ChangePerson _ _ => true
  end.

Section Runtime.

(** What the Python runtime contributes: the text of a value inside an
    f-string, the text [str(e)] of a built-in exception, [int] of a string
    and [json.loads] of a string ([inl] is the text of its
    [JSONDecodeError]). *)
Variable repr : value -> string.
Variable builtin_text : exn -> string.
Variable py_int : string -> option Z.
Variable json_loads : string -> string + value.

(** [str(e)] *)
Definition exn_str (e : exn) : string :=
  match e with
  | RequestException text | JSONDecodeError text | Exception text => text
  | _ => builtin_text e
  end.

(** [int(index)] for a key of a decoded object. *)
Definition int (index : string) : exn + Z :=
  match py_int index with
  | Some i => inr i
  | None => inl (ValueError index)
  end.

(** [json.loads(v)] *)
Definition loads (v : value) : exn + value :=
  match v with
  | JStr s =>
      match json_loads s with
      | inl text => inl (JSONDecodeError text)
      | inr x => inr x
      end
  | _ => inl (TypeError v)
  end.

(** One entry of the list that [fetch_monday_data] returns. *)
Definition group_entry (group : value) : exn + value :=
  id <- item group "id" ;;
  title <- item group "title" ;;
  inr (JObj [("id", id); ("title", title)]).

(** The value of [groups] before it is tested. *)
Definition groups_of (result : value) : exn + value :=
  data <- get result "data" ;;
  if truthy data then
    data <- item result "data" ;;
    boards <- get data "boards" ;;
    if truthy boards then
      data <- item result "data" ;;
      boards <- item data "boards" ;;
      board_data <- first boards ;;
      if truthy board_data then get_or board_data "groups" (JArr [])
      else inr (JArr [])
    else inr (JArr [])
  else inr (JArr []).

Definition fetch_monday_data (reply : Reply)
  : option (list value) * option string :=
  let body : exn + (option (list value) * option string) :=
    result <- result_of reply ;;
    has_errors <- contains "errors" result ;;
    if has_errors then
      errors <- item result "errors" ;;
      inr (None, Some ("Monday API Error fetching groups: " +:+ repr errors))
    else
      groups <- groups_of result ;;
      if negb (truthy groups) then
        inr (Some [], Some "No groups found on the specified Monday.com board.")
      else
        groups <- iter groups ;;
        fetched_groups <- traverse group_entry groups ;;
        inr (Some fetched_groups, None) in
  match body with
  | inr r => r
  | inl (RequestException e) =>
      (None, Some ("Network or HTTP error connecting to Monday API: " +:+ e))
  | inl (JSONDecodeError _) =>
      (None, Some "Error decoding JSON response from Monday API.")
  | inl e =>
      (None, Some ("An unexpected error occurred during Monday API call: " +:+
                   exn_str e))
  end.

(** The value of [labels_map], or the exception raised before it is
    bound. *)
Definition labels_map_of (reply : Reply) : exn + value :=
  result <- result_of reply ;;
  has_errors <- contains "errors" result ;;
  if has_errors then
    errors <- item result "errors" ;;
    inl (Exception ("API error fetching column settings: " +:+ repr errors))
  else
    data <- item result "data" ;;
    boards <- item data "boards" ;;
    board <- first boards ;;
    columns <- item board "columns" ;;
    column <- first columns ;;
    settings_str <- item column "settings_str" ;;
    settings <- loads settings_str ;;
    get_or settings "labels" (JObj []).

(** The loop over [labels_map.items()]: [Some] index when it returns. *)
Fixpoint label_loop (target_label : string) (labels : list (string * value))
  : exn + option Z :=
  match labels with
  | [] => inr None
  | (index, label) :: rest =>
      if is_str target_label label then i <- int index ;; inr (Some i)
      else label_loop target_label rest
  end.

Definition get_status_index_from_label (reply : Reply)
    (column_id target_label : string) : option Z * option string :=
  let body : exn + (option Z * value) :=
    labels_map <- labels_map_of reply ;;
    labels <- items labels_map ;;
    found <- label_loop target_label labels ;;
    inr (found, labels_map) in
  match body with
  | inr (Some index, _) => (Some index, None)
  | inr (None, labels_map) =>
      (None, Some ("Label '" +:+ target_label +:+
                   "' not found in settings for column '" +:+ column_id +:+
                   "'. Found: " +:+ repr labels_map))
  | inl e => (None, Some ("Error getting status index: " +:+ exn_str e))
  end.

(** ["errors" in result and result["errors"]], as a truth value *)
Definition errors_reported (result : value) : exn + bool :=
  has_errors <- contains "errors" result ;;
  if has_errors then errors <- item result "errors" ;; inr (truthy errors)
  else inr false.

(** [not result.get("data") or
     not result["data"].get("change_column_value") or
     not result["data"]["change_column_value"].get("id")] *)
Definition structure_unexpected (result : value) : exn + bool :=
  data <- get result "data" ;;
  if negb (truthy data) then inr true
  else
    data <- item result "data" ;;
    change <- get data "change_column_value" ;;
    if negb (truthy change) then inr true
    else
      data <- item result "data" ;;
      change <- item data "change_column_value" ;;
      id <- get change "id" ;;
      inr (negb (truthy id)).

Definition update_monday_item_status (column_reply change_reply : Reply)
    (item_id status_column_id new_status_label : string)
  : (bool * option string) * list WireCall :=
  let '(status_index, error_msg) :=
    get_status_index_from_label column_reply status_column_id new_status_label in
  if PyStr.truthy_opt error_msg then
    ((false, error_msg), [QueryColumn status_column_id])
  else
    let calls := [QueryColumn status_column_id; ChangeStatus item_id status_index] in
    let response_text := response_text_of change_reply in
    let body : exn + (bool * option string) :=
      result <- result_of change_reply ;;
      reported <- errors_reported result ;;
      if reported then
        errors <- item result "errors" ;;
        inr (false,
             Some ("Monday API GraphQL Error updating status via Variables: " +:+
                   repr errors))
      else
        unexpected <- structure_unexpected result ;;
        if unexpected then
          inr (false,
               Some ("Monday API response structure unexpected or indicates failure using Variables. Full response: " +:+
                     repr result))
        else inr (true, None) in
    match body with
    | inr r => (r, calls)
    | inl (RequestException e) =>
        ((false,
          Some ("Network/HTTP error (Variables method): " +:+ e +:+
                ". Response text: " +:+ response_text)), calls)
    | inl (JSONDecodeError _) =>
        ((false,
          Some ("Failed to decode JSON response (Variables method). Response text: " +:+
                response_text)), calls)
    | inl e =>
        ((false, Some ("Unexpected error (Variables method): " +:+ exn_str e)),
         calls)
    end.

(** [monday_user_id] is an integer of the assignment table, so
    [int(monday_user_id)] before the [try] block returns it. *)
Definition update_monday_item_person (change_reply : Reply)
    (item_id : string) (monday_user_id : N)
  : (bool * option string) * list WireCall :=
  let calls := [ChangePerson item_id monday_user_id] in
  let response_text := response_text_of change_reply in
  let body : exn + (bool * option string) :=
    result <- result_of change_reply ;;
    reported <- errors_reported result ;;
    if reported then
      errors <- item result "errors" ;;
      inr (false,
           Some ("Monday API GraphQL Error assigning person: " +:+ repr errors))
    else
      unexpected <- structure_unexpected result ;;
      if unexpected then
        inr (false,
             Some ("Monday API response structure unexpected assigning person. Full response: " +:+
                   repr result))
      else inr (true, None) in
  match body with
  | inr r => (r, calls)
  | inl (RequestException e) =>
      ((false,
        Some ("Network/HTTP error assigning person: " +:+ e +:+
              ". Response text: " +:+ response_text)), calls)
  | inl (JSONDecodeError _) =>
      ((false,
        Some ("Failed to decode JSON response assigning person. Response text: " +:+
              response_text)), calls)
  | inl e =>
      ((false, Some ("Unexpected error assigning person: " +:+ exn_str e)), calls)
  end.

(** One turn of the paging loop of [process_activation_request], from the
    decoded reply to [new_items] and [next_cursor]. *)
Definition decode_page (page_num group_id : string) (result : value)
  : exn + (value * value) :=
  has_errors <- contains "errors" result ;;
  if has_errors then
    errors <- item result "errors" ;;
    inl (Exception ("Monday API Error on page " +:+ page_num +:+
                    " for group " +:+ group_id +:+ ": " +:+ repr errors))
  else
    data <- get_or result "data" (JObj []) ;;
    boards <- get_or data "boards" (JArr []) ;;
    groups <- (if truthy boards then
                 data <- item result "data" ;;
                 boards <- item data "boards" ;;
                 board <- first boards ;;
                 get_or board "groups" (JArr [])
               else inr boards) ;;
    if truthy groups then
      data <- item result "data" ;;
      boards <- item data "boards" ;;
      board <- first boards ;;
      groups <- item board "groups" ;;
      group_data <- first groups ;;
      items_page <- (if truthy group_data then get group_data "items_page"
                     else inr group_data) ;;
      if truthy items_page then
        items_page_data <- item group_data "items_page" ;;
        new_items <- get_or items_page_data "items" (JArr []) ;;
        next_cursor <- get items_page_data "cursor" ;;
        inr (new_items, next_cursor)
      else inr (JArr [], JNull)
    else inr (JArr [], JNull).

(** [get_monday_users] of get_monday_users.py; [JNull] is its [None]. The
    three handlers all return [None]. *)
Definition get_monday_users (reply : Reply) : value :=
  let body : exn + value :=
    result <- result_of reply ;;
    has_errors <- contains "errors" result ;;
    if has_errors then
      errors <- item result "errors" ;;
      inr JNull
    else
      data <- get result "data" ;;
      users <- (if truthy data then
                  data <- item result "data" ;; get data "users"
                else inr data) ;;
      if truthy users then
        data <- item result "data" ;;
        item data "users"
      else inr JNull in
  match body with
  | inr users => users
  | inl (RequestException _) => JNull
  | inl (JSONDecodeError _) => JNull
  | inl _ => JNull
  end.

End Runtime.

End MondayApi.

(** ** Notions about the requests *)

Module ApiNotions.
Import Json MondayApi.

(** A reply that confirms a [change_column_value] mutation: no HTTP error, a
    JSON object without truthy [errors] whose
    [data.change_column_value.id] is truthy. *)
Definition change_confirmed (reply : Reply) : Prop :=
  exists text o d c id,
    reply = Response None text (inr (JObj o)) /\
    (forall e, lookup "errors" o = Some e -> truthy e = false) /\
    lookup "data" o = Some (JObj d) /\
    lookup "change_column_value" d = Some (JObj c) /\
    lookup "id" c = Some id /\ truthy id = true.

(** The [try] body shared by the two mutations, up to the texts. *)
Definition change_body (on_errors on_unexpected : value -> string)
    (reply : Reply) : exn + (bool * option string) :=
  result <- result_of reply ;;
  reported <- errors_reported result ;;
  if reported then
    errors <- item result "errors" ;;
    inr (false, Some (on_errors errors))
  else
    unexpected <- structure_unexpected result ;;
    if unexpected then inr (false, Some (on_unexpected result))
    else inr (true, None).

(** The reply is answered with a JSON value that is not an object. *)
Definition not_an_object (v : value) : Prop :=
  forall o, v <> JObj o.

End ApiNotions.

(* ===================================================================== *)
(** ** Notions read off the data, not off the code *)
(* ===================================================================== *)

(** [s.isascii()]: every character of [s] has a code point below 128. On
    such strings the character classes of [PyStr] and [Regex] are those of
    Python; beyond ASCII, [str.isdigit], [str.strip], [str.lower] and the
    classes of [re] on a [str] pattern accept more characters than the model
    does. *)
Fixpoint isascii (s : string) : bool :=
  match s with
  | EmptyString => true
  | String c s' => (PyStr.code c <? 128)%nat && isascii s'
  end.

(** The texts of the entries of [column_values] for the status column, in
    order. *)
Definition status_texts (cvs : list CvEntry) : list (option string) :=
  flat_map (fun e =>
              match e with
              | CvDict cv =>
                  if decide (cv_id cv = Some STATUS_COLUMN_ID)
                  then [cv_text cv] else []
              | CvMalformed => []
              end) cvs.

(** The status text of an item as its data give it: the text of its status
    column (of the last entry for it, should there be several). It does not
    depend on the other columns. *)
Definition status_text (item : Item) : option string :=
  match column_values item with
  | Some cvs => default None (last (status_texts cvs))
  | None => None
  end.

(** A link column without text (or with the text "N/A") whose value parses
    to JSON that is no object: [link_data.get] raises on it. *)
Definition link_raises (cv : ColumnValue) : bool :=
  (bool_decide (cv_id cv = Some MAC_LINK_COLUMN_ID) ||
   bool_decide (cv_id cv = Some WIN_LINK_COLUMN_ID)) &&
  (negb (PyStr.truthy_opt (cv_text cv)) || bool_decide (cv_text cv = Some NA)) &&
  match cv_value cv with
  | Some JsonNotObject => true
  | _ => false
  end.

Definition entry_readable (e : CvEntry) : bool :=
  match e with
  | CvDict cv => negb (link_raises cv)
  | CvMalformed => false
  end.

(** The column values of the item can be read: the item has the key, every
    entry is an object, and no link raises. *)
Definition readable (item : Item) : bool :=
  match column_values item with
  | Some cvs => forallb entry_readable cvs
  | None => false
  end.

(** An item that can be allocated: it has the status text "Not used" and
    its column values can be read. *)
Definition available (item : Item) : bool :=
  bool_decide (status_text item = Some STATUS_LABEL_NOT_USED) && readable item.

(** The exchange for a group ends without exception; [items] are the items
    of its pages, in order, and they carry [id] and [name]. *)
Definition fetched (reply : PageReply) (items : list Item) : Prop :=
  exists pages cursors,
    Reads reply pages cursors None /\ items = concat pages /\
    Forall item_has_keys items.

(** The newest available item of a group: the last one fetched. *)
Definition newest_available (items : list Item) : option Item :=
  List.find available (rev items).

(** What the groups from position [i] on are expected to contribute, in
    group order: the id, the activation code and the display name for the
    newest available item of each group that has one. *)
Fixpoint expected_found (items_of : nat -> list Item)
    (group_map : gmap string string) (i : nat) (group_ids : list string)
  : list (string * string * string) :=
  match group_ids with
  | [] => []
  | group_id :: rest =>
      match newest_available (items_of i) with
      | Some item =>
          [(default EmptyString (item_id item),
            default EmptyString (item_name item),
            get_product_display_name (group_title_of group_map group_id))]
      | None => []
      end ++ expected_found items_of group_map (S i) rest
  end.

Definition found_key (d : ItemDetail) : string * string * string :=
  (d_item_id d, d_code d, d_product d).

(** The message recorded when tagging the note [new_note_id] fails, for
    each way the call can fail (status other than 200, network error, any
    other exception). *)
Definition tag_failure_text (new_note_id : N) (r : TagReply) : string :=
  match r with
  | TagResponse status_code error_details =>
      "Failed to tag note " +:+ PyStr.str_of_N new_note_id +:+
      " via direct API call. Status: " +:+ PyStr.str_of_N status_code +:+
      ", Response: " +:+ error_details
  | TagNetworkError e =>
      "Network error while trying to tag note " +:+
      PyStr.str_of_N new_note_id +:+ " via direct API call: " +:+ e
  | TagUnexpected e =>
      "Unexpected error while trying to tag note " +:+
      PyStr.str_of_N new_note_id +:+ " via direct API call: " +:+ e
  end.

(** The warning recorded for an owner email without entry in the
    assignment table. *)
Definition unmapped_owner_warning (owner_email : string) : string :=
  "Warning: Owner email '" +:+ owner_email +:+
  "' not found in map. Person column will not be updated.".

(* ===================================================================== *)
(** ** More sample data *)
(* ===================================================================== *)

Module MoreSamples.

Definition two_groups_map : gmap string string :=
  {[ "g1" := "PL8"; "g2" := "FP7" ]}.

(** The request for the first group fails, the second group has an
    available item; the note is created and tagged. *)
Definition first_group_fails : Remote :=
  mkRemote (Some "asoni@dxo.com", None) (Some Samples.one_group, None)
    (fun i => match i with
              | O => PageError "timeout"
              | S _ => PageLast [Samples.item_with_status "2" "CODE2" "Not used"]
              end)
    (NoteCreated (Some 55%N)) (TagResponse 200 EmptyString)
    (fun _ => MutOk) (fun _ => MutOk).

(** The wizard at step 2 with the group PL8 ticked. *)
Definition at_step2 : Session :=
  mkSession 2 "123" (Some "asoni@dxo.com") None Samples.one_group ["PL8"]
    false None None.

(** No key in the environment; the file holds two keys, the first one
    between double quotes and blanks. *)
Definition file_only : Keys.Env :=
  Keys.mkEnv None None
    (Keys.Parsed
       (Keys.CfgValue (" " +:+ String Keys.quote ("abc" +:+ String Keys.quote " ")))
       (Keys.CfgValue "k2")).

(** An item with the status text "Not used" whose MAC link has no text
    and a value that parses to a JSON list. *)
Definition unreadable_item : Item :=
  mkItem (Some "3") (Some "CODE3")
    (Some [Samples.status_cv "Not used";
           CvDict (mkCv (Some MAC_LINK_COLUMN_ID) None (Some JsonNotObject))]).

(** One group whose only item is that one. *)
Definition unreadable_link : Remote :=
  mkRemote (Some "asoni@dxo.com", None) (Some Samples.one_group, None)
    (fun _ => PageLast [unreadable_item])
    (NoteCreated (Some 55%N)) (TagResponse 200 EmptyString)
    (fun _ => MutOk) (fun _ => MutOk).

(** Two groups: the first has, over two pages, two available items and,
    newest, a used one; the second has no available item. *)
Definition second_group_empty : Remote :=
  mkRemote (Some "asoni@dxo.com", None) (Some Samples.one_group, None)
    (fun i => match i with
              | O => PageMore [Samples.item_with_status "1" "CODE1" "Not used"] "c1"
                       (PageLast [Samples.item_with_status "2" "CODE2" "Not used";
                                  Samples.item_with_status "3" "CODE3" "Used"])
              | S _ => PageLast [Samples.item_with_status "4" "CODE4" "Used"]
              end)
    (NoteCreated (Some 55%N)) (TagResponse 200 EmptyString)
    (fun _ => MutOk) (fun _ => MutOk).

Definition second_group_empty_items (i : nat) : list Item :=
  match i with
  | O => [Samples.item_with_status "1" "CODE1" "Not used";
          Samples.item_with_status "2" "CODE2" "Not used";
          Samples.item_with_status "3" "CODE3" "Used"]
  | S _ => [Samples.item_with_status "4" "CODE4" "Used"]
  end.

End MoreSamples.

(** A prefix of the table as the display-name loop needs it: non-empty,
    upper case, and mapped to a non-empty base name. *)
Definition good_prefix (prefix : string) : Prop :=
  prefix <> EmptyString /\ Token.all_upper prefix = true /\
  exists base, BASE_PRODUCT_MAPPING !! prefix = Some base /\
               PyStr.truthy base = true /\ In base base_names.

(* ===================================================================== *)
(** * Properties *)
(* ===================================================================== *)

(** ** The priority sort *)

Section SortFacts.
Context {A : Type} (key : A -> nat).

Lemma insert_by_perm (x : A) (l : list A) :
  Permutation (insert_by key x l) (x :: l).
Proof.
  induction l as [|y l IH]; simpl.
  - reflexivity.
  - destruct (key x <=? key y)%nat.
    + reflexivity.
    + rewrite IH. apply perm_swap.
Qed.

Lemma py_sort_perm (l : list A) : Permutation (py_sort key l) l.
Proof.
  induction l as [|x l IH]; simpl.
  - reflexivity.
  - rewrite insert_by_perm. now constructor.
Qed.

Lemma insert_by_sorted (x : A) (l : list A) :
  key_sorted key l -> key_sorted key (insert_by key x l).
Proof.
  induction l as [|y l IH]; simpl.
  - intros _. split; [intros ? []|exact I].
  - intros [Hy Hl].
    destruct (key x <=? key y)%nat eqn:E.
    + apply Nat.leb_le in E. simpl. split.
      * intros z [<-|Hz]; [exact E|]. specialize (Hy z Hz). lia.
      * split; assumption.
    + apply Nat.leb_gt in E. simpl. split.
      * intros z Hz.
        apply (Permutation_in _ (insert_by_perm x l)) in Hz.
        destruct Hz as [<-|Hz]; [lia|auto].
      * auto.
Qed.

Lemma py_sort_sorted (l : list A) : key_sorted key (py_sort key l).
Proof.
  induction l as [|x l IH]; simpl.
  - exact I.
  - now apply insert_by_sorted.
Qed.

(** Inserting [x] puts it in front of every item of the same key. *)
Lemma with_key_insert_by (k : nat) (x : A) (l : list A) :
  with_key key k (insert_by key x l) = with_key key k (x :: l).
Proof.
  unfold with_key.
  induction l as [|y l IH]; simpl.
  - reflexivity.
  - destruct (key x <=? key y)%nat eqn:E; simpl.
    + reflexivity.
    + apply Nat.leb_gt in E. rewrite IH. simpl.
      destruct (key x =? k)%nat eqn:Ex, (key y =? k)%nat eqn:Ey;
        try reflexivity.
      apply Nat.eqb_eq in Ex, Ey. lia.
Qed.

Lemma py_sort_stable (k : nat) (l : list A) :
  with_key key k (py_sort key l) = with_key key k l.
Proof.
  induction l as [|x l IH]; simpl.
  - reflexivity.
  - rewrite with_key_insert_by. unfold with_key in *. simpl.
    now rewrite IH.
Qed.

Lemma with_key_head (x : A) (l : list A) :
  with_key key (key x) (x :: l) = x :: with_key key (key x) l.
Proof. unfold with_key. simpl. now rewrite Nat.eqb_refl. Qed.

Lemma with_key_In (k : nat) (x : A) (l : list A) :
  In x (with_key key k l) <-> In x l /\ key x = k.
Proof.
  unfold with_key. rewrite List.filter_In.
  now rewrite Nat.eqb_eq.
Qed.

(** Two key-sorted lists that hold, for every key, the same items in the
    same order are equal: a stable sort has one possible result. *)
Lemma key_sorted_unique (l1 l2 : list A) :
  key_sorted key l1 -> key_sorted key l2 ->
  (forall k, with_key key k l1 = with_key key k l2) ->
  l1 = l2.
Proof.
  revert l2. induction l1 as [|x l1 IH]; intros l2 S1 S2 H.
  - destruct l2 as [|y l2]; [reflexivity|].
    specialize (H (key y)). rewrite with_key_head in H. discriminate.
  - destruct l2 as [|y l2].
    + specialize (H (key x)). rewrite with_key_head in H. discriminate.
    + destruct S1 as [Hx S1], S2 as [Hy S2].
      assert (Exy : key x = key y).
      { assert (Hxin : In x (y :: l2)).
        { apply (with_key_In (key x)). rewrite <- H, with_key_head.
          now left. }
        assert (Hyin : In y (x :: l1)).
        { apply (with_key_In (key y)). rewrite H, with_key_head.
          now left. }
        destruct Hxin as [->|Hxin]; [reflexivity|].
        destruct Hyin as [->|Hyin]; [reflexivity|].
        specialize (Hx _ Hyin). specialize (Hy _ Hxin). lia. }
      assert (Hk := H (key x)).
      rewrite with_key_head in Hk. rewrite Exy in Hk at 2.
      rewrite with_key_head in Hk. rewrite <- Exy in Hk.
      injection Hk as <- Hk. f_equal.
      apply IH; [assumption..|].
      intros k. specialize (H k). unfold with_key in *. simpl in H.
      destruct (key x =? k)%nat; [now injection H|exact H].
Qed.

(** Any sort that is ascending in the key and stable agrees with the model. *)
Lemma stable_sort_is_py_sort (l l' : list A) :
  key_sorted key l' ->
  (forall k, with_key key k l' = with_key key k l) ->
  l' = py_sort key l.
Proof.
  intros S H. apply key_sorted_unique; [assumption|apply py_sort_sorted|].
  intros k. now rewrite H, py_sort_stable.
Qed.
End SortFacts.

Lemma sort_found_is_py_sort (l : list ItemDetail) :
  sort_found l = py_sort get_sort_key l.
Proof. destruct l; reflexivity. Qed.

Lemma sort_found_perm (l : list ItemDetail) : Permutation (sort_found l) l.
Proof. rewrite sort_found_is_py_sort. apply py_sort_perm. Qed.

Lemma sort_found_sorted (l : list ItemDetail) :
  key_sorted get_sort_key (sort_found l).
Proof. rewrite sort_found_is_py_sort. apply py_sort_sorted. Qed.

Lemma sort_found_length (l : list ItemDetail) :
  length (sort_found l) = length l.
Proof. apply Permutation_length, sort_found_perm. Qed.

Lemma sort_found_nil (l : list ItemDetail) : sort_found l = [] <-> l = [].
Proof.
  split.
  - intros H. apply Permutation_nil. rewrite <- H. apply sort_found_perm.
  - now intros ->.
Qed.

(** C7. The priority sort of the found items is stable: for every list of
    found item details and every sort key, the items that have this key appear
    in the sorted list in the order in which they were appended to the list. *)
Theorem sort_found_stable (items_found_details : list ItemDetail) (k : nat) :
  with_key get_sort_key k (sort_found items_found_details) =
  with_key get_sort_key k items_found_details.
Proof. rewrite sort_found_is_py_sort. apply py_sort_stable. Qed.

(** ** Strings *)

Module StrFacts.
Import PyStr.

Lemma app_nil_l (s : string) : EmptyString +:+ s = s.
Proof. reflexivity. Qed.

Lemma app_cons (c : ascii) (s t : string) :
  String c s +:+ t = String c (s +:+ t).
Proof. reflexivity. Qed.

Lemma app_nil_r (s : string) : s +:+ EmptyString = s.
Proof.
  induction s as [|c s IH]; [reflexivity|]. now rewrite app_cons, IH.
Qed.

Lemma app_assoc (a b c : string) : (a +:+ b) +:+ c = a +:+ (b +:+ c).
Proof.
  induction a as [|x a IH]; [reflexivity|]. now rewrite !app_cons, IH.
Qed.

Lemma substring_refl (s : string) : substring s s.
Proof.
  exists EmptyString, EmptyString. now rewrite app_nil_l, app_nil_r.
Qed.

Lemma substring_app_l (sub a b : string) :
  substring sub a -> substring sub (a +:+ b).
Proof.
  intros (pre & post & ->). exists pre, (post +:+ b).
  now rewrite !app_assoc.
Qed.

Lemma substring_app_r (sub a b : string) :
  substring sub b -> substring sub (a +:+ b).
Proof.
  intros (pre & post & ->). exists (a +:+ pre), post.
  now rewrite !app_assoc.
Qed.

Lemma split_from_nonempty (cur s : string) : split_from cur s <> [].
Proof.
  revert cur. induction s as [|c s IH]; intros cur; simpl.
  - discriminate.
  - destruct (Ascii.eqb c " "); [discriminate|apply IH].
Qed.

Lemma join_cons (sep p : string) (l : list string) :
  l <> [] -> join sep (p :: l) = p +:+ sep +:+ join sep l.
Proof. destruct l; [congruence|reflexivity]. Qed.

(** Joining the parts of a split with the separator gives the string back. *)
Lemma join_split_from (cur s : string) :
  join " " (split_from cur s) = cur +:+ s.
Proof.
  revert cur. induction s as [|c s IH]; intros cur; simpl.
  - now rewrite app_nil_r.
  - destruct (Ascii.eqb c " ") eqn:E.
    + apply Ascii.eqb_eq in E. subst c.
      rewrite join_cons by apply split_from_nonempty.
      rewrite IH. reflexivity.
    + rewrite IH, app_assoc. reflexivity.
Qed.

Lemma join_split_space (s : string) : join " " (split_space s) = s.
Proof. apply join_split_from. Qed.

Lemma contains_cons_false (c : ascii) (s : string) :
  contains " " (String c s) = false ->
  Ascii.eqb c " " = false /\ contains " " s = false.
Proof.
  simpl. intros H. apply orb_false_iff in H. destruct H as [H1 H2].
  split; [|exact H2].
  destruct (Ascii.eqb c " ") eqn:E; [|reflexivity].
  apply Ascii.eqb_eq in E. subst c. destruct s; discriminate.
Qed.

Lemma contains_app_char (cur : string) (c : ascii) :
  contains " " cur = false -> Ascii.eqb c " " = false ->
  contains " " (cur +:+ String c EmptyString) = false.
Proof.
  intros Hc Hn. induction cur as [|x cur IH].
  - simpl. destruct (Ascii.ascii_dec c " ") as [->|Hne]; [discriminate|].
    destruct c as [[] [] [] [] [] [] [] []]; try reflexivity.
    now contradiction Hne.
  - apply contains_cons_false in Hc. destruct Hc as [Hx Hc].
    specialize (IH Hc). simpl in *. rewrite IH.
    destruct (Ascii.ascii_dec x " ") as [->|Hne]; [discriminate|].
    destruct (cur +:+ String c EmptyString);
      destruct x as [[] [] [] [] [] [] [] []]; try reflexivity;
      now contradiction Hne.
Qed.

(** The first part of a split is the text before the first space. *)
Lemma split_from_head (cur s : string) :
  contains " " cur = false ->
  exists w tl, split_from cur s = w :: tl /\ contains " " w = false /\
    (cur +:+ s = w \/ exists rest, cur +:+ s = w +:+ " " +:+ rest).
Proof.
  revert cur. induction s as [|c s IH]; intros cur Hc; simpl.
  - exists cur, []. rewrite app_nil_r. auto.
  - destruct (Ascii.eqb c " ") eqn:E.
    + apply Ascii.eqb_eq in E. subst c.
      exists cur, (split_from EmptyString s). repeat split; auto.
      right. exists s. reflexivity.
    + destruct (IH (cur +:+ String c EmptyString)) as (w & tl & H1 & H2 & H3).
      { now apply contains_app_char. }
      exists w, tl. rewrite app_assoc in H3. auto.
Qed.

Lemma first_word_spec (base_name : string) :
  contains " " (first_word base_name) = false /\
  (base_name = first_word base_name \/
   exists rest, base_name = first_word base_name +:+ " " +:+ rest).
Proof.
  unfold first_word, split_space.
  destruct (split_from_head EmptyString base_name eq_refl)
    as (w & tl & -> & H2 & H3).
  simpl in H3. auto.
Qed.
End StrFacts.

(** ** get_sort_key *)

(** The collected parts are the longest run of leading parts none of which
    is purely numeric. *)
Lemma base_name_parts_spec (parts : list string) :
  exists rest,
    parts = base_name_parts parts ++ rest /\
    Forall (fun w => PyStr.isdigit w = false) (base_name_parts parts) /\
    (rest = [] \/ exists t r, rest = t :: r /\ PyStr.isdigit t = true).
Proof.
  induction parts as [|p parts (rest & H1 & H2 & H3)]; simpl.
  - exists []. auto.
  - destruct (PyStr.isdigit p) eqn:E.
    + exists (p :: parts). repeat split; [constructor|]. right. eauto.
    + exists rest. repeat split.
      * simpl. f_equal. exact H1.
      * now constructor.
      * exact H3.
Qed.

(** Every entry of the priority table is below the default priority. *)
Lemma priority_below_default (name : string) (p : nat) :
  PRODUCT_ORDER_PRIORITY !! name = Some p -> p < DEFAULT_PRIORITY.
Proof.
  unfold PRODUCT_ORDER_PRIORITY, DEFAULT_PRIORITY. intros H.
  repeat (apply lookup_insert_Some in H; destruct H as [[_ <-]|[_ H]]; [lia|]).
  apply lookup_singleton_Some in H. destruct H as [_ <-]. lia.
Qed.

Lemma sort_key_le_default (name : string) :
  sort_key_of_name name <= DEFAULT_PRIORITY.
Proof.
  unfold sort_key_of_name.
  destruct (PRODUCT_ORDER_PRIORITY !! base_name_of name) eqn:E.
  - apply priority_below_default in E. lia.
  - destruct (PyStr.contains " " (base_name_of name)); [|lia].
    destruct (PRODUCT_ORDER_PRIORITY !! first_word (base_name_of name)) eqn:E2;
      [|lia].
    apply priority_below_default in E2. lia.
Qed.

(** C8. For every display name, the parts of the name split at single spaces
    are a run of parts none of which is purely numeric, followed by nothing or
    by a purely numeric part; the base name is that run joined by spaces. The
    key is the table entry of the base name when there is one; otherwise, when
    the base name contains a space, the table entry of its first word (the
    text before its first space) when there is one; otherwise the default 99,
    which is above every table entry and is the largest key. *)
Theorem get_sort_key_spec (item_detail : ItemDetail) :
  let name := d_product item_detail in
  exists run rest,
    PyStr.split_space name = run ++ rest /\
    PyStr.join " " (PyStr.split_space name) = name /\
    Forall (fun w => PyStr.isdigit w = false) run /\
    (rest = [] \/ exists t r, rest = t :: r /\ PyStr.isdigit t = true) /\
    let base_name := PyStr.join " " run in
    get_sort_key item_detail =
      match PRODUCT_ORDER_PRIORITY !! base_name with
      | Some p => p
      | None =>
          if PyStr.contains " " base_name then
            match PRODUCT_ORDER_PRIORITY !! first_word base_name with
            | Some p => p
            | None => DEFAULT_PRIORITY
            end
          else DEFAULT_PRIORITY
      end /\
    PyStr.contains " " (first_word base_name) = false /\
    (base_name = first_word base_name \/
     exists tl, base_name = first_word base_name +:+ " " +:+ tl) /\
    DEFAULT_PRIORITY = 99 /\
    (forall n p, PRODUCT_ORDER_PRIORITY !! n = Some p -> p < DEFAULT_PRIORITY) /\
    get_sort_key item_detail <= DEFAULT_PRIORITY.
Proof.
  intros name.
  destruct (base_name_parts_spec (PyStr.split_space name))
    as (rest & H1 & H2 & H3).
  exists (base_name_parts (PyStr.split_space name)), rest.
  split; [exact H1|]. split; [apply StrFacts.join_split_space|].
  split; [exact H2|]. split; [exact H3|].
  cbv zeta. fold (base_name_of name).
  split.
  { unfold get_sort_key, sort_key_of_name. fold name.
    destruct (PRODUCT_ORDER_PRIORITY !! base_name_of name); [reflexivity|].
    destruct (PyStr.contains " " (base_name_of name)); reflexivity. }
  destruct (StrFacts.first_word_spec (base_name_of name)) as [F1 F2].
  split; [exact F1|]. split; [exact F2|]. split; [reflexivity|].
  split; [exact priority_below_default|].
  apply sort_key_le_default.
Qed.

(** ** The pattern: what a match is *)

Module RegexFacts.
Import PyStr Regex Token StrFacts.

Lemma forall_ascii (P : ascii -> bool) :
  forallb P all_ascii = true -> forall c, P c = true.
Proof.
  intros H c. rewrite forallb_forall in H. apply H.
  rewrite <- (ascii_nat_embedding c). apply in_map, in_seq.
  pose proof (nat_ascii_bounded c). lia.
Qed.

Lemma digit_facts (c : ascii) :
  is_digit c = true ->
  is_word c = true /\ is_space c = false /\ Ascii.eqb c "-" = false.
Proof.
  intros H.
  pose proof (forall_ascii
    (fun c => implb (is_digit c)
                (is_word c && negb (is_space c) && negb (Ascii.eqb c "-")))
    ltac:(vm_compute; reflexivity) c) as F.
  cbv beta in F. rewrite H in F. simpl in F.
  apply andb_prop in F. destruct F as [F F3].
  apply andb_prop in F. destruct F as [F1 F2].
  apply negb_true_iff in F2, F3. auto.
Qed.

Lemma ci_facts (p c : ascii) :
  is_upper p = true -> ci_eq p c = true ->
  is_word c = true /\ upper c = p.
Proof.
  intros Hp Hc.
  pose proof (forall_ascii
    (fun p => forallb (fun c =>
       implb (is_upper p && ci_eq p c)
             (is_word c && Ascii.eqb (upper c) p)) all_ascii)
    ltac:(vm_compute; reflexivity) p) as F.
  cbv beta in F. rewrite forallb_forall in F.
  assert (Hin : In c all_ascii).
  { rewrite <- (ascii_nat_embedding c). apply in_map, in_seq.
    pose proof (nat_ascii_bounded c). lia. }
  specialize (F c Hin). rewrite Hp, Hc in F. simpl in F.
  apply andb_prop in F. destruct F as [F1 F2].
  apply Ascii.eqb_eq in F2. auto.
Qed.

Lemma nonword_head_not_digit (post : string) :
  is_word_opt (head post) = false -> digits_b post = None.
Proof.
  destruct post as [|x post]; simpl; [reflexivity|].
  intros H. destruct (is_digit x) eqn:E; [|reflexivity].
  apply digit_facts in E. destruct E as [E _]. congruence.
Qed.

(** [(\d+)\b] reads exactly a maximal run of digits that ends at a word
    boundary. *)
Lemma digits_b_complete (v post : string) :
  v <> EmptyString -> all_digits v = true ->
  is_word_opt (head post) = false ->
  digits_b (v +:+ post) = Some v.
Proof.
  intros Hne Hd Hp. induction v as [|c v IH]; [congruence|].
  simpl in Hd. apply andb_prop in Hd. destruct Hd as [Hc Hd].
  rewrite app_cons. simpl. rewrite Hc.
  destruct v as [|c' v].
  - rewrite app_nil_l, (nonword_head_not_digit _ Hp).
    unfold word_boundary. simpl.
    destruct (digit_facts _ Hc) as [-> _]. now rewrite Hp.
  - rewrite IH by (congruence || assumption). reflexivity.
Qed.

Lemma digits_b_sound (s v : string) :
  digits_b s = Some v ->
  exists post, s = v +:+ post /\ v <> EmptyString /\
               all_digits v = true /\ is_word_opt (head post) = false.
Proof.
  revert v. induction s as [|c s IH]; intros v; simpl; [discriminate|].
  destruct (is_digit c) eqn:Hc; [|discriminate].
  destruct (digits_b s) as [ds|] eqn:E.
  - intros [= <-]. destruct (IH ds eq_refl) as (post & -> & _ & Hd & Hp).
    exists post. rewrite app_cons. simpl. rewrite Hc. auto.
  - unfold word_boundary. simpl.
    destruct (digit_facts _ Hc) as [-> _]. simpl.
    destruct (is_word_opt (head s)) eqn:Hw; [discriminate|].
    intros [= <-]. exists s. simpl. rewrite Hc. auto.
Qed.

Lemma dash_digits_digits (v post : string) :
  v <> EmptyString -> all_digits v = true ->
  is_word_opt (head post) = false ->
  dash_digits (v +:+ post) = Some v /\
  dash_digits (String "-" (v +:+ post)) = Some v.
Proof.
  intros Hne Hd Hp.
  pose proof (digits_b_complete v post Hne Hd Hp) as H.
  split.
  - destruct v as [|c v]; [congruence|].
    rewrite app_cons in *. unfold dash_digits.
    simpl in Hd. apply andb_prop in Hd. destruct Hd as [Hc _].
    destruct (digit_facts _ Hc) as (_ & _ & ->). exact H.
  - unfold dash_digits. rewrite Ascii.eqb_refl, H. reflexivity.
Qed.

Lemma sep_digits_complete (sep v post : string) :
  is_separator sep -> v <> EmptyString -> all_digits v = true ->
  is_word_opt (head post) = false ->
  sep_digits (sep +:+ v +:+ post) = Some v.
Proof.
  intros Hs Hne Hd Hp.
  destruct (dash_digits_digits v post Hne Hd Hp) as [D1 D2].
  destruct Hs as [-> | [-> | (c & Hc & [-> | ->])]].
  - rewrite app_nil_l. destruct v as [|d v]; [congruence|].
    rewrite app_cons in *. unfold sep_digits.
    simpl in Hd. apply andb_prop in Hd. destruct Hd as [Hdig _].
    destruct (digit_facts _ Hdig) as (_ & -> & _). exact D1.
  - rewrite app_cons, app_nil_l. unfold sep_digits.
    replace (is_space "-") with false by reflexivity. exact D2.
  - rewrite app_cons, app_nil_l. unfold sep_digits. now rewrite Hc, D1.
  - rewrite !app_cons, app_nil_l. unfold sep_digits. now rewrite Hc, D2.
Qed.

Lemma dash_digits_sound (s v : string) :
  dash_digits s = Some v ->
  exists sep post, s = sep +:+ v +:+ post /\
    (sep = EmptyString \/ sep = "-") /\ v <> EmptyString /\
    all_digits v = true /\ is_word_opt (head post) = false.
Proof.
  assert (plain : digits_b s = Some v ->
    exists sep post, s = sep +:+ v +:+ post /\
      (sep = EmptyString \/ sep = "-") /\ v <> EmptyString /\
      all_digits v = true /\ is_word_opt (head post) = false).
  { intros H. destruct (digits_b_sound _ _ H) as (post & -> & ?).
    exists EmptyString, post. rewrite app_nil_l. auto. }
  unfold dash_digits. destruct s as [|c s]; [exact plain|].
  destruct (Ascii.eqb c "-") eqn:E; [|exact plain].
  apply Ascii.eqb_eq in E. subst c.
  destruct (digits_b s) as [ds|] eqn:D; [|exact plain].
  intros [= <-]. destruct (digits_b_sound _ _ D) as (post & -> & ?).
  exists "-", post. rewrite app_cons, app_nil_l. auto.
Qed.

Lemma sep_digits_sound (s v : string) :
  sep_digits s = Some v ->
  exists sep post, s = sep +:+ v +:+ post /\ is_separator sep /\
    v <> EmptyString /\ all_digits v = true /\
    is_word_opt (head post) = false.
Proof.
  assert (plain : dash_digits s = Some v ->
    exists sep post, s = sep +:+ v +:+ post /\ is_separator sep /\
      v <> EmptyString /\ all_digits v = true /\
      is_word_opt (head post) = false).
  { intros H.
    destruct (dash_digits_sound _ _ H) as (sep & post & -> & Hs & ?).
    exists sep, post. split; [reflexivity|]. split; [|assumption].
    unfold is_separator. tauto. }
  unfold sep_digits. destruct s as [|c s]; [exact plain|].
  destruct (is_space c) eqn:E; [|exact plain].
  destruct (dash_digits s) as [ds|] eqn:D; [|exact plain].
  intros [= <-].
  destruct (dash_digits_sound _ _ D) as (sep & post & -> & Hs & ?).
  exists (String c sep), post. rewrite app_cons.
  split; [reflexivity|]. split; [|assumption].
  right. right. exists c. split; [exact E|].
  destruct Hs as [->| ->]; auto.
Qed.

Lemma match_ci_complete (prefix tok rest : string) :
  ci_string prefix tok = true ->
  match_ci prefix (tok +:+ rest) = Some (tok, rest).
Proof.
  revert tok. induction prefix as [|p prefix IH]; intros [|c tok] H;
    try discriminate.
  - reflexivity.
  - simpl in H. apply andb_prop in H. destruct H as [H1 H2].
    rewrite app_cons. simpl. now rewrite H1, (IH _ H2).
Qed.

Lemma match_ci_sound (prefix s g rest : string) :
  match_ci prefix s = Some (g, rest) ->
  s = g +:+ rest /\ ci_string prefix g = true.
Proof.
  revert s g. induction prefix as [|p prefix IH]; intros s g; simpl.
  - intros [= <- <-]. auto.
  - destruct s as [|c s]; [discriminate|].
    destruct (ci_eq p c) eqn:E; [|discriminate].
    destruct (match_ci prefix s) as [[g' r']|] eqn:M; [|discriminate].
    intros [= <- <-]. destruct (IH _ _ M) as [-> H].
    rewrite app_cons. simpl. now rewrite E, H.
Qed.

(** An upper-case prefix is recovered from its match by [.upper()]. *)
Lemma ci_string_upper (prefix tok : string) :
  all_upper prefix = true -> ci_string prefix tok = true ->
  str_upper tok = prefix.
Proof.
  revert tok. induction prefix as [|p prefix IH]; intros [|c tok] Hu H;
    try discriminate; [reflexivity|].
  simpl in *. apply andb_prop in Hu, H.
  destruct Hu as [Hp Hu], H as [Hc H].
  destruct (ci_facts _ _ Hp Hc) as [_ ->]. now rewrite (IH _ Hu H).
Qed.

Lemma ci_string_head_word (prefix tok rest : string) :
  prefix <> EmptyString -> all_upper prefix = true ->
  ci_string prefix tok = true ->
  is_word_opt (head (tok +:+ rest)) = true.
Proof.
  destruct prefix as [|p prefix]; [congruence|].
  destruct tok as [|c tok]; [discriminate|].
  simpl. intros _ Hu H. apply andb_prop in Hu, H.
  destruct Hu as [Hp _], H as [Hc _].
  now destruct (ci_facts _ _ Hp Hc) as [-> _].
Qed.
End RegexFacts.

Module SearchFacts.
Import PyStr Regex Token StrFacts RegexFacts.

Section Prefix.
Variable prefix : string.
Hypothesis prefix_nonempty : prefix <> EmptyString.
Hypothesis prefix_upper : all_upper prefix = true.

Lemma match_here_complete (before : option ascii) (tok sep v post : string) :
  is_word_opt before = false -> ci_string prefix tok = true ->
  is_separator sep -> v <> EmptyString -> all_digits v = true ->
  is_word_opt (head post) = false ->
  match_here prefix before (tok +:+ sep +:+ v +:+ post) = Some (tok, v).
Proof.
  intros Hb Ht Hs Hne Hd Hp. unfold match_here, word_boundary.
  rewrite Hb, (ci_string_head_word prefix tok _ prefix_nonempty prefix_upper Ht).
  simpl. rewrite (match_ci_complete _ _ _ Ht).
  now rewrite (sep_digits_complete _ _ _ Hs Hne Hd Hp).
Qed.

Lemma match_here_sound (before : option ascii) (s g v : string) :
  match_here prefix before s = Some (g, v) ->
  is_word_opt before = false /\
  exists sep post, s = g +:+ sep +:+ v +:+ post /\
    ci_string prefix g = true /\ is_separator sep /\
    v <> EmptyString /\ all_digits v = true /\
    is_word_opt (head post) = false.
Proof.
  unfold match_here.
  destruct (word_boundary before (head s)) eqn:B; [|discriminate].
  destruct (match_ci prefix s) as [[g1 rest]|] eqn:M; [|discriminate].
  destruct (sep_digits rest) as [g2|] eqn:D; [|discriminate].
  intros [= <- <-].
  destruct (match_ci_sound _ _ _ _ M) as [-> Hg].
  destruct (sep_digits_sound _ _ D) as (sep & post & -> & Hs & H).
  split.
  - unfold word_boundary in B.
    rewrite (ci_string_head_word prefix g1 _ prefix_nonempty prefix_upper Hg) in B.
    now destruct (is_word_opt before).
  - exists sep, post. auto.
Qed.

(** [re.search] finds a match as soon as the pattern matches somewhere. *)
Lemma search_from_complete (pre rest : string) (before : option ascii)
    (r : string * string) :
  match_here prefix (last_or before pre) rest = Some r ->
  exists r', search_from prefix before (pre +:+ rest) = Some r'.
Proof.
  revert before. induction pre as [|c pre IH]; intros before H.
  - rewrite app_nil_l. simpl in H. exists r.
    destruct rest; simpl; now rewrite H.
  - rewrite app_cons. simpl.
    destruct (match_here prefix before (String c (pre +:+ rest))) as [r'|].
    + now exists r'.
    + apply IH. exact H.
Qed.

Lemma search_from_sound (s : string) (before : option ascii)
    (r : string * string) :
  search_from prefix before s = Some r ->
  exists pre rest, s = pre +:+ rest /\
    match_here prefix (last_or before pre) rest = Some r.
Proof.
  revert before. induction s as [|c s IH]; intros before; simpl.
  - destruct (match_here prefix before EmptyString) eqn:M; [|discriminate].
    intros [= <-]. exists EmptyString, EmptyString. auto.
  - destruct (match_here prefix before (String c s)) eqn:M.
    + intros [= <-]. exists EmptyString, (String c s). auto.
    + intros H. destruct (IH _ H) as (pre & rest & -> & Hm).
      exists (String c pre), rest. rewrite app_cons. auto.
Qed.

(** A title that contains the token is matched by the pattern. *)
Lemma search_finds_token (title : string) :
  has_token prefix title -> exists g v, search prefix title = Some (g, v).
Proof.
  intros (v & pre & tok & sep & post & -> & Hb & Ht & Hs & Hne & Hd & Hp).
  destruct (search_from_complete pre (tok +:+ sep +:+ v +:+ post) None (tok, v))
    as [[g v'] H].
  - now apply match_here_complete.
  - now exists g, v'.
Qed.

(** What the pattern matches is an occurrence of the token; the digits
    are group 2 and the upper-cased group 1 is the prefix. *)
Lemma search_is_token (title g v : string) :
  search prefix title = Some (g, v) ->
  token_at prefix title v /\ str_upper g = prefix.
Proof.
  intros H. destruct (search_from_sound _ _ _ H) as (pre & rest & -> & Hm).
  destruct (match_here_sound _ _ _ _ Hm)
    as (Hb & sep & post & -> & Hg & Hs & Hne & Hd & Hp).
  split.
  - exists pre, g, sep, post. auto 10.
  - now apply ci_string_upper.
Qed.
End Prefix.
End SearchFacts.

(** ** get_product_display_name *)

Lemma display_name_first_match (prefix : string) (rest : list string)
    (title g v base_name : string) :
  Regex.search prefix title = Some (g, v) ->
  BASE_PRODUCT_MAPPING !! PyStr.str_upper g = Some base_name ->
  PyStr.truthy base_name = true ->
  display_name_loop (prefix :: rest) title = base_name +:+ " " +:+ v.
Proof. intros H1 H2 H3. simpl. now rewrite H1, H2, H3. Qed.

Lemma display_name_no_match (prefix : string) (rest : list string)
    (title : string) :
  Regex.search prefix title = None ->
  display_name_loop (prefix :: rest) title = display_name_loop rest title.
Proof. intros H. simpl. now rewrite H. Qed.

(** C3. The four titles of the table are mapped as expected. For every
    ASCII title that contains a DFP token as a whole word (in any case, with
    an optional white-space character and an optional hyphen before the
    digits), the display name is "FilmPack" followed by the version of a DFP
    token of the title, whatever FP tokens the title also contains; for every
    ASCII title that contains a DVP token, the display name comes from a DFP
    token or, when the title has none, is "ViewPoint" followed by the version
    of a DVP token, whatever VP tokens the title also contains. Titles are
    taken ASCII because the word boundary, the white space and the digits of
    [Token.token_at] are the ASCII ones, which is what the pattern means on
    such a title. *)
Theorem display_name_prefers_longer_token :
  (get_product_display_name "DFP-6" = "FilmPack 6" /\
   get_product_display_name "VP4" = "ViewPoint 4" /\
   get_product_display_name "NIK 7" = "Nik Collection 7" /\
   get_product_display_name "RandomGroup" = "RandomGroup") /\
  (forall title, isascii title = true -> Token.has_token "DFP" title ->
     exists v, Token.token_at "DFP" title v /\
               get_product_display_name title = "FilmPack " +:+ v) /\
  (forall title, isascii title = true -> Token.has_token "DVP" title ->
     exists v,
       (Token.token_at "DFP" title v /\
        get_product_display_name title = "FilmPack " +:+ v) \/
       (~ Token.has_token "DFP" title /\ Token.token_at "DVP" title v /\
        get_product_display_name title = "ViewPoint " +:+ v)).
Proof.
  assert (Hdfp : forall title g v, Regex.search "DFP" title = Some (g, v) ->
            Token.token_at "DFP" title v /\
            get_product_display_name title = "FilmPack " +:+ v).
  { intros title g v H.
    destruct (SearchFacts.search_is_token "DFP" ltac:(discriminate) eq_refl _ _ _ H)
      as [Ht Hu].
    split; [exact Ht|].
    unfold get_product_display_name, REGEX_PREFIX_ORDER.
    rewrite (display_name_first_match _ _ _ _ _ "FilmPack" H);
      [reflexivity|now rewrite Hu|reflexivity]. }
  split; [|split].
  - repeat split; vm_compute; reflexivity.
  - intros title _ Ht.
    destruct (SearchFacts.search_finds_token "DFP" ltac:(discriminate) eq_refl _ Ht)
      as (g & v & H).
    exists v. exact (Hdfp _ _ _ H).
  - intros title _ Ht.
    destruct (SearchFacts.search_finds_token "DVP" ltac:(discriminate) eq_refl _ Ht)
      as (g & v & H).
    destruct (Regex.search "DFP" title) as [[g' v']|] eqn:E.
    + exists v'. left. exact (Hdfp _ _ _ E).
    + exists v. right.
      destruct (SearchFacts.search_is_token "DVP" ltac:(discriminate) eq_refl _ _ _ H)
        as [Hv Hu].
      split; [|split; [exact Hv|]].
      * intros Hf.
        destruct (SearchFacts.search_finds_token "DFP" ltac:(discriminate) eq_refl _ Hf)
          as (? & ? & Hs).
        congruence.
      * unfold get_product_display_name, REGEX_PREFIX_ORDER.
        rewrite (display_name_no_match _ _ _ E).
        rewrite (display_name_first_match _ _ _ _ _ "ViewPoint" H);
          [reflexivity|now rewrite Hu|reflexivity].
Qed.

(** ** Scanning a group *)

Lemma scan_items_none (name : string) (rev_items : list Item) :
  Forall item_has_keys rev_items ->
  (forall item, In item rev_items ->
     item_status item <> Some STATUS_LABEL_NOT_USED) ->
  scan_items name rev_items = ScanNone.
Proof.
  induction 1 as [|item l [Hid Hname] _ IH]; intros Hs; simpl.
  - reflexivity.
  - destruct (item_id item) as [iid|]; [|congruence].
    destruct (item_name item) as [code|]; [|congruence].
    pose proof (Hs item (or_introl eq_refl)) as Hi. unfold item_status in Hi.
    destruct (item_columns item) as [st|].
    + destruct (decide (status_val st = Some STATUS_LABEL_NOT_USED));
        [congruence|].
      apply IH. intros ? ?. apply Hs. now right.
    + apply IH. intros ? ?. apply Hs. now right.
Qed.

Lemma scan_items_no_raise (name : string) (rev_items : list Item) (e : string) :
  Forall item_has_keys rev_items -> scan_items name rev_items <> ScanRaise e.
Proof.
  induction 1 as [|item l [Hid Hname] _ IH]; simpl.
  - discriminate.
  - destruct (item_id item); [|congruence].
    destruct (item_name item); [|congruence].
    destruct (item_columns item) as [st|]; [|exact IH].
    destruct (decide (status_val st = Some STATUS_LABEL_NOT_USED));
      [discriminate|exact IH].
Qed.

(** The item a scan takes is the last one of the group, in fetch order,
    whose status text is the sentinel. *)
Lemma scan_items_found (name : string) (rev_items : list Item) (d : ItemDetail) :
  scan_items name rev_items = ScanFound d ->
  exists newer item older,
    rev_items = newer ++ item :: older /\
    item_status item = Some STATUS_LABEL_NOT_USED /\
    item_id item = Some (d_item_id d) /\ item_name item = Some (d_code d) /\
    d_product d = name /\
    forall n, In n newer -> item_status n <> Some STATUS_LABEL_NOT_USED.
Proof.
  induction rev_items as [|item l IH]; simpl; [discriminate|].
  destruct (item_id item) as [iid|] eqn:Hid; [|discriminate].
  destruct (item_name item) as [code|] eqn:Hname; [|discriminate].
  assert (skip : item_status item <> Some STATUS_LABEL_NOT_USED ->
    scan_items name l = ScanFound d ->
    exists newer item0 older,
      item :: l = newer ++ item0 :: older /\
      item_status item0 = Some STATUS_LABEL_NOT_USED /\
      item_id item0 = Some (d_item_id d) /\ item_name item0 = Some (d_code d) /\
      d_product d = name /\
      forall n, In n newer -> item_status n <> Some STATUS_LABEL_NOT_USED).
  { intros Hn H. destruct (IH H) as (newer & it & older & -> & H1 & H2 & H3 & H4 & H5).
    exists (item :: newer), it, older. repeat split; auto.
    intros n [<-|Hin]; auto. }
  destruct (item_columns item) as [st|] eqn:Hc.
  - destruct (decide (status_val st = Some STATUS_LABEL_NOT_USED)) as [Hs|Hs].
    + intros [= <-]. exists [], item, l. simpl.
      unfold item_status. rewrite Hc. repeat split; auto; intros ? [].
    + apply skip. unfold item_status. now rewrite Hc.
  - apply skip. unfold item_status. now rewrite Hc.
Qed.

(** A group without an item of sentinel status yields nothing. *)
Lemma group_item_none
    (fetch : string -> PageReply -> (string + list Item) * list Call)
    (group_map : gmap string string) (reply : PageReply) (group_id : string)
    (items : list Item) (calls : list Call) :
  fetch group_id reply = (inr items, calls) ->
  Forall item_has_keys items ->
  (forall item, In item items ->
     item_status item <> Some STATUS_LABEL_NOT_USED) ->
  group_item fetch group_map reply group_id = None.
Proof.
  intros Hf Hk Hs. unfold group_item, scan_group. rewrite Hf.
  rewrite scan_items_none; [reflexivity| |].
  - now apply List.Forall_rev.
  - intros x Hx. apply in_rev in Hx. auto.
Qed.

(** One round of the group loop when the fetch succeeds: the yielded item,
    if any, is appended and no error is recorded. *)
Lemma find_in_group_ok
    (fetch : string -> PageReply -> (string + list Item) * list Call)
    (group_map : gmap string string) (reply : PageReply) (group_id : string)
    (st : FindState) :
  fetch_succeeds fetch group_id reply ->
  items_found_details (find_in_group fetch group_map reply group_id st) =
    items_found_details st ++
    option_list (group_item fetch group_map reply group_id) /\
  global_error (find_in_group fetch group_map reply group_id st) =
    global_error st.
Proof.
  intros (items & calls & Hf & Hk). unfold find_in_group, group_item.
  rewrite Hf.
  destruct (scan_group _ items) as [d| |e] eqn:E; simpl.
  - auto.
  - now rewrite app_nil_r.
  - exfalso. unfold scan_group in E. revert E. apply scan_items_no_raise.
    now apply List.Forall_rev.
Qed.

Lemma find_loop_ok
    (fetch : string -> PageReply -> (string + list Item) * list Call)
    (replies : nat -> PageReply) (group_map : gmap string string)
    (group_ids : list string) (i : nat) (st : FindState) :
  (forall j group_id, group_ids !! j = Some group_id ->
     fetch_succeeds fetch group_id (replies (i + j))) ->
  items_found_details (find_loop fetch replies group_map i group_ids st) =
    items_found_details st ++ yielded_items fetch replies group_map i group_ids /\
  global_error (find_loop fetch replies group_map i group_ids st) =
    global_error st.
Proof.
  revert i st. induction group_ids as [|g rest IH]; intros i st H; simpl.
  - now rewrite app_nil_r.
  - destruct (find_in_group_ok fetch group_map (replies i) g st) as [F1 F2].
    { specialize (H 0 g eq_refl). now rewrite Nat.add_0_r in H. }
    destruct (IH (S i) (find_in_group fetch group_map (replies i) g st))
      as [L1 L2].
    { intros j gid Hj. specialize (H (S j) gid Hj).
      now replace (S i + j) with (i + S j) by lia. }
    rewrite L1, L2, F1, F2. now rewrite <- app_assoc.
Qed.

Lemma yielded_items_nil
    (fetch : string -> PageReply -> (string + list Item) * list Call)
    (replies : nat -> PageReply) (group_map : gmap string string)
    (group_ids : list string) (i : nat) :
  yielded_items fetch replies group_map i group_ids = [] <->
  forall j group_id, group_ids !! j = Some group_id ->
    group_item fetch group_map (replies (i + j)) group_id = None.
Proof.
  revert i. induction group_ids as [|g rest IH]; intros i; simpl.
  - split; [intros _ j gid Hj; discriminate|reflexivity].
  - split.
    + intros H. apply app_eq_nil in H. destruct H as [H1 H2].
      intros [|j] gid Hj; simpl in Hj.
      * injection Hj as <-. rewrite Nat.add_0_r.
        destruct (group_item _ _ _ _); [discriminate|reflexivity].
      * replace (i + S j) with (S i + j) by lia. now apply (IH (S i)).
    + intros H. rewrite (proj2 (IH (S i))).
      * pose proof (H 0 g eq_refl) as H0. rewrite Nat.add_0_r in H0.
        now rewrite H0.
      * intros j gid Hj. specialize (H (S j) gid Hj).
        now replace (S i + j) with (i + S j) by lia.
Qed.

(** ** The run of Monday-CRM.py *)

Module RunFacts.
Import MondayCRM.

(** When the [try] block of step 3 ends without an exception, the note has
    been created and [zendesk_success] is set. *)
Lemma write_note_success (remote : Remote) (deal_id content : string)
    (ns : NoteState) (calls : list Call) :
  write_note remote deal_id content = (inr ns, calls) ->
  zendesk_success ns = true /\ exists rid, note_reply remote = NoteCreated rid.
Proof.
  unfold write_note. destruct (note_reply remote) as [e|rid]; [discriminate|].
  cbn [andb]. destruct (truthy_N rid).
  - intros [= <- _]. split; [|now exists rid].
    unfold tag_note. destruct (tag_reply remote) as [code det|e|e];
      [destruct (code =? 200)%N|..]; reflexivity.
  - intros [= <- _]. split; [reflexivity|now exists rid].
Qed.

Lemma write_note_raise (remote : Remote) (deal_id content e : string)
    (calls : list Call) :
  write_note remote deal_id content = (inl e, calls) ->
  note_reply remote = NoteRaise e.
Proof.
  unfold write_note. destruct (note_reply remote) as [e'|rid].
  - now intros [= <- _].
  - cbn [andb]. destruct (truthy_N rid); discriminate.
Qed.

Lemma write_note_created (remote : Remote) (deal_id content : string)
    (rid : option N) :
  note_reply remote = NoteCreated rid ->
  exists ns calls, write_note remote deal_id content = (inr ns, calls).
Proof.
  intros H. unfold write_note. rewrite H. cbn [andb].
  destruct (truthy_N rid); eauto.
Qed.

Section Run.
Variables (remote : Remote) (deal_id : string) (group_ids : list string)
  (group_map : gmap string string) (owner_email : option string)
  (monday_user_id_to_assign : option N).

Local Abbreviation found :=
  (find_items fetch_all_pages (items_reply remote) group_map group_ids).
Local Abbreviation items := (sort_found (items_found_details found)).
Local Abbreviation content := (zendesk_note_content (map note_entry items)).
Local Abbreviation run :=
  (process_activation_request remote deal_id group_ids group_map
     owner_email monday_user_id_to_assign).

(** No item found: the run ends at the first [return]. *)
Lemma run_no_items :
  items_found_details found = [] ->
  run = (Return AtNoItems false
           (or_else (global_error found) (no_codes_message deal_id)),
         find_calls found).
Proof.
  intros H. unfold process_activation_request. rewrite H. reflexivity.
Qed.

(** Items found and the note block raises: the run ends in the handler. *)
Lemma run_note_error (e : string) :
  items_found_details found <> [] ->
  note_reply remote = NoteRaise e ->
  run = (Return AtNoteError false
           (or_else (global_error found)
              ("Failed to write note to Zendesk Deal ID " +:+ deal_id +:+
               ": " +:+ e)),
         find_calls found ++ [CallCreateNote deal_id content]).
Proof.
  intros Hne Hn. unfold process_activation_request.
  destruct items as [|d l] eqn:E.
  { apply (proj1 (sort_found_nil _)) in E. contradiction. }
  unfold write_note. rewrite Hn. reflexivity.
Qed.

(** Items found and the note created: the run ends with the summary and
    the flag [True]. *)
Lemma run_summary (rid : option N) :
  items_found_details found <> [] ->
  note_reply remote = NoteCreated rid ->
  exists ns ncalls,
    write_note remote deal_id content = (inr ns, ncalls) /\
    run = (Return AtSummary true
             (final_message_of
                (success_parts_of deal_id owner_email ns
                   (update_items remote monday_user_id_to_assign items))
                (failure_parts_of (length items)
                   (owner_warning_of owner_email monday_user_id_to_assign) ns
                   (update_items remote monday_user_id_to_assign items))),
           find_calls found ++ ncalls ++
           update_calls (update_items remote monday_user_id_to_assign items)).
Proof.
  intros Hne Hn.
  destruct (write_note_created remote deal_id content rid Hn)
    as (ns & ncalls & Hw).
  exists ns, ncalls. split; [exact Hw|].
  destruct (write_note_success _ _ _ _ _ Hw) as [Hz _].
  unfold process_activation_request. revert Hw.
  destruct items as [|d l] eqn:E.
  { apply (proj1 (sort_found_nil _)) in E. contradiction. }
  intros Hw. rewrite Hw, Hz. reflexivity.
Qed.

(** Every run ends in one of these three ways. *)
Lemma run_cases :
  (items_found_details found = [] /\
   run.1 = Return AtNoItems false
             (or_else (global_error found) (no_codes_message deal_id))) \/
  (items_found_details found <> [] /\
   exists e, note_reply remote = NoteRaise e /\
     run.1 = Return AtNoteError false
               (or_else (global_error found)
                  ("Failed to write note to Zendesk Deal ID " +:+ deal_id +:+
                   ": " +:+ e))) \/
  (items_found_details found <> [] /\
   exists rid m, note_reply remote = NoteCreated rid /\
     run.1 = Return AtSummary true m).
Proof.
  destruct (items_found_details found) as [|d l] eqn:E.
  - left. split; [reflexivity|]. now rewrite run_no_items by exact E.
  - right. assert (Hne : items_found_details found <> []) by congruence.
    destruct (note_reply remote) as [e|rid] eqn:Hn.
    + left. split; [congruence|]. exists e. split; [reflexivity|].
      now rewrite (run_note_error e Hne Hn).
    + right. split; [congruence|].
      destruct (run_summary rid Hne Hn) as (ns & ncalls & _ & ->).
      eauto.
Qed.
End Run.
End RunFacts.

(** C10. The last statement of [process_activation_request] in Monday-CRM.py
    is never reached: for every input and every reply of the remote services
    the run returns at the no-items branch, in the handler of the note block
    or with the summary, so the unbound [zendesk_error_msg] is never
    evaluated and the run does not raise. *)
Theorem fallback_unreachable (remote : Remote) (deal_id : string)
    (group_ids : list string) (group_map : gmap string string)
    (owner_email : option string) (monday_user_id_to_assign : option N) :
  exists site ok message,
    (MondayCRM.process_activation_request remote deal_id group_ids group_map
       owner_email monday_user_id_to_assign).1 = Return site ok message /\
    (site = AtNoItems \/ site = AtNoteError \/ site = AtSummary) /\
    site <> AtFallback.
Proof.
  destruct (RunFacts.run_cases remote deal_id group_ids group_map owner_email
              monday_user_id_to_assign)
    as [[_ H]|[(_ & e & _ & H)|(_ & rid & m & _ & H)]];
    rewrite H; do 3 eexists; (split; [reflexivity|]); split; auto; discriminate.
Qed.

(** When the fetch of every selected group succeeds, the found items are
    the items that the scans of the groups return, in group order, no error is
    recorded, and the run returns the "no codes found" failure exactly when
    no scan returns an item. *)
Lemma no_codes_iff_nothing_yielded (remote : Remote) (deal_id : string)
    (group_ids : list string) (group_map : gmap string string)
    (owner_email : option string) (monday_user_id_to_assign : option N) :
  (forall i group_id, group_ids !! i = Some group_id ->
     fetch_succeeds fetch_all_pages group_id (items_reply remote i)) ->
  (forall i group_id items calls,
     group_ids !! i = Some group_id ->
     fetch_all_pages group_id (items_reply remote i) = (inr items, calls) ->
     (forall item, In item items ->
        item_status item <> Some STATUS_LABEL_NOT_USED) ->
     group_item fetch_all_pages group_map (items_reply remote i) group_id = None) /\
  items_found_details
    (find_items fetch_all_pages (items_reply remote) group_map group_ids) =
    yielded_items fetch_all_pages (items_reply remote) group_map 0 group_ids /\
  global_error
    (find_items fetch_all_pages (items_reply remote) group_map group_ids) = None /\
  ((exists site,
      (MondayCRM.process_activation_request remote deal_id group_ids group_map
         owner_email monday_user_id_to_assign).1 =
      Return site false (no_codes_message deal_id)) <->
   (forall i group_id, group_ids !! i = Some group_id ->
      group_item fetch_all_pages group_map (items_reply remote i) group_id = None)).
Proof.
  intros Hok.
  destruct (find_loop_ok fetch_all_pages (items_reply remote) group_map
              group_ids 0 (mkFind [] None [])) as [F1 F2].
  { intros j gid Hj. apply Hok. exact Hj. }
  simpl in F1, F2. fold (find_items fetch_all_pages (items_reply remote)
                           group_map group_ids) in F1, F2.
  split; [|split; [exact F1|split; [exact F2|]]].
  - intros i gid items calls Hi Hf Hs.
    destruct (Hok i gid Hi) as (items' & calls' & Hf' & Hk).
    rewrite Hf in Hf'. injection Hf' as <- <-.
    now apply (group_item_none _ _ _ _ items calls).
  - rewrite <- (yielded_items_nil fetch_all_pages (items_reply remote)
                  group_map group_ids 0), <- F1.
    destruct (RunFacts.run_cases remote deal_id group_ids group_map owner_email
                monday_user_id_to_assign)
      as [[E H]|[(E & e & _ & H)|(E & rid & m & _ & H)]]; rewrite H, ?F2.
    + split; [intros _; exact E|]. intros _. now exists AtNoItems.
    + split; [|intros E'; contradiction].
      intros [site Hs]. exfalso. injection Hs as _ Hs.
      vm_compute in Hs. discriminate.
    + split; [|intros E'; contradiction].
      intros [site Hs]. discriminate.
Qed.

(** ** The summary message *)

Module MessageFacts.
Import PyStr StrFacts MondayCRM.

Lemma fold_left_keeps (f : string -> string) (parts : list string)
    (sub init : string) :
  substring sub init ->
  substring sub (fold_left (fun m part => m +:+ f part) parts init).
Proof.
  revert init. induction parts as [|p parts IH]; intros init H; simpl.
  - exact H.
  - apply IH. now apply substring_app_l.
Qed.

Lemma fold_left_has (f : string -> string) (parts : list string)
    (part init : string) :
  In part parts ->
  substring (f part) (fold_left (fun m part => m +:+ f part) parts init).
Proof.
  revert init. induction parts as [|p parts IH]; intros init; simpl; [tauto|].
  intros [->|H].
  - apply fold_left_keeps, substring_app_r, substring_refl.
  - now apply IH.
Qed.

Lemma substring_trans (a b c : string) :
  substring a b -> substring b c -> substring a c.
Proof.
  intros (p1 & q1 & ->) (p2 & q2 & ->).
  exists (p2 +:+ p1), (q1 +:+ q2). now rewrite !app_assoc.
Qed.

Lemma failure_item_has (part : string) : substring part (failure_item part).
Proof.
  unfold failure_item.
  exists ("<li>" +:+ (if contains "failed" part then "❌" else "⚠️") +:+ " "),
    "</li>".
  now rewrite !app_assoc.
Qed.

(** Every failure part is shown in the final message. *)
Lemma final_message_has_failure (success_parts failure_parts : list string)
    (part : string) :
  In part failure_parts ->
  substring part (final_message_of success_parts failure_parts).
Proof.
  intros H. unfold final_message_of.
  destruct failure_parts as [|p l] eqn:E; [contradiction|].
  rewrite <- E in *. apply substring_app_l.
  apply (substring_trans _ (failure_item part)); [apply failure_item_has|].
  now apply (fold_left_has failure_item).
Qed.

(** Every success part is shown in the final message. *)
Lemma final_message_has_success (success_parts failure_parts : list string)
    (part : string) :
  In part success_parts ->
  substring part (final_message_of success_parts failure_parts).
Proof.
  intros H. unfold final_message_of.
  assert (S : substring part
    (fold_left (fun m part => m +:+ "<li>✅ " +:+ part +:+ "</li>")
       success_parts "<b>Process Summary:</b><ul>" +:+ "</ul>")).
  { apply substring_app_l.
    apply (substring_trans _ ("<li>✅ " +:+ part +:+ "</li>")).
    - exists "<li>✅ ", "</li>". reflexivity.
    - now apply (fold_left_has (fun part => "<li>✅ " +:+ part +:+ "</li>")). }
  destruct failure_parts as [|p l]; [exact S|].
  apply substring_app_l, fold_left_keeps, substring_app_l. exact S.
Qed.
End MessageFacts.

(** Every failure part is an entry of the list of issues. *)
Lemma final_message_has_item (success_parts failure_parts : list string)
    (part : string) :
  In part failure_parts ->
  PyStr.substring (MondayCRM.failure_item part)
    (MondayCRM.final_message_of success_parts failure_parts).
Proof.
  intros H. unfold MondayCRM.final_message_of.
  destruct failure_parts as [|p l] eqn:E; [contradiction|].
  rewrite <- E in *. apply StrFacts.substring_app_l.
  now apply (MessageFacts.fold_left_has MondayCRM.failure_item).
Qed.

(** C6. For every run of [process_activation_request] (Monday-CRM.py) in which
    the note is created and the call that tags it fails (a status other than
    200, a network error or any other exception), the run returns overall
    success [True] after having issued the tagging call, and the message
    recorded for the tagging failure, which names the note and the status or
    the exception and is not empty, occurs in the returned summary message as
    an entry of its list of issues. *)
Theorem tag_failure_is_soft (remote : Remote) (deal_id : string)
    (group_ids : list string) (group_map : gmap string string)
    (owner_email : option string) (monday_user_id_to_assign : option N)
    (new_note_id : N) :
  items_found_details
    (find_items fetch_all_pages (items_reply remote) group_map group_ids) <> [] ->
  note_reply remote = NoteCreated (Some new_note_id) ->
  new_note_id <> 0%N ->
  tag_failed (tag_reply remote) ->
  let note_tag_error_msg := tag_failure_text new_note_id (tag_reply remote) in
  exists message calls,
    MondayCRM.note_tag_error_msg
      (MondayCRM.tag_note (tag_reply remote) new_note_id true) =
      Some note_tag_error_msg /\
    PyStr.truthy note_tag_error_msg = true /\
    MondayCRM.process_activation_request remote deal_id group_ids group_map
      owner_email monday_user_id_to_assign =
      (Return AtSummary true message, calls) /\
    In (CallTagNote new_note_id) calls /\
    PyStr.substring note_tag_error_msg message /\
    PyStr.substring (MondayCRM.failure_item note_tag_error_msg) message.
Proof.
  intros Hne Hn Hid Ht. cbv zeta.
  destruct (RunFacts.run_summary remote deal_id group_ids group_map owner_email
              monday_user_id_to_assign _ Hne Hn) as (ns & ncalls & Hw & Hrun).
  unfold MondayCRM.write_note in Hw. rewrite Hn in Hw. cbn [andb] in Hw.
  assert (Htr : truthy_N (Some new_note_id) = true).
  { simpl. now apply negb_true_iff, N.eqb_neq. }
  rewrite Htr in Hw. cbn [default] in Hw. injection Hw as <- <-.
  assert (He : MondayCRM.note_tag_error_msg
                 (MondayCRM.tag_note (tag_reply remote) new_note_id true) =
               Some (tag_failure_text new_note_id (tag_reply remote))).
  { unfold MondayCRM.tag_note, tag_failure_text.
    destruct (tag_reply remote) as [code det|e|e]; simpl in Ht.
    - apply N.eqb_neq in Ht. rewrite Ht. reflexivity.
    - reflexivity.
    - reflexivity. }
  assert (Htruthy : PyStr.truthy
                      (tag_failure_text new_note_id (tag_reply remote)) = true).
  { unfold tag_failure_text. destruct (tag_reply remote); reflexivity. }
  do 2 eexists. split; [exact He|]. split; [exact Htruthy|].
  split; [exact Hrun|]. split; [|split].
  - apply in_or_app. right. apply in_or_app. left. simpl. auto.
  - apply MessageFacts.final_message_has_failure.
    unfold MondayCRM.failure_parts_of. rewrite He. cbn [PyStr.truthy_opt].
    rewrite Htruthy. simpl. now left.
  - apply final_message_has_item.
    unfold MondayCRM.failure_parts_of. rewrite He. cbn [PyStr.truthy_opt].
    rewrite Htruthy. simpl. now left.
Qed.

(** ** Status updates and owner assignment *)

Module UpdateFacts.

Lemma count_at_cons {A : Type} (P : nat -> bool) (x : A) (l : list A) :
  count_at P (x :: l) =
  (if P 0 then 1 else 0) + count_at (fun i => P (S i)) l.
Proof.
  unfold count_at. cbn [imap List.filter].
  destruct (P 0); reflexivity.
Qed.

Lemma count_at_ext {A : Type} (P Q : nat -> bool) (l : list A) :
  (forall i, P i = Q i) -> count_at P l = count_at Q l.
Proof.
  intros H. unfold count_at. f_equal. f_equal.
  apply imap_ext. intros i x _. apply H.
Qed.

(** The loop from position [i] on, for any value of the counters. *)
Lemma update_loop_spec (remote : Remote) (uid : option N)
    (items : list ItemDetail) (i : nat) (c : Counters) :
  let c' := update_loop remote uid i items c in
  update_calls c' =
    update_calls c ++ concat (imap (fun j => item_calls remote uid (i + j)) items) /\
  monday_update_successes c' =
    monday_update_successes c +
    count_at (fun j => is_ok (status_reply remote (i + j))) items /\
  monday_update_failures c' =
    monday_update_failures c +
    count_at (fun j => negb (is_ok (status_reply remote (i + j)))) items /\
  monday_update_error_msgs c' =
    monday_update_error_msgs c ++
    concat (imap (fun j d => fail_detail (d_item_id d) (status_reply remote (i + j)))
              items) /\
  monday_person_successes c' =
    monday_person_successes c +
    count_at (fun j => attempted remote uid (i + j) &&
                       is_ok (person_reply remote (i + j))) items /\
  monday_person_failures c' =
    monday_person_failures c +
    count_at (fun j => attempted remote uid (i + j) &&
                       negb (is_ok (person_reply remote (i + j)))) items /\
  monday_person_error_msgs c' =
    monday_person_error_msgs c ++
    concat (imap (fun j d =>
                    if attempted remote uid (i + j)
                    then fail_detail (d_item_id d) (person_reply remote (i + j))
                    else []) items).
Proof.
  revert i c. induction items as [|d items IH]; intros i c; cbv zeta.
  - simpl. unfold count_at. simpl. rewrite !app_nil_r, !Nat.add_0_r. tauto.
  - cbn [update_loop].
    specialize (IH (S i) (update_item remote uid i d c)). cbv zeta in IH.
    destruct IH as (I1 & I2 & I3 & I4 & I5 & I6 & I7).
    rewrite I1, I2, I3, I4, I5, I6, I7. clear I1 I2 I3 I4 I5 I6 I7.
    rewrite !count_at_cons. cbn [imap concat].
    rewrite !Nat.add_0_r.
    assert (E1 : forall (B : Type) (f : nat -> ItemDetail -> B),
              imap (fun j => f (S i + j)) items =
              imap ((fun j => f (i + j)) ∘ S) items).
    { intros B f. apply imap_ext. intros j x _. simpl.
      now replace (i + S j) with (S (i + j)) by lia. }
    assert (E2 : forall P : nat -> bool,
              count_at (fun j => P (S i + j)) items =
              count_at (fun j => P (i + S j)) items).
    { intros P. apply count_at_ext. intros j.
      now replace (i + S j) with (S i + j) by lia. }
    rewrite (E1 _ (item_calls remote uid)).
    rewrite (E1 _ (fun k d => fail_detail (d_item_id d) (status_reply remote k))).
    rewrite (E1 _ (fun k d => if attempted remote uid k
                              then fail_detail (d_item_id d) (person_reply remote k)
                              else [])).
    rewrite (E2 (fun k => is_ok (status_reply remote k))).
    rewrite (E2 (fun k => negb (is_ok (status_reply remote k)))).
    rewrite (E2 (fun k => attempted remote uid k && is_ok (person_reply remote k))).
    rewrite (E2 (fun k => attempted remote uid k &&
                          negb (is_ok (person_reply remote k)))).
    unfold update_item, item_calls, attempted.
    destruct (status_reply remote i) as [|msg]; cbn [is_ok andb negb fail_detail].
    + destruct (truthy_N uid); cbn [andb].
      * destruct (person_reply remote i) as [|pmsg];
          cbn [is_ok negb fail_detail monday_update_successes
               monday_update_failures monday_update_error_msgs
               monday_person_successes monday_person_failures
               monday_person_error_msgs update_calls];
          rewrite <- ?app_assoc; cbn [app];
          repeat split; try reflexivity; lia.
      * cbn [monday_update_successes
               monday_update_failures monday_update_error_msgs
               monday_person_successes monday_person_failures
               monday_person_error_msgs update_calls];
          rewrite <- ?app_assoc; cbn [app];
          repeat split; try reflexivity; lia.
    + cbn [monday_update_successes
               monday_update_failures monday_update_error_msgs
               monday_person_successes monday_person_failures
               monday_person_error_msgs update_calls];
          rewrite <- ?app_assoc; cbn [app];
          repeat split; try reflexivity; lia.
Qed.

(** Every entry of the assignment table is a non-zero id, so a looked-up id
    is truthy exactly when the email has an entry. *)
Lemma table_truthy (email : string) :
  truthy_N (ZENDESK_OWNER_EMAIL_TO_MONDAY_ID !! email) = true <->
  is_Some (ZENDESK_OWNER_EMAIL_TO_MONDAY_ID !! email).
Proof.
  split.
  - destruct (ZENDESK_OWNER_EMAIL_TO_MONDAY_ID !! email); [eauto|discriminate].
  - intros [n H]. rewrite H. unfold ZENDESK_OWNER_EMAIL_TO_MONDAY_ID in H.
    repeat (apply lookup_insert_Some in H;
            destruct H as [[_ <-]|[_ H]]; [reflexivity|]).
    apply lookup_singleton_Some in H. destruct H as [_ <-]. reflexivity.
Qed.
End UpdateFacts.

(** ** Calls of the first steps *)

Lemma paginate_no_mutation (group_id : string) (cursor : option string)
    (acc : list Item) (reply : PageReply) :
  forallb (fun c => negb (is_mutation c)) (paginate group_id cursor acc reply).2 = true.
Proof.
  revert cursor acc. induction reply as [e|items|items cur next IH];
    intros cursor acc; simpl; try reflexivity.
  destruct (PyStr.truthy cur); [|reflexivity].
  specialize (IH (Some cur) (acc ++ items)).
  destruct (paginate group_id (Some cur) (acc ++ items) next) as [res calls].
  exact IH.
Qed.

Lemma find_loop_no_mutation (replies : nat -> PageReply)
    (group_map : gmap string string) (group_ids : list string) (i : nat)
    (st : FindState) :
  forallb (fun c => negb (is_mutation c)) (find_calls st) = true ->
  forallb (fun c => negb (is_mutation c))
    (find_calls (find_loop fetch_all_pages replies group_map i group_ids st)) = true.
Proof.
  revert i st. induction group_ids as [|g rest IH]; intros i st H; simpl.
  - exact H.
  - apply IH. unfold find_in_group, fetch_all_pages.
    pose proof (paginate_no_mutation g None [] (replies i)) as P.
    destruct (paginate g None [] (replies i)) as [[e|items] calls]; simpl in P.
    + simpl. rewrite forallb_app, H, P. reflexivity.
    + destruct (scan_group _ items); simpl; rewrite forallb_app, H, P;
        reflexivity.
Qed.

Lemma write_note_no_mutation (remote : Remote) (deal_id content : string) :
  forallb (fun c => negb (is_mutation c))
    (MondayCRM.write_note remote deal_id content).2 = true.
Proof.
  unfold MondayCRM.write_note. destruct (note_reply remote) as [e|rid];
    [reflexivity|].
  cbn [andb]. destruct (truthy_N rid); reflexivity.
Qed.

Lemma concat_imap_singleton {A B : Type} (g : A -> B) (l : list A) :
  concat (imap (fun _ x => [g x]) l) = map g l.
Proof.
  induction l as [|x l IH]; [reflexivity|].
  cbn [imap concat map app]. f_equal. exact IH.
Qed.

(** C9. In every run of [process_activation_request] (Monday-CRM.py) for a
    resolved owner email, with the assignee looked up in the assignment table:
    the run issues no board mutation before the update step, and none at all
    when it fails before that step; in the update step it issues, for each
    found item in sorted order, one status update, followed by one owner
    assignment exactly when the status update of that item succeeded and the
    owner email has an entry in the table; the four counters count, item by
    item, the status updates that succeeded and failed and the assignments that
    succeeded and failed; and when the email has no entry, no assignment is
    issued for any item, the warning recorded is the text that names the
    email, and that text without its "Warning: " prefix, which is not empty,
    is an entry of the list of issues of the summary; when the email has an
    entry no warning is recorded. *)
Theorem assignment_follows_status (remote : Remote) (deal_id : string)
    (group_ids : list string) (group_map : gmap string string)
    (owner_email : string) :
  let uid := ZENDESK_OWNER_EMAIL_TO_MONDAY_ID !! owner_email in
  let mapped := bool_decide (is_Some (ZENDESK_OWNER_EMAIL_TO_MONDAY_ID !! owner_email)) in
  let found := find_items fetch_all_pages (items_reply remote) group_map group_ids in
  let items := sort_found (items_found_details found) in
  let c := update_items remote uid items in
  let run := MondayCRM.process_activation_request remote deal_id group_ids
               group_map (Some owner_email) uid in
  PyStr.truthy owner_email = true ->
  (exists before,
     no_mutation before = true /\
     ((run.2 = before /\ succeeded run.1 = false) \/
      (run.2 = before ++ update_calls c /\
       exists message,
         run.1 = Return AtSummary true message /\
         (mapped = false ->
          MondayCRM.owner_warning_of (Some owner_email) uid =
            Some (unmapped_owner_warning owner_email) /\
          PyStr.truthy
            (PyStr.replace "Warning: " EmptyString
               (unmapped_owner_warning owner_email)) = true /\
          PyStr.substring
            (MondayCRM.failure_item
               (PyStr.replace "Warning: " EmptyString
                  (unmapped_owner_warning owner_email))) message) /\
         (mapped = true ->
          MondayCRM.owner_warning_of (Some owner_email) uid = None)))) /\
  update_calls c =
    concat (imap (fun i d =>
      CallSetStatus (d_item_id d) ::
      (if is_ok (status_reply remote i) && mapped
       then [CallAssignPerson (d_item_id d) (default 0%N uid)] else [])) items) /\
  (mapped = false ->
     update_calls c = map (fun d => CallSetStatus (d_item_id d)) items) /\
  monday_update_successes c =
    count_at (fun i => is_ok (status_reply remote i)) items /\
  monday_update_failures c =
    count_at (fun i => negb (is_ok (status_reply remote i))) items /\
  monday_person_successes c =
    count_at (fun i => is_ok (status_reply remote i) && mapped &&
                       is_ok (person_reply remote i)) items /\
  monday_person_failures c =
    count_at (fun i => is_ok (status_reply remote i) && mapped &&
                       negb (is_ok (person_reply remote i))) items.
Proof.
  intros uid mapped found items c run Hemail.
  assert (Hm : truthy_N uid = mapped).
  { unfold mapped, uid.
    pose proof (UpdateFacts.table_truthy owner_email) as T.
    destruct (truthy_N (ZENDESK_OWNER_EMAIL_TO_MONDAY_ID !! owner_email)).
    - symmetry. apply bool_decide_eq_true. now apply T.
    - symmetry. apply bool_decide_eq_false. intros H. apply T in H.
      discriminate. }
  destruct (UpdateFacts.update_loop_spec remote uid items 0 zero_counters)
    as (U1 & U2 & U3 & _ & U5 & U6 & _).
  fold (update_items remote uid items) in U1, U2, U3, U5, U6. fold c in U1, U2, U3, U5, U6.
  cbn [zero_counters update_calls monday_update_successes
       monday_update_failures monday_person_successes monday_person_failures
       Nat.add app] in U1, U2, U3, U5, U6.
  unfold item_calls, attempted in U1, U5, U6. rewrite Hm in U1.
  assert (Hcalls : mapped = false ->
            update_calls c = map (fun d => CallSetStatus (d_item_id d)) items).
  { intros Hf. rewrite U1, Hf.
    rewrite (imap_ext _ (fun _ d => [CallSetStatus (d_item_id d)])).
    - apply concat_imap_singleton.
    - intros i d _. cbn beta. now rewrite andb_false_r. }
  assert (Hfind : no_mutation (find_calls found) = true).
  { apply find_loop_no_mutation. reflexivity. }
  split; [|split; [exact U1|split; [exact Hcalls|]]].
  - assert (Hd : items_found_details found = [] \/
                 items_found_details found <> []).
    { destruct (items_found_details found); [left|right]; congruence. }
    destruct Hd as [Hnil|Hne].
    { pose proof (RunFacts.run_no_items remote deal_id group_ids group_map
                    (Some owner_email) uid Hnil) as Hrun.
      fold found in Hrun. fold run in Hrun.
      exists (find_calls found). split; [exact Hfind|]. left.
      now rewrite Hrun. }
    destruct (note_reply remote) as [e|response_id] eqn:Hn.
    { pose proof (RunFacts.run_note_error remote deal_id group_ids group_map
                    (Some owner_email) uid e Hne Hn) as Hrun.
      fold found in Hrun. fold items in Hrun. fold run in Hrun.
      exists (find_calls found ++
              [CallCreateNote deal_id
                 (MondayCRM.zendesk_note_content
                    (map MondayCRM.note_entry items))]).
      split; [|left; rewrite Hrun; split; reflexivity].
      unfold no_mutation in *. rewrite forallb_app, Hfind. reflexivity. }
    destruct (RunFacts.run_summary remote deal_id group_ids group_map
                (Some owner_email) uid response_id Hne Hn)
      as (ns & ncalls & Hw & Hrun).
    fold found in Hrun, Hw. fold items in Hrun, Hw. fold c in Hrun.
    fold run in Hrun.
    exists (find_calls found ++ ncalls). split.
    + unfold no_mutation in *. rewrite forallb_app, Hfind.
      pose proof (write_note_no_mutation remote deal_id
                    (MondayCRM.zendesk_note_content
                       (map MondayCRM.note_entry items))) as W.
      now rewrite Hw in W.
    + right. rewrite Hrun. split; [now rewrite <- app_assoc|].
      eexists. split; [reflexivity|]. split.
      * intros Hf.
        assert (Hw' : MondayCRM.owner_warning_of (Some owner_email) uid =
                  Some (unmapped_owner_warning owner_email)).
        { unfold MondayCRM.owner_warning_of, unmapped_owner_warning.
          rewrite Hm, Hf. cbn [negb andb PyStr.truthy_opt]. now rewrite Hemail. }
        split; [exact Hw'|]. split; [reflexivity|].
        apply final_message_has_item.
        unfold MondayCRM.failure_parts_of.
        apply in_or_app. right. apply in_or_app. right.
        rewrite Hw'. left. reflexivity.
      * intros Ht. unfold MondayCRM.owner_warning_of. now rewrite Hm, Ht.
  - rewrite U2, U3, U5, U6. rewrite Hm. auto.
Qed.

(** ** Owner resolution *)

(** C4. For every run in which owner resolution returns an error or no
    email: [process_activation_request] of Backup.py returns Failure right
    after the owner lookup, its only remote call; in Monday-CRM.py the step-1
    handler shows an error and leaves the wizard at its step, so a pass
    through the wizard ends at step 1 without a result; in both, no status
    change and no assignee change is issued. *)
Theorem owner_failure_stops_before_mutations (remote : Remote)
    (deal_id : string) (group_ids : list string)
    (group_map : gmap string string) (st : Session)
    (deal_id_input : string) (selected_titles : list string) :
  owner_failed remote ->
  (exists message,
     Backup.process_activation_request remote deal_id group_ids group_map =
     (Return AtOwnerError false message, [CallOwner deal_id])) /\
  (let r := Wizard.step1_submit remote st deal_id_input in
   ss_current_step r.1 = ss_current_step st /\
   PyStr.truthy_opt (ss_show_error r.1) = true /\
   no_mutation r.2 = true) /\
  (let r := Wizard.run remote deal_id_input selected_titles in
   ss_current_step r.1 = 1 /\ ss_note_written r.1 = None /\
   PyStr.truthy_opt (ss_show_error r.1) = true /\
   no_mutation r.2 = true /\
   (r.2 = [] \/ r.2 = [CallOwner (PyStr.strip deal_id_input)])).
Proof.
  intros Hfail.
  assert (Hstep : forall s,
    let r := Wizard.step1_submit remote s deal_id_input in
    ss_current_step r.1 = ss_current_step s /\
    ss_note_written r.1 = ss_note_written s /\
    PyStr.truthy_opt (ss_show_error r.1) = true /\
    (r.2 = [] \/ r.2 = [CallOwner (PyStr.strip deal_id_input)])).
  { intros s. unfold Wizard.step1_submit. cbv zeta.
    destruct (PyStr.isdigit (PyStr.strip deal_id_input)); cbn [negb].
    2:{ simpl. auto. }
    unfold owner_failed in Hfail.
    destruct (owner_reply remote) as [email err]. cbn [fst snd] in Hfail.
    destruct (PyStr.truthy_opt err) eqn:Eerr.
    { simpl. auto. }
    destruct Hfail as [Hf|Hf]; [discriminate|]. rewrite Hf. simpl. auto. }
  split; [|split].
  - unfold Backup.process_activation_request, owner_failed in *.
    destruct (owner_reply remote) as [email err]. cbn [fst snd] in Hfail.
    destruct (PyStr.truthy_opt err) eqn:Eerr; [eauto|].
    destruct Hfail as [Hf|Hf]; [discriminate|]. rewrite Hf. simpl. eauto.
  - cbv zeta. destruct (Hstep st) as (H1 & _ & H3 & H4).
    repeat split; try assumption.
    destruct H4 as [-> | ->]; reflexivity.
  - cbv zeta. unfold Wizard.run.
    destruct (Hstep initial_session) as (H1 & H2 & H3 & H4).
    destruct (Wizard.step1_submit remote initial_session deal_id_input)
      as [st1 calls1].
    cbn [fst snd] in *. rewrite H1. cbn [initial_session ss_current_step Nat.eqb].
    cbn [fst snd]. repeat split; try assumption.
    destruct H4 as [-> | ->]; reflexivity.
Qed.

(** ** The two implementations *)

(** C2. There is a run in which the note is created and the status update of
    the one found item fails, on which [process_activation_request] of
    Monday-CRM.py returns overall success [True] and that of Backup.py returns
    [False]. *)
Theorem implementations_disagree :
  exists (remote : Remote) (deal_id : string) (group_ids : list string)
         (group_map : gmap string string) (owner_email : string),
    owner_reply remote = (Some owner_email, None) /\
    (exists response_id, note_reply remote = NoteCreated response_id) /\
    (exists msg, status_reply remote 0 = MutFail msg) /\
    (exists message calls,
       MondayCRM.process_activation_request remote deal_id group_ids group_map
         (Some owner_email) (ZENDESK_OWNER_EMAIL_TO_MONDAY_ID !! owner_email) =
         (Return AtSummary true message, calls) /\
       In (CallSetStatus "1") calls) /\
    (exists message calls,
       Backup.process_activation_request remote deal_id group_ids group_map =
         (Return AtSummary false message, calls) /\
       In (CallSetStatus "1") calls).
Proof.
  exists Samples.status_fails, "123", ["g1"], Samples.one_group_map,
    "asoni@dxo.com".
  split; [reflexivity|]. split; [now eexists|]. split; [now eexists|].
  split.
  - do 2 eexists. split; [vm_compute; reflexivity|]. simpl. auto 10.
  - do 2 eexists. split; [vm_compute; reflexivity|]. simpl. auto 10.
Qed.

(** ** Failures of the mutations and the summary *)

Module SoftFailureFacts.
Import PyStr StrFacts MessageFacts MondayCRM.

Lemma join_has (sep x : string) (l : list string) :
  In x l -> substring x (join sep l).
Proof.
  induction l as [|y l IH]; [contradiction|].
  intros [->|H].
  - destruct l as [|z l]; [apply substring_refl|].
    cbn [join]. apply substring_app_l, substring_refl.
  - destruct l as [|z l]; [contradiction|].
    cbn [join]. apply substring_app_r, substring_app_r. now apply IH.
Qed.

Lemma count_at_pos {A : Type} (P : nat -> bool) (l : list A) (i : nat) (x : A) :
  l !! i = Some x -> P i = true -> 0 < count_at P l.
Proof.
  revert P i. induction l as [|y l IH]; intros P i Hl HP; [discriminate|].
  rewrite UpdateFacts.count_at_cons. destruct i as [|i].
  - rewrite HP. lia.
  - simpl in Hl. pose proof (IH (fun j => P (S j)) i Hl HP). lia.
Qed.

Lemma In_concat_imap {A B : Type} (f : nat -> A -> list B) (l : list A)
    (i : nat) (x : A) (y : B) :
  l !! i = Some x -> In y (f i x) -> In y (concat (imap f l)).
Proof.
  intros Hl Hy. apply in_concat. exists (f i x). split; [|exact Hy].
  apply list_elem_of_In. apply list_elem_of_lookup. exists i.
  rewrite list_lookup_imap, Hl. reflexivity.
Qed.

(** A status update that fails is itemized in the summary: the summary
    counts the failures and quotes the error of the item. *)
Lemma status_failure_reported (remote : Remote) (deal_id : string)
    (owner_email owner_warning : option string) (uid : option N)
    (ns : NoteState) (items : list ItemDetail) (i : nat) (d : ItemDetail)
    (msg : string) :
  items !! i = Some d -> status_reply remote i = MutFail msg ->
  let c := update_items remote uid items in
  let message :=
    final_message_of (success_parts_of deal_id owner_email ns c)
      (failure_parts_of (length items) owner_warning ns c) in
  substring ("failed to update status for " +:+
             str_of_nat (monday_update_failures c) +:+ "/" +:+
             str_of_nat (length items) +:+ " item(s)") message /\
  substring ("Item " +:+ d_item_id d +:+ ": " +:+ msg) message.
Proof.
  intros Hi Hs c message.
  destruct (UpdateFacts.update_loop_spec remote uid items 0 zero_counters)
    as (_ & _ & U3 & U4 & _).
  fold (update_items remote uid items) in U3, U4. fold c in U3, U4.
  cbn [zero_counters monday_update_failures monday_update_error_msgs
       Nat.add app] in U3, U4.
  assert (Hpos : (0 <? monday_update_failures c)%nat = true).
  { apply Nat.ltb_lt. rewrite U3.
    apply (count_at_pos _ _ i d Hi). now rewrite Hs. }
  assert (Hin : In ("Item " +:+ d_item_id d +:+ ": " +:+ msg)
                  (monday_update_error_msgs c)).
  { rewrite U4.
    apply (In_concat_imap
             (fun j d => fail_detail (d_item_id d) (status_reply remote j))
             _ i d _ Hi).
    rewrite Hs. now left. }
  split.
  - apply final_message_has_failure. unfold failure_parts_of.
    apply in_or_app. right. apply in_or_app. left. rewrite Hpos.
    now left.
  - apply (substring_trans _
             ("(Status Errors: " +:+ join "; " (monday_update_error_msgs c) +:+ ")")).
    + apply substring_app_r, substring_app_l. now apply join_has.
    + apply final_message_has_failure. unfold failure_parts_of.
      apply in_or_app. right. apply in_or_app. left. rewrite Hpos.
      destruct (monday_update_error_msgs c) as [|m l] eqn:E;
        [contradiction|]. right. now left.
Qed.

(** The summary of Monday-CRM.py does not read the counter and the list of
    the failed assignments. *)
Lemma summary_ignores_assignment_failures (deal_id : string)
    (owner_email owner_warning : option string) (ns : NoteState)
    (n_items : nat) (c : Counters) (failures : nat) (msgs : list string) :
  let c' := mkCounters (monday_update_successes c) (monday_update_failures c)
              (monday_update_error_msgs c) (monday_person_successes c)
              failures msgs (update_calls c) in
  final_message_of (success_parts_of deal_id owner_email ns c')
    (failure_parts_of n_items owner_warning ns c') =
  final_message_of (success_parts_of deal_id owner_email ns c)
    (failure_parts_of n_items owner_warning ns c).
Proof. reflexivity. Qed.

(** Whatever the status updates and the assignments do, a run that found
    items and created the note returns [True]. *)
Lemma mutation_failures_are_soft (remote : Remote) (deal_id : string)
    (group_ids : list string) (group_map : gmap string string)
    (owner_email : option string) (uid : option N) (response_id : option N) :
  items_found_details
    (find_items fetch_all_pages (items_reply remote) group_map group_ids) <> [] ->
  note_reply remote = NoteCreated response_id ->
  exists message,
    (process_activation_request remote deal_id group_ids group_map
       owner_email uid).1 = Return AtSummary true message.
Proof.
  intros Hne Hn.
  destruct (RunFacts.run_summary remote deal_id group_ids group_map
              owner_email uid response_id Hne Hn) as (ns & ncalls & _ & ->).
  eauto.
Qed.
End SoftFailureFacts.

(** C1. The run of [process_activation_request] (Monday-CRM.py) on one group
    with one available item, in which the owner is mapped, the note is created
    and tagged, the status update succeeds and the owner assignment fails
    with "boom": the assignment is attempted, the run returns [True], and the
    summary has no issue entry at all, so the failed assignment is not
    itemized; Backup.py reports it on the same replies. *)
Theorem assignment_failure_not_reported :
  let run :=
    MondayCRM.process_activation_request Samples.assignment_fails "123" ["g1"]
      Samples.one_group_map (Some "asoni@dxo.com")
      (ZENDESK_OWNER_EMAIL_TO_MONDAY_ID !! "asoni@dxo.com") in
  person_reply Samples.assignment_fails 0 = MutFail "boom" /\
  In (CallAssignPerson "1" 47981810%N) run.2 /\
  run.1 =
    Return AtSummary true
      "<b>Process Summary:</b><ul><li>✅ Added note to Zendesk Deal 123</li><li>✅ Tagged note with 'LICENCE'</li><li>✅ Updated status to 'Sent & put in B2B CRM' for 1 item(s) on Monday.com</li></ul>" /\
  PyStr.contains "boom" (message_of run.1) = false /\
  PyStr.contains "Issues" (message_of run.1) = false /\
  (Backup.process_activation_request Samples.assignment_fails "123" ["g1"]
     Samples.one_group_map).1 =
    Return AtSummary true
      "Process Summary: Added note to Zendesk Deal 123 & updated status for 1 item(s) on Monday.com. However, failed to assign owner for 1/1 item(s) and (Owner Assign Errors: Item 1: boom).".
Proof.
  cbv zeta. split; [reflexivity|]. split; [vm_compute; auto 10|].
  repeat split; vm_compute; reflexivity.
Qed.

(* ===================================================================== *)
(** * The properties on sample runs *)
(* ===================================================================== *)

(** A title with an FP token before a lower-case DFP token. *)
Lemma display_name_prefers_longer_token_witness :
  (isascii "FP3 dfp -12" = true /\ Token.has_token "DFP" "FP3 dfp -12") /\
  exists v, Token.token_at "DFP" "FP3 dfp -12" v /\
            get_product_display_name "FP3 dfp -12" = "FilmPack " +:+ v.
Proof.
  assert (H : Token.has_token "DFP" "FP3 dfp -12").
  { exists "12", "FP3 ", "dfp", " -", EmptyString.
    repeat split; try reflexivity; try discriminate.
    right. right. exists " "%char. split; [reflexivity|]. now right. }
  split; [split; [reflexivity|exact H]|].
  exact (proj1 (proj2 display_name_prefers_longer_token) "FP3 dfp -12"
           eq_refl H).
Defined.


(** The note is created and tagging it is answered with status 500. *)
Lemma tag_failure_is_soft_witness :
  (items_found_details
     (find_items fetch_all_pages (items_reply Samples.tag_fails)
        Samples.one_group_map ["g1"]) <> [] /\
   note_reply Samples.tag_fails = NoteCreated (Some 55%N) /\
   55%N <> 0%N /\ tag_failed (tag_reply Samples.tag_fails)) /\
  exists message calls,
    MondayCRM.process_activation_request Samples.tag_fails "123" ["g1"]
      Samples.one_group_map (Some "asoni@dxo.com") (Some 47981810%N) =
      (Return AtSummary true message, calls) /\
    In (CallTagNote 55%N) calls /\
    PyStr.substring
      "Failed to tag note 55 via direct API call. Status: 500, Response: oops"
      message.
Proof.
  assert (H1 : items_found_details
     (find_items fetch_all_pages (items_reply Samples.tag_fails)
        Samples.one_group_map ["g1"]) <> []) by (vm_compute; discriminate).
  assert (H2 : 55%N <> 0%N) by discriminate.
  assert (H3 : tag_failed (tag_reply Samples.tag_fails))
    by (simpl; discriminate).
  split; [repeat split; assumption|].
  destruct (tag_failure_is_soft Samples.tag_fails "123" ["g1"]
              Samples.one_group_map (Some "asoni@dxo.com") (Some 47981810%N)
              55%N H1 eq_refl H2 H3)
    as (message & calls & _ & _ & Hrun & Hcall & Hsub & _).
  exists message, calls. split; [exact Hrun|]. split; [exact Hcall|].
  exact Hsub.
Defined.

(** An owner without an entry in the assignment table. *)
Lemma assignment_follows_status_witness :
  PyStr.truthy "someone@dxo.com" = true /\
  update_calls
    (update_items Samples.assignment_fails
       (ZENDESK_OWNER_EMAIL_TO_MONDAY_ID !! "someone@dxo.com")
       (sort_found
          (items_found_details
             (find_items fetch_all_pages (items_reply Samples.assignment_fails)
                Samples.one_group_map ["g1"])))) =
  [CallSetStatus "1"] /\
  exists message,
    (MondayCRM.process_activation_request Samples.assignment_fails "123" ["g1"]
       Samples.one_group_map (Some "someone@dxo.com")
       (ZENDESK_OWNER_EMAIL_TO_MONDAY_ID !! "someone@dxo.com")).1 =
    Return AtSummary true message /\
    PyStr.substring
      (MondayCRM.failure_item
         "Owner email 'someone@dxo.com' not found in map. Person column will not be updated.")
      message.
Proof.
  split; [reflexivity|].
  pose proof (assignment_follows_status Samples.assignment_fails "123" ["g1"]
                Samples.one_group_map "someone@dxo.com" eq_refl)
    as ((before & _ & [[_ Hfail]|(_ & message & Hrun & Hwarn & _)]) & _ & H & _).
  { exfalso. vm_compute in Hfail. discriminate. }
  split.
  - rewrite H; [vm_compute; reflexivity|vm_compute; reflexivity].
  - exists message. split; [exact Hrun|].
    destruct (Hwarn ltac:(vm_compute; reflexivity)) as (_ & _ & Hsub).
    exact Hsub.
Defined.

(** The deal is not found. *)
Lemma owner_failure_stops_before_mutations_witness :
  owner_failed Samples.owner_not_found /\
  (exists message,
     Backup.process_activation_request Samples.owner_not_found "123" ["g1"]
       Samples.one_group_map =
     (Return AtOwnerError false message, [CallOwner "123"])) /\
  no_mutation (Wizard.run Samples.owner_not_found "123" ["PL8"]).2 = true.
Proof.
  assert (H : owner_failed Samples.owner_not_found) by (left; reflexivity).
  split; [exact H|].
  destruct (owner_failure_stops_before_mutations Samples.owner_not_found "123"
              ["g1"] Samples.one_group_map initial_session "123" ["PL8"] H)
    as (B & _ & W).
  split; [exact B|]. exact (proj1 (proj2 (proj2 (proj2 W)))).
Defined.

(** ** Further sample runs *)

Example display_overlap_order :
  get_product_display_name "FP3 DFP-6" = "FilmPack 6" /\
  get_product_display_name "VP2 dvp 5" = "ViewPoint 5" /\
  get_product_display_name "DVP3 DFP6" = "FilmPack 6" /\
  get_product_display_name "PROMO4 PR4x NIK_7" = "PROMO4 PR4x NIK_7".
Proof. repeat split; vm_compute; reflexivity. Qed.

Example sort_keys :
  map sort_key_of_name
    ["PhotoLab 8"; "Nik Collection 7"; "Nik  7"; "Foo Bar"; "PureRaw";
     "FilmPack 12 x"; "7"; "Nik 7 Collection"] =
  [1; 2; 2; 99; 3; 4; 99; 2].
Proof. vm_compute. reflexivity. Qed.

Example sort_keeps_ties_in_order :
  map d_code
    (sort_found
       [mkDetail "1" "A" "Other" NA NA; mkDetail "2" "B" "ViewPoint 4" NA NA;
        mkDetail "3" "C" "Unknown" NA NA; mkDetail "4" "D" "PhotoLab 8" NA NA;
        mkDetail "5" "E" "ViewPoint 5" NA NA]) =
  ["D"; "B"; "E"; "A"; "C"].
Proof. vm_compute. reflexivity. Qed.

(** The wizard on replies where the status update fails: the run is a
    success and the wizard moves to step 3. *)
Example wizard_soft_failure :
  let r := Wizard.run Samples.status_fails " 123 " ["PL8"] in
  ss_current_step r.1 = 3 /\ ss_note_written r.1 = Some true /\
  r.2 = [CallOwner "123"; CallGroups; CallItemsPage "g1" None;
         CallCreateNote "123"
           ("Activation Codes" +:+ nl +:+ nl +:+
            "Product Name: PhotoLab 8 || Activation Code: CODE1 || MAC Download Link: N/A || WIN Download Link: N/A");
         CallTagNote 55%N; CallSetStatus "1"].
Proof. cbv zeta. repeat split; vm_compute; reflexivity. Qed.

(* ===================================================================== *)
(** * Further properties of the code *)
(* ===================================================================== *)

(** ** Helpers *)

Lemma key_sorted_split {A : Type} (key : A -> nat) (before after : list A)
    (x y : A) :
  key_sorted key (before ++ x :: after) -> In y after -> key x <= key y.
Proof.
  induction before as [|b before IH]; simpl.
  - intros [H _] Hy. now apply H.
  - intros [_ H] Hy. now apply IH.
Qed.

(** ** Availability of an item, read off its data *)

Lemma link_of_none (cv : ColumnValue) :
  link_of cv = None <->
  (negb (PyStr.truthy_opt (cv_text cv)) || bool_decide (cv_text cv = Some NA)) &&
  match cv_value cv with
  | Some JsonNotObject => true
  | _ => false
  end = true.
Proof.
  unfold link_of.
  destruct (cv_text cv) as [t|]; cbn [PyStr.truthy_opt default].
  - destruct (PyStr.truthy t) eqn:T; cbn [negb orb].
    + change (id t) with t. destruct (String.eqb t NA) eqn:E.
      * apply String.eqb_eq in E. subst t.
        rewrite bool_decide_eq_true_2 by reflexivity.
        destruct (cv_value cv) as [[]|]; simpl; split; congruence.
      * rewrite bool_decide_eq_false_2.
        -- simpl. split; discriminate.
        -- intros [= ->]. rewrite String.eqb_refl in E. discriminate.
    + change (String.eqb NA NA) with true. cbn iota.
      destruct (cv_value cv) as [[]|]; simpl; split; congruence.
  - cbn [negb orb]. change (String.eqb NA NA) with true. cbn iota.
    destruct (cv_value cv) as [[]|]; simpl; split; congruence.
Qed.

Lemma column_loop_spec (cvs : list CvEntry) (st : ColState) :
  match column_loop cvs st with
  | Some st' =>
      forallb entry_readable cvs = true /\
      status_val st' = default (status_val st) (last (status_texts cvs))
  | None => forallb entry_readable cvs = false
  end.
Proof.
  revert st. induction cvs as [|[cv|] cvs IH]; intros st.
  - simpl. auto.
  - cbn [column_loop forallb entry_readable status_texts flat_map].
    unfold link_raises.
    destruct (decide (cv_id cv = Some STATUS_COLUMN_ID)) as [Hs|Hs].
    { rewrite Hs.
      change (bool_decide (Some STATUS_COLUMN_ID = Some MAC_LINK_COLUMN_ID))
        with false.
      change (bool_decide (Some STATUS_COLUMN_ID = Some WIN_LINK_COLUMN_ID))
        with false.
      cbn [orb andb negb app].
      specialize (IH (mkCol (cv_text cv) (mac_link_url st) (win_link_url st))).
      destruct (column_loop cvs _) as [st'|]; [|exact IH].
      destruct IH as [IH1 IH2]. split; [exact IH1|].
      rewrite IH2, last_cons. cbn [status_val].
      fold (status_texts cvs). now destruct (last (status_texts cvs)). }
    cbn [app]. fold (status_texts cvs).
    pose proof (link_of_none cv) as HL.
    destruct (decide (cv_id cv = Some MAC_LINK_COLUMN_ID)) as [Hm|Hm].
    { rewrite (bool_decide_eq_true_2 _ Hm). cbn [orb andb].
      destruct (link_of cv) as [l|] eqn:E.
      - assert (Hf : (negb (PyStr.truthy_opt (cv_text cv))
                      || bool_decide (cv_text cv = Some NA))
                     && match cv_value cv with
                        | Some JsonNotObject => true
                        | _ => false
                        end = false).
        { clear HL.
          match goal with |- ?b = false => destruct b eqn:B; [|reflexivity] end.
          apply (proj2 (link_of_none cv)) in B. congruence. }
        rewrite Hf. cbn [negb andb].
        specialize (IH (mkCol (status_val st) l (win_link_url st))).
        exact IH.
      - rewrite (proj1 (link_of_none cv) E). reflexivity. }
    rewrite (bool_decide_eq_false_2 _ Hm).
    destruct (decide (cv_id cv = Some WIN_LINK_COLUMN_ID)) as [Hw|Hw].
    { rewrite (bool_decide_eq_true_2 _ Hw). cbn [orb andb].
      destruct (link_of cv) as [l|] eqn:E.
      - assert (Hf : (negb (PyStr.truthy_opt (cv_text cv))
                      || bool_decide (cv_text cv = Some NA))
                     && match cv_value cv with
                        | Some JsonNotObject => true
                        | _ => false
                        end = false).
        { clear HL.
          match goal with |- ?b = false => destruct b eqn:B; [|reflexivity] end.
          apply (proj2 (link_of_none cv)) in B. congruence. }
        rewrite Hf. cbn [negb andb].
        specialize (IH (mkCol (status_val st) (mac_link_url st) l)).
        exact IH.
      - rewrite (proj1 (link_of_none cv) E). reflexivity. }
    rewrite (bool_decide_eq_false_2 _ Hw). cbn [orb andb negb].
    exact (IH st).
  - reflexivity.
Qed.

Lemma item_status_spec (item : Item) :
  item_status item = if readable item then status_text item else None.
Proof.
  unfold item_status, item_columns, readable, status_text.
  destruct (column_values item) as [cvs|]; [|reflexivity].
  pose proof (column_loop_spec cvs (mkCol None NA NA)) as H.
  destruct (column_loop cvs (mkCol None NA NA)) as [st'|].
  - destruct H as [-> ->]. reflexivity.
  - now rewrite H.
Qed.

Lemma available_spec (item : Item) :
  available item = true <-> item_status item = Some STATUS_LABEL_NOT_USED.
Proof.
  rewrite item_status_spec. unfold available.
  destruct (readable item); rewrite ?andb_true_r, ?andb_false_r.
  - apply bool_decide_eq_true.
  - split; discriminate.
Qed.

Lemma available_false (item : Item) :
  available item = false <-> item_status item <> Some STATUS_LABEL_NOT_USED.
Proof.
  rewrite <- available_spec. destruct (available item); split; congruence.
Qed.

Lemma scan_items_none_inv (name : string) (rev_items : list Item) :
  scan_items name rev_items = ScanNone ->
  forall item, In item rev_items ->
    item_status item <> Some STATUS_LABEL_NOT_USED.
Proof.
  induction rev_items as [|it l IH]; simpl; [intros _ ? []|].
  destruct (item_id it) as [iid|]; [|discriminate].
  destruct (item_name it) as [code|]; [|discriminate].
  destruct (item_columns it) as [st|] eqn:Hc.
  - destruct (decide (status_val st = Some STATUS_LABEL_NOT_USED)) as [Hs|Hs];
      [discriminate|].
    intros H item [<-|Hin]; [|now apply IH].
    unfold item_status. now rewrite Hc.
  - intros H item [<-|Hin]; [|now apply IH].
    unfold item_status. now rewrite Hc.
Qed.

Lemma paginate_reads (group_id : string) (reply : PageReply)
    (pages : list (list Item)) (cursors : list string) (outcome : option string) :
  Reads reply pages cursors outcome ->
  forall (current_cursor : option string) (acc : list Item),
    paginate group_id current_cursor acc reply =
    (match outcome with
     | Some e => inl e
     | None => inr (acc ++ concat pages)
     end,
     map (CallItemsPage group_id) (current_cursor :: map Some cursors)).
Proof.
  induction 1 as [e|its|its c next Hc|its c next ps cs o Hc _ IH];
    intros cur acc; simpl.
  - reflexivity.
  - now rewrite app_nil_r.
  - now rewrite Hc, app_nil_r.
  - rewrite Hc, (IH (Some c) (acc ++ its)).
    destruct o; [reflexivity|]. now rewrite <- app_assoc.
Qed.

Lemma reads_total (reply : PageReply) :
  exists pages cursors outcome, Reads reply pages cursors outcome.
Proof.
  induction reply as [e|its|its c next (ps & cs & o & IH)].
  - do 3 eexists. constructor.
  - do 3 eexists. constructor.
  - destruct (PyStr.truthy c) eqn:Hc.
    + do 3 eexists. now apply ReadsMore; eauto.
    + do 3 eexists. now apply ReadsStop.
Qed.

Lemma find_in_group_any
    (fetch : string -> PageReply -> (string + list Item) * list Call)
    (group_map : gmap string string) (reply : PageReply) (group_id : string)
    (st : FindState) :
  items_found_details (find_in_group fetch group_map reply group_id st) =
    items_found_details st ++
    option_list (group_item fetch group_map reply group_id) /\
  global_error (find_in_group fetch group_map reply group_id st) =
    match group_error fetch group_map reply group_id with
    | Some e => set_global_error (global_error st) e
    | None => global_error st
    end.
Proof.
  unfold find_in_group, group_item, group_error.
  destruct (fetch group_id reply) as [[e|items] calls]; simpl.
  - now rewrite app_nil_r.
  - destruct (scan_group _ items); simpl; rewrite ?app_nil_r; auto.
Qed.

Lemma find_loop_any
    (fetch : string -> PageReply -> (string + list Item) * list Call)
    (replies : nat -> PageReply) (group_map : gmap string string)
    (group_ids : list string) (i : nat) (st : FindState) :
  items_found_details (find_loop fetch replies group_map i group_ids st) =
    items_found_details st ++ yielded_items fetch replies group_map i group_ids /\
  global_error (find_loop fetch replies group_map i group_ids st) =
    if PyStr.truthy_opt (global_error st) then global_error st
    else match first_group_error fetch replies group_map i group_ids with
         | Some e => Some ("Error during Monday.com processing: " +:+ e)
         | None => global_error st
         end.
Proof.
  revert i st. induction group_ids as [|g rest IH]; intros i st; simpl.
  - rewrite app_nil_r. now destruct (PyStr.truthy_opt (global_error st)).
  - destruct (find_in_group_any fetch group_map (replies i) g st) as [F1 F2].
    destruct (IH (S i) (find_in_group fetch group_map (replies i) g st))
      as [L1 L2].
    rewrite L1, L2, F1, F2. split; [now rewrite <- app_assoc|].
    destruct (group_error fetch group_map (replies i) g) as [e|].
    + unfold set_global_error.
      destruct (PyStr.truthy_opt (global_error st)) eqn:T.
      * now rewrite T.
      * reflexivity.
    + reflexivity.
Qed.

Lemma yielded_items_length
    (fetch : string -> PageReply -> (string + list Item) * list Call)
    (replies : nat -> PageReply) (group_map : gmap string string)
    (group_ids : list string) (i : nat) :
  length (yielded_items fetch replies group_map i group_ids) <= length group_ids.
Proof.
  revert i. induction group_ids as [|g rest IH]; intros i; simpl; [lia|].
  rewrite length_app. specialize (IH (S i)).
  destruct (group_item fetch group_map (replies i) g); simpl; lia.
Qed.

Lemma paginate_only_pages (group_id : string) (cursor : option string)
    (acc : list Item) (reply : PageReply) :
  forallb is_items_page (paginate group_id cursor acc reply).2 = true.
Proof.
  destruct (reads_total reply) as (ps & cs & o & H).
  rewrite (paginate_reads group_id reply ps cs o H). simpl. clear H.
  induction cs as [|c cs IH]; [reflexivity|exact IH].
Qed.

Lemma find_loop_only_pages (replies : nat -> PageReply)
    (group_map : gmap string string) (group_ids : list string) (i : nat)
    (st : FindState) :
  forallb is_items_page (find_calls st) = true ->
  forallb is_items_page
    (find_calls (find_loop fetch_all_pages replies group_map i group_ids st)) = true.
Proof.
  revert i st. induction group_ids as [|g rest IH]; intros i st H; simpl.
  - exact H.
  - apply IH. unfold find_in_group, fetch_all_pages.
    pose proof (paginate_only_pages g None [] (replies i)) as P.
    destruct (paginate g None [] (replies i)) as [[e|items] calls]; simpl in P.
    + simpl. rewrite forallb_app, H, P. reflexivity.
    + destruct (scan_group _ items); simpl; rewrite forallb_app, H, P;
        reflexivity.
Qed.

Lemma count_calls_app (p : Call -> bool) (a b : list Call) :
  count_calls p (a ++ b) = count_calls p a + count_calls p b.
Proof. unfold count_calls. now rewrite List.filter_app, length_app. Qed.

Lemma count_calls_none (p q : Call -> bool) (calls : list Call) :
  forallb q calls = true -> (forall c, q c = true -> p c = false) ->
  count_calls p calls = 0.
Proof.
  intros H Hq. unfold count_calls.
  induction calls as [|c calls IH]; [reflexivity|].
  simpl in H. apply andb_prop in H. destruct H as [H1 H2].
  simpl. rewrite (Hq c H1). now apply IH.
Qed.

Lemma count_concat_imap {A : Type} (p : Call -> bool)
    (g : nat -> A -> list Call) (l : list A) (k : nat) :
  (forall i d, count_calls p (g i d) <= k) ->
  count_calls p (concat (imap g l)) <= k * length l.
Proof.
  revert g. induction l as [|x l IH]; intros g H;
    [unfold count_calls; simpl; lia|].
  cbn [imap concat length]. rewrite count_calls_app.
  specialize (IH (g ∘ S) (fun i d => H (S i) d)). specialize (H 0 x).
  rewrite Nat.mul_succ_r. lia.
Qed.

Lemma count_concat_imap_eq {A : Type} (p : Call -> bool)
    (g : nat -> A -> list Call) (l : list A) :
  (forall i d, count_calls p (g i d) = 1) ->
  count_calls p (concat (imap g l)) = length l.
Proof.
  revert g. induction l as [|x l IH]; intros g H; [reflexivity|].
  cbn [imap concat length]. rewrite count_calls_app.
  rewrite (IH (g ∘ S) (fun i d => H (S i) d)), (H 0 x). lia.
Qed.

Lemma update_calls_shape (remote : Remote) (uid : option N)
    (items : list ItemDetail) :
  update_calls (update_items remote uid items) =
  concat (imap (item_calls remote uid) items).
Proof.
  destruct (UpdateFacts.update_loop_spec remote uid items 0 zero_counters)
    as (U1 & _).
  exact U1.
Qed.

(** The run of Monday-CRM.py with its trace, in its three ways to end. *)
Lemma run_shape (remote : Remote) (deal_id : string) (group_ids : list string)
    (group_map : gmap string string) (owner_email : option string)
    (uid : option N) :
  let found := find_items fetch_all_pages (items_reply remote) group_map group_ids in
  let items := sort_found (items_found_details found) in
  let content := MondayCRM.zendesk_note_content (map MondayCRM.note_entry items) in
  let run := MondayCRM.process_activation_request remote deal_id group_ids
               group_map owner_email uid in
  (items_found_details found = [] /\
   run = (Return AtNoItems false
            (MondayCRM.or_else (global_error found) (no_codes_message deal_id)),
          find_calls found)) \/
  (items_found_details found <> [] /\
   exists e, note_reply remote = NoteRaise e /\
     run = (Return AtNoteError false
              (MondayCRM.or_else (global_error found)
                 ("Failed to write note to Zendesk Deal ID " +:+ deal_id +:+
                  ": " +:+ e)),
            find_calls found ++ [CallCreateNote deal_id content])) \/
  (items_found_details found <> [] /\
   exists rid message tag_calls,
     note_reply remote = NoteCreated rid /\
     (tag_calls = [] \/ exists nid, tag_calls = [CallTagNote nid]) /\
     run = (Return AtSummary true message,
            find_calls found ++ (CallCreateNote deal_id content :: tag_calls) ++
            update_calls (update_items remote uid items))).
Proof.
  intros found items content run.
  assert (Hd : items_found_details found = [] \/
               items_found_details found <> []).
  { destruct (items_found_details found); [left|right]; congruence. }
  destruct Hd as [Hnil|Hne].
  { left. split; [exact Hnil|]. now apply RunFacts.run_no_items. }
  right. destruct (note_reply remote) as [e|rid] eqn:Hn.
  { left. split; [exact Hne|]. exists e. split; [reflexivity|].
    now apply RunFacts.run_note_error. }
  right. split; [exact Hne|].
  destruct (RunFacts.run_summary remote deal_id group_ids group_map owner_email
              uid rid Hne Hn) as (ns & ncalls & Hw & Hrun).
  fold found in Hw, Hrun. fold items in Hw, Hrun. fold content in Hw.
  fold run in Hrun.
  unfold MondayCRM.write_note in Hw. rewrite Hn in Hw. cbn [andb] in Hw.
  destruct (truthy_N rid); injection Hw as <- <-.
  - do 3 eexists. split; [reflexivity|]. split; [right; eauto|]. exact Hrun.
  - do 3 eexists. split; [reflexivity|]. split; [left; reflexivity|].
    exact Hrun.
Qed.

Lemma group_failure_is_isolated_aux (remote : Remote)
    (group_map : gmap string string) (group_ids : list string) :
  items_found_details
    (find_items fetch_all_pages (items_reply remote) group_map group_ids) =
    yielded_items fetch_all_pages (items_reply remote) group_map 0 group_ids /\
  global_error
    (find_items fetch_all_pages (items_reply remote) group_map group_ids) =
    match first_group_error fetch_all_pages (items_reply remote) group_map 0
            group_ids with
    | Some e => Some ("Error during Monday.com processing: " +:+ e)
    | None => None
    end.
Proof.
  destruct (find_loop_any fetch_all_pages (items_reply remote) group_map
              group_ids 0 (mkFind [] None [])) as [H1 H2].
  split; [exact H1|exact H2].
Qed.

(** ** Sorting, scanning and paging *)

(** X1. The sorted list of found items is a rearrangement of the found
    items, and in it no item comes before an item of smaller sort key. *)
Theorem priority_sort_orders_items (items_found_details : list ItemDetail) :
  Permutation (sort_found items_found_details) items_found_details /\
  forall before x after y,
    sort_found items_found_details = before ++ x :: after ->
    In y after -> get_sort_key x <= get_sort_key y.
Proof.
  split; [apply sort_found_perm|].
  intros before x after y H Hy.
  apply (key_sorted_split get_sort_key before after x y); [|exact Hy].
  rewrite <- H. apply sort_found_sorted.
Qed.

(** X2. The scan of a group takes the newest item that has the status text
    "Not used" and whose column values can be read: when it finds an item,
    that item has the status text, its columns are readable, every item
    fetched after it lacks the status or is unreadable, and the detail carries
    its id, its name as activation code and the display name of the group;
    when the items carry their [id] and [name], the scan finds an item as soon
    as one item is available; when it finds none, no item is available. An
    item with the status text "Not used" whose columns cannot be read (an
    entry that is no object, or a link value that parses to JSON other than an
    object) is skipped: the scan goes on to the items fetched before it. *)
Theorem scan_takes_newest_available (product_display_name : string)
    (items : list Item) :
  (forall d, scan_group product_display_name items = ScanFound d ->
     exists older item newer,
       items = older ++ item :: newer /\
       status_text item = Some STATUS_LABEL_NOT_USED /\
       readable item = true /\
       item_id item = Some (d_item_id d) /\
       item_name item = Some (d_code d) /\
       d_product d = product_display_name /\
       forall n, In n newer -> available n = false) /\
  (Forall item_has_keys items ->
   (exists item, In item items /\ available item = true) ->
   exists d, scan_group product_display_name items = ScanFound d) /\
  (scan_group product_display_name items = ScanNone ->
   forall item, In item items -> available item = false) /\
  (forall older item,
     Forall item_has_keys (older ++ [item]) ->
     status_text item = Some STATUS_LABEL_NOT_USED ->
     readable item = false ->
     scan_group product_display_name (older ++ [item]) =
     scan_group product_display_name older).
Proof.
  unfold scan_group. split; [|split; [|split]].
  - intros d H.
    destruct (scan_items_found _ _ _ H)
      as (newer & item & older & Hr & H1 & H2 & H3 & H4 & H5).
    exists (rev older), item, (rev newer).
    split.
    + rewrite <- (rev_involutive items), Hr, rev_app_distr. simpl.
      now rewrite <- app_assoc.
    + apply available_spec in H1. unfold available in H1.
      apply andb_true_iff in H1 as [Hs Hr'].
      apply bool_decide_eq_true in Hs.
      repeat split; auto.
      intros n Hn. apply available_false, H5. now apply in_rev.
  - intros Hk (item & Hin & Hs). apply available_spec in Hs.
    destruct (scan_items product_display_name (rev items)) as [d| |e] eqn:E.
    + now exists d.
    + exfalso. apply (scan_items_none_inv _ _ E item); [|exact Hs].
      now apply in_rev in Hin.
    + exfalso. revert E. apply scan_items_no_raise.
      now apply List.Forall_rev.
  - intros E item Hin. apply available_false.
    apply (scan_items_none_inv _ _ E). now apply in_rev in Hin.
  - intros older item Hk Hs Hr. rewrite rev_app_distr. cbn [rev app scan_items].
    apply List.Forall_app in Hk as [_ Hk]. inversion Hk as [|? ? [Hi Hn] _]; subst.
    destruct (item_id item) as [iid|]; [|congruence].
    destruct (item_name item) as [code|]; [|congruence].
    pose proof (item_status_spec item) as Hst. rewrite Hr in Hst.
    unfold item_status in Hst.
    destruct (item_columns item) as [st|]; [|reflexivity].
    rewrite Hst. destruct (decide _) as [D|D]; [discriminate|reflexivity].
Qed.

(** X3. Paging through a group reads the replies in order while they carry
    a truthy cursor: it issues one request per page read, the first without a
    cursor and each later one with the cursor of the page before; it returns
    the items of all pages read, in page order, or the exception of the page
    that failed, in which case the items read so far are dropped. *)
Theorem paging_reads_pages_in_order (group_id : string) (reply : PageReply) :
  exists pages cursors outcome,
    Reads reply pages cursors outcome /\
    fetch_all_pages group_id reply =
    (match outcome with
     | Some e => inl e
     | None => inr (concat pages)
     end,
     map (CallItemsPage group_id) (None :: map Some cursors)).
Proof.
  destruct (reads_total reply) as (ps & cs & o & H).
  exists ps, cs, o. split; [exact H|].
  unfold fetch_all_pages. now rewrite (paginate_reads group_id reply ps cs o H).
Qed.

(** ** Groups that fail *)

(** X4. In both implementations the loop over the groups collects exactly
    the items that the groups yield, in group order, whatever happens to the
    other groups: a group whose fetch or scan raises contributes nothing and
    does not stop the loop; and [global_error] is the message of the first
    group that raised, or [None] when none did. *)
Theorem group_failure_is_isolated
    (fetch : string -> PageReply -> (string + list Item) * list Call)
    (replies : nat -> PageReply) (group_map : gmap string string)
    (group_ids : list string) :
  items_found_details (find_items fetch replies group_map group_ids) =
    yielded_items fetch replies group_map 0 group_ids /\
  global_error (find_items fetch replies group_map group_ids) =
    match first_group_error fetch replies group_map 0 group_ids with
    | Some e => Some ("Error during Monday.com processing: " +:+ e)
    | None => None
    end.
Proof.
  destruct (find_loop_any fetch replies group_map group_ids 0 (mkFind [] None []))
    as [H1 H2].
  split; [exact H1|exact H2].
Qed.

(** X5. When a group raised in a run of Monday-CRM.py, its message is what
    the run returns if the run fails, whether no item was found or the note
    could not be written (the message of the note failure is then not
    shown); if an item was found and the note is created, the run succeeds. *)
Theorem group_error_masks_later_failures (remote : Remote) (deal_id : string)
    (group_ids : list string) (group_map : gmap string string)
    (owner_email : option string) (uid : option N) (e : string) :
  first_group_error fetch_all_pages (items_reply remote) group_map 0 group_ids =
    Some e ->
  let yielded :=
    yielded_items fetch_all_pages (items_reply remote) group_map 0 group_ids in
  let run := MondayCRM.process_activation_request remote deal_id group_ids
               group_map owner_email uid in
  let message := "Error during Monday.com processing: " +:+ e in
  (yielded = [] -> run.1 = Return AtNoItems false message) /\
  (yielded <> [] -> forall e', note_reply remote = NoteRaise e' ->
     run.1 = Return AtNoteError false message) /\
  (yielded <> [] -> forall rid, note_reply remote = NoteCreated rid ->
     exists summary, run.1 = Return AtSummary true summary).
Proof.
  intros He yielded run message.
  destruct (group_failure_is_isolated_aux remote group_map group_ids) as [H1 H2].
  rewrite He in H2.
  subst yielded run message.
  destruct (run_shape remote deal_id group_ids group_map owner_email uid)
    as [[Hnil Hrun]|[(Hne & e' & Hn & Hrun)|(Hne & rid & m & tc & Hn & _ & Hrun)]];
    rewrite Hrun; cbn [fst].
  - rewrite H1 in Hnil. rewrite H2.
    split; [reflexivity|]. split; intros Hy; contradiction.
  - rewrite H1 in Hne. rewrite H2.
    split; [intros Hy; contradiction|]. split.
    + intros _ e'' Hn'. reflexivity.
    + intros _ rid' Hn'. congruence.
  - rewrite H1 in Hne.
    split; [intros Hy; contradiction|]. split.
    + intros _ e'' Hn'. congruence.
    + intros _ rid' _. eauto.
Qed.

(** ** The trace of a run of Monday-CRM.py *)

Lemma find_calls_only_pages (remote : Remote) (group_map : gmap string string)
    (group_ids : list string) :
  forallb is_items_page
    (find_calls (find_items fetch_all_pages (items_reply remote) group_map
                   group_ids)) = true.
Proof. apply find_loop_only_pages. reflexivity. Qed.

Lemma update_calls_no (p : Call -> bool) (remote : Remote) (uid : option N)
    (items : list ItemDetail) :
  (forall c, is_mutation c = true -> p c = false) ->
  count_calls p (update_calls (update_items remote uid items)) = 0.
Proof.
  intros H. rewrite update_calls_shape.
  assert (L : count_calls p (concat (imap (item_calls remote uid) items))
              <= 0 * length items).
  { apply count_concat_imap. intros i d. unfold item_calls, count_calls.
    simpl. rewrite (H (CallSetStatus (d_item_id d)) eq_refl).
    destruct (attempted remote uid i); simpl; [|lia].
    rewrite (H (CallAssignPerson _ _) eq_refl). simpl. lia. }
  lia.
Qed.

(** X6. A run of Monday-CRM.py asks for the note to be created exactly once
    when at least one item was found, and never when none was found; and a
    run that found no item issues nothing but page requests. *)
Theorem note_written_only_for_found_items (remote : Remote) (deal_id : string)
    (group_ids : list string) (group_map : gmap string string)
    (owner_email : option string) (uid : option N) :
  let yielded :=
    yielded_items fetch_all_pages (items_reply remote) group_map 0 group_ids in
  let run := MondayCRM.process_activation_request remote deal_id group_ids
               group_map owner_email uid in
  (yielded = [] ->
     count_calls is_create_note run.2 = 0 /\
     forallb is_items_page run.2 = true) /\
  (yielded <> [] -> count_calls is_create_note run.2 = 1).
Proof.
  intros yielded run. subst yielded run.
  destruct (group_failure_is_isolated_aux remote group_map group_ids) as [H1 _].
  pose proof (find_calls_only_pages remote group_map group_ids) as Hp.
  assert (Hc0 : count_calls is_create_note
                  (find_calls (find_items fetch_all_pages (items_reply remote)
                                 group_map group_ids)) = 0).
  { apply (count_calls_none _ is_items_page); [exact Hp|].
    now intros []. }
  destruct (run_shape remote deal_id group_ids group_map owner_email uid)
    as [[Hnil Hrun]|[(Hne & e' & Hn & Hrun)|(Hne & rid & m & tc & Hn & Ht & Hrun)]];
    rewrite Hrun; cbn [snd]; rewrite H1 in *.
  - split; [|intros Hy; contradiction]. intros _. auto.
  - split; [intros Hy; contradiction|]. intros _.
    rewrite count_calls_app, Hc0. reflexivity.
  - split; [intros Hy; contradiction|]. intros _.
    rewrite !count_calls_app, Hc0.
    rewrite (update_calls_no is_create_note) by (now intros []).
    destruct Ht as [->|[nid ->]]; reflexivity.
Qed.

(** X7. A run of Monday-CRM.py finds at most one item per selected group, so
    it issues at most one status update per selected group, exactly one per
    found item when the note is created, and never more owner assignments
    than status updates. *)
Theorem at_most_one_update_per_group (remote : Remote) (deal_id : string)
    (group_ids : list string) (group_map : gmap string string)
    (owner_email : option string) (uid : option N) :
  let found := find_items fetch_all_pages (items_reply remote) group_map group_ids in
  let run := MondayCRM.process_activation_request remote deal_id group_ids
               group_map owner_email uid in
  length (items_found_details found) <= length group_ids /\
  count_calls is_set_status run.2 <= length group_ids /\
  count_calls is_assign_person run.2 <= count_calls is_set_status run.2 /\
  (forall rid, items_found_details found <> [] ->
     note_reply remote = NoteCreated rid ->
     count_calls is_set_status run.2 = length (items_found_details found)).
Proof.
  intros found run. subst found run.
  destruct (group_failure_is_isolated_aux remote group_map group_ids) as [H1 _].
  pose proof (yielded_items_length fetch_all_pages (items_reply remote)
                group_map group_ids 0) as Hlen.
  rewrite <- H1 in Hlen.
  pose proof (find_calls_only_pages remote group_map group_ids) as Hp.
  assert (Hs0 : count_calls is_set_status
                  (find_calls (find_items fetch_all_pages (items_reply remote)
                                 group_map group_ids)) = 0).
  { apply (count_calls_none _ is_items_page); [exact Hp|]. now intros []. }
  assert (Ha0 : count_calls is_assign_person
                  (find_calls (find_items fetch_all_pages (items_reply remote)
                                 group_map group_ids)) = 0).
  { apply (count_calls_none _ is_items_page); [exact Hp|]. now intros []. }
  split; [exact Hlen|].
  destruct (run_shape remote deal_id group_ids group_map owner_email uid)
    as [[Hnil Hrun]|[(Hne & e' & Hn & Hrun)|(Hne & rid & m & tc & Hn & Ht & Hrun)]];
    rewrite Hrun; cbn [snd].
  - rewrite Hs0, Ha0. repeat split; try lia. intros; contradiction.
  - rewrite !count_calls_app, Hs0, Ha0. cbn.
    repeat split; try lia. intros rid' _ Hn'. congruence.
  - rewrite !count_calls_app, Hs0, Ha0.
    assert (Hs : count_calls is_set_status
                   (update_calls
                      (update_items remote uid
                         (sort_found
                            (items_found_details
                               (find_items fetch_all_pages (items_reply remote)
                                  group_map group_ids))))) =
                 length (items_found_details
                           (find_items fetch_all_pages (items_reply remote)
                              group_map group_ids))).
    { rewrite update_calls_shape, count_concat_imap_eq;
        [apply sort_found_length|].
      intros i d. unfold item_calls, count_calls. simpl.
      now destruct (attempted remote uid i). }
    assert (Ha : count_calls is_assign_person
                   (update_calls
                      (update_items remote uid
                         (sort_found
                            (items_found_details
                               (find_items fetch_all_pages (items_reply remote)
                                  group_map group_ids))))) <=
                 length (items_found_details
                           (find_items fetch_all_pages (items_reply remote)
                              group_map group_ids))).
    { rewrite update_calls_shape, <- (sort_found_length (items_found_details _)).
      rewrite <- (Nat.mul_1_l (length (sort_found _))).
      apply count_concat_imap.
      intros i d. unfold item_calls, count_calls. simpl.
      destruct (attempted remote uid i); simpl; lia. }
    assert (Ht0 : count_calls is_set_status (CallCreateNote deal_id
                     (MondayCRM.zendesk_note_content
                        (map MondayCRM.note_entry
                           (sort_found
                              (items_found_details
                                 (find_items fetch_all_pages (items_reply remote)
                                    group_map group_ids))))) :: tc) = 0 /\
                  count_calls is_assign_person (CallCreateNote deal_id
                     (MondayCRM.zendesk_note_content
                        (map MondayCRM.note_entry
                           (sort_found
                              (items_found_details
                                 (find_items fetch_all_pages (items_reply remote)
                                    group_map group_ids))))) :: tc) = 0).
    { destruct Ht as [->|[nid ->]]; split; reflexivity. }
    destruct Ht0 as [T1 T2]. rewrite T1, T2, Hs.
    repeat split; try lia.
Qed.

(** X8. When a run of Monday-CRM.py found items, the note content that it
    sends to the CRM names, for every found item, its display name and its
    activation code. *)
Theorem note_lists_every_found_code (remote : Remote) (deal_id : string)
    (group_ids : list string) (group_map : gmap string string)
    (owner_email : option string) (uid : option N) :
  let found := find_items fetch_all_pages (items_reply remote) group_map group_ids in
  let run := MondayCRM.process_activation_request remote deal_id group_ids
               group_map owner_email uid in
  items_found_details found <> [] ->
  exists content,
    In (CallCreateNote deal_id content) run.2 /\
    forall d, In d (items_found_details found) ->
      PyStr.substring (d_product d) content /\
      PyStr.substring (d_code d) content.
Proof.
  intros found run Hne. subst found run.
  eexists. split.
  - destruct (run_shape remote deal_id group_ids group_map owner_email uid)
      as [[Hnil Hrun]|[(_ & e' & Hn & Hrun)|(_ & rid & m & tc & Hn & Ht & Hrun)]];
      [contradiction| |]; rewrite Hrun; cbn [snd];
      apply in_or_app; right; left; reflexivity.
  - intros d Hd.
    apply (Permutation_in _ (Permutation_sym (sort_found_perm _))) in Hd.
    assert (He : In (MondayCRM.note_entry d)
                   (map MondayCRM.note_entry
                      (sort_found
                         (items_found_details
                            (find_items fetch_all_pages (items_reply remote)
                               group_map group_ids))))) by now apply in_map.
    pose proof (SoftFailureFacts.join_has
                  (nl +:+ nl +:+ "-----------" +:+ nl +:+ nl) _ _ He) as Hj.
    assert (Hin : forall sub, PyStr.substring sub (MondayCRM.note_entry d) ->
              PyStr.substring sub
                (MondayCRM.zendesk_note_content
                   (map MondayCRM.note_entry
                      (sort_found
                         (items_found_details
                            (find_items fetch_all_pages (items_reply remote)
                               group_map group_ids)))))).
    { intros sub Hs. unfold MondayCRM.zendesk_note_content.
      do 3 apply StrFacts.substring_app_r.
      exact (MessageFacts.substring_trans _ _ _ Hs Hj). }
    split; apply Hin; unfold MondayCRM.note_entry.
    + apply StrFacts.substring_app_r, StrFacts.substring_app_l,
        StrFacts.substring_refl.
    + do 3 apply StrFacts.substring_app_r.
      apply StrFacts.substring_app_l, StrFacts.substring_refl.
Qed.

(** ** Backup.py *)

Lemma forallb_filter_all {A : Type} (p : A -> bool) (l : list A) :
  forallb p l = true -> List.filter p l = l.
Proof.
  induction l as [|x l IH]; simpl; [reflexivity|].
  intros H. apply andb_prop in H. destruct H as [-> H]. now rewrite IH.
Qed.

Lemma forallb_filter_none {A : Type} (p q : A -> bool) (l : list A) :
  forallb q l = true -> (forall x, q x = true -> p x = false) ->
  List.filter p l = [].
Proof.
  induction l as [|x l IH]; simpl; [reflexivity|].
  intros H Hq. apply andb_prop in H. destruct H as [H1 H2].
  rewrite (Hq x H1). now apply IH.
Qed.

Lemma forallb_concat_imap {A B : Type} (p : B -> bool)
    (g : nat -> A -> list B) (l : list A) :
  (forall i d, forallb p (g i d) = true) ->
  forallb p (concat (imap g l)) = true.
Proof.
  revert g. induction l as [|x l IH]; intros g H; [reflexivity|].
  cbn [imap concat]. rewrite forallb_app, (H 0 x). simpl.
  apply IH. intros i d. apply H.
Qed.

Lemma update_calls_all_mutations (remote : Remote) (uid : option N)
    (items : list ItemDetail) :
  forallb is_mutation (update_calls (update_items remote uid items)) = true.
Proof.
  rewrite update_calls_shape. apply forallb_concat_imap.
  intros i d. unfold item_calls. now destruct (attempted remote uid i).
Qed.

Lemma count_at_zero {A : Type} (P : nat -> bool) (l : list A) :
  count_at P l = 0 <-> forall i x, l !! i = Some x -> P i = false.
Proof.
  revert P. induction l as [|y l IH]; intros P.
  - split; [intros _ i x H; discriminate|reflexivity].
  - rewrite UpdateFacts.count_at_cons. split.
    + intros H i x Hi. destruct (P 0) eqn:E0; [lia|].
      destruct i as [|i]; [exact E0|].
      simpl in Hi. apply (proj1 (IH (fun j => P (S j)))) with (x := x);
        [lia|exact Hi].
    + intros H. rewrite (H 0 y eq_refl).
      rewrite (proj2 (IH (fun j => P (S j)))); [reflexivity|].
      intros i x Hi. apply (H (S i) x). exact Hi.
Qed.

Lemma or_else_truthy (global_error : option string) (msg : string) :
  PyStr.truthy msg = true ->
  PyStr.truthy (MondayCRM.or_else global_error msg) = true.
Proof.
  intros H. unfold MondayCRM.or_else.
  destruct global_error as [g|]; simpl; [|exact H].
  destruct (PyStr.truthy g) eqn:E; [exact E|exact H].
Qed.

Lemma backup_summary_flag (deal_id : string) (n_items : nat) (uid : option N)
    (owner_warning : option string) (c : Counters) :
  (Backup.summary deal_id n_items uid owner_warning c).1 =
    (monday_update_failures c =? 0)%nat /\
  PyStr.truthy (Backup.summary deal_id n_items uid owner_warning c).2 = true.
Proof.
  unfold Backup.summary.
  destruct (monday_update_failures c =? 0)%nat;
    destruct (truthy_N uid);
    destruct (monday_person_failures c =? 0)%nat;
    destruct (0 <? monday_person_successes c)%nat;
    destruct (PyStr.truthy_opt owner_warning);
    destruct (monday_update_error_msgs c);
    destruct (monday_person_error_msgs c);
    split; reflexivity.
Qed.

(** The run of Backup.py with its trace, once the owner is resolved. *)
Lemma backup_shape (remote : Remote) (deal_id : string)
    (group_ids : list string) (group_map : gmap string string)
    (email : string) (owner_error : option string) :
  owner_reply remote = (Some email, owner_error) ->
  PyStr.truthy_opt owner_error = false -> PyStr.truthy email = true ->
  let uid := ZENDESK_OWNER_EMAIL_TO_MONDAY_ID !! email in
  let found := find_items single_page (items_reply remote) group_map group_ids in
  let items := sort_found (items_found_details found) in
  let content := Backup.zendesk_note_content (map Backup.note_entry items) in
  let c := update_items remote uid items in
  let run := Backup.process_activation_request remote deal_id group_ids group_map in
  (items_found_details found = [] /\
   run = (Return AtNoItems false
            (MondayCRM.or_else (global_error found) (no_codes_message deal_id)),
          CallOwner deal_id :: find_calls found)) \/
  (items_found_details found <> [] /\
   exists e, note_reply remote = NoteRaise e /\
     run = (Return AtNoteError false
              (MondayCRM.or_else (global_error found)
                 ("Failed to write note to Zendesk Deal ID " +:+ deal_id +:+
                  ": " +:+ e)),
            CallOwner deal_id :: find_calls found ++
            [CallCreateNote deal_id content])) \/
  (items_found_details found <> [] /\
   exists rid,
     note_reply remote = NoteCreated rid /\
     run = (Return AtSummary (monday_update_failures c =? 0)%nat
              (Backup.summary deal_id (length items) uid
                 (Backup.owner_warning_of email uid) c).2,
            CallOwner deal_id :: find_calls found ++
            [CallCreateNote deal_id content] ++ update_calls c)).
Proof.
  intros Ho He Ht. cbv zeta.
  unfold Backup.process_activation_request.
  rewrite Ho, He. cbn [PyStr.truthy_opt negb]. rewrite Ht.
  cbn [negb]. change (default EmptyString (Some email)) with email.
  remember (find_items single_page (items_reply remote) group_map group_ids)
    as found eqn:Efound.
  assert (Hd : items_found_details found = [] \/
               items_found_details found <> []).
  { destruct (items_found_details found); [left|right]; congruence. }
  destruct Hd as [Hnil|Hne].
  { left. split; [exact Hnil|]. rewrite Hnil. reflexivity. }
  right.
  remember (sort_found (items_found_details found)) as items eqn:Eitems.
  destruct items as [|d0 l0].
  { exfalso. apply Hne. now apply (proj1 (sort_found_nil _)). }
  unfold Backup.write_note.
  destruct (note_reply remote) as [e|rid] eqn:Hn.
  - left. split; [exact Hne|]. exists e. split; reflexivity.
  - right. split; [exact Hne|].
    exists rid. split; [reflexivity|].
    pose proof (backup_summary_flag deal_id (length (d0 :: l0))
                  (ZENDESK_OWNER_EMAIL_TO_MONDAY_ID !! email)
                  (Backup.owner_warning_of email
                     (ZENDESK_OWNER_EMAIL_TO_MONDAY_ID !! email))
                  (update_items remote
                     (ZENDESK_OWNER_EMAIL_TO_MONDAY_ID !! email) (d0 :: l0)))
      as [Hflag _].
    destruct (Backup.summary deal_id (length (d0 :: l0))
                (ZENDESK_OWNER_EMAIL_TO_MONDAY_ID !! email)
                (Backup.owner_warning_of email
                   (ZENDESK_OWNER_EMAIL_TO_MONDAY_ID !! email))
                (update_items remote
                   (ZENDESK_OWNER_EMAIL_TO_MONDAY_ID !! email) (d0 :: l0)))
      as [ok msg].
    cbn [fst snd] in *. now rewrite Hflag.
Qed.

(** X9. In Backup.py a run that found items and created the note returns
    [True] exactly when every status update succeeded: one failed status
    update makes the run fail, while the replies to the owner assignments
    have no influence on the flag. *)
Theorem backup_fails_exactly_on_status_failure (remote : Remote)
    (deal_id : string) (group_ids : list string)
    (group_map : gmap string string) (email : string) (rid : option N) :
  owner_reply remote = (Some email, None) ->
  PyStr.truthy email = true ->
  items_found_details
    (find_items single_page (items_reply remote) group_map group_ids) <> [] ->
  note_reply remote = NoteCreated rid ->
  let items :=
    sort_found
      (items_found_details
         (find_items single_page (items_reply remote) group_map group_ids)) in
  exists ok message,
    (Backup.process_activation_request remote deal_id group_ids group_map).1 =
      Return AtSummary ok message /\
    (ok = true <->
     forall i d, items !! i = Some d -> status_reply remote i = MutOk).
Proof.
  intros Ho Ht Hne Hn items.
  destruct (backup_shape remote deal_id group_ids group_map email None Ho
              eq_refl Ht)
    as [[Hnil _]|[(_ & e & Hn' & _)|(_ & rid' & _ & Hrun)]];
    [contradiction|congruence|].
  rewrite Hrun. do 2 eexists. split; [reflexivity|].
  rewrite Nat.eqb_eq.
  destruct (UpdateFacts.update_loop_spec remote
              (ZENDESK_OWNER_EMAIL_TO_MONDAY_ID !! email) items 0 zero_counters)
    as (_ & _ & U3 & _).
  fold (update_items remote (ZENDESK_OWNER_EMAIL_TO_MONDAY_ID !! email) items) in U3.
  cbn [zero_counters monday_update_failures Nat.add] in U3.
  fold items. rewrite U3, count_at_zero.
  split; intros H i d Hi; specialize (H i d Hi).
  - now destruct (status_reply remote i).
  - now rewrite H.
Qed.

(** X10. [process_activation_request] of Backup.py always returns, at the
    owner check, at the no-items branch, in the handler of the note block or
    with the summary: its last statement, which would read the unbound
    [zendesk_error_msg], is never reached; and every failure carries a
    non-empty message. *)
Theorem backup_always_returns (remote : Remote) (deal_id : string)
    (group_ids : list string) (group_map : gmap string string) :
  exists site ok message,
    (Backup.process_activation_request remote deal_id group_ids group_map).1 =
      Return site ok message /\
    site <> AtFallback /\
    (ok = false -> PyStr.truthy message = true).
Proof.
  destruct (owner_reply remote) as [oe err] eqn:Ho.
  destruct (PyStr.truthy_opt err) eqn:Eerr.
  { unfold Backup.process_activation_request. rewrite Ho, Eerr.
    do 3 eexists. split; [reflexivity|]. split; [discriminate|].
    intros _. destruct err as [e|]; [exact Eerr|discriminate]. }
  destruct (PyStr.truthy_opt oe) eqn:Eoe.
  2:{ unfold Backup.process_activation_request. rewrite Ho, Eerr, Eoe.
      do 3 eexists. split; [reflexivity|]. split; [discriminate|].
      intros _. reflexivity. }
  destruct oe as [email|]; [|discriminate].
  destruct (backup_shape remote deal_id group_ids group_map email err Ho Eerr Eoe)
    as [[_ Hrun]|[(_ & e & _ & Hrun)|(_ & rid' & _ & Hrun)]];
    rewrite Hrun; do 3 eexists; (split; [reflexivity|]);
    (split; [discriminate|]); intros Hok.
  - apply or_else_truthy. reflexivity.
  - apply or_else_truthy. reflexivity.
  - apply backup_summary_flag.
Qed.

Lemma single_page_agrees (group_id : string) (reply : PageReply) :
  one_page reply -> single_page group_id reply = fetch_all_pages group_id reply.
Proof. destruct reply; [reflexivity|reflexivity|contradiction]. Qed.

Lemma find_loop_agrees (replies : nat -> PageReply)
    (group_map : gmap string string) (group_ids : list string) (i : nat)
    (st : FindState) :
  (forall j, one_page (replies j)) ->
  find_loop single_page replies group_map i group_ids st =
  find_loop fetch_all_pages replies group_map i group_ids st.
Proof.
  intros H. revert i st. induction group_ids as [|g rest IH]; intros i st;
    simpl; [reflexivity|].
  rewrite IH. f_equal. unfold find_in_group.
  now rewrite (single_page_agrees g (replies i) (H i)).
Qed.

(** X11. On replies in which every group fits in one page and the owner is
    resolved, the two implementations do the same work: they end at the same
    return statement and issue the same board mutations in the same order;
    Backup.py returns [True] exactly when Monday-CRM.py does and no status
    update failed. *)
Theorem implementations_agree_on_work (remote : Remote) (deal_id : string)
    (group_ids : list string) (group_map : gmap string string)
    (email : string) :
  owner_reply remote = (Some email, None) ->
  PyStr.truthy email = true ->
  (forall i, one_page (items_reply remote i)) ->
  let uid := ZENDESK_OWNER_EMAIL_TO_MONDAY_ID !! email in
  let c :=
    update_items remote uid
      (sort_found
         (items_found_details
            (find_items fetch_all_pages (items_reply remote) group_map
               group_ids))) in
  let new := MondayCRM.process_activation_request remote deal_id group_ids
               group_map (Some email) uid in
  let old := Backup.process_activation_request remote deal_id group_ids
               group_map in
  List.filter is_mutation old.2 = List.filter is_mutation new.2 /\
  exists site ok_new message_new message_old,
    new.1 = Return site ok_new message_new /\
    old.1 = Return site (ok_new && (monday_update_failures c =? 0)%nat)
              message_old.
Proof.
  intros Ho Ht Hone. cbv zeta.
  assert (Hf : find_items single_page (items_reply remote) group_map group_ids =
               find_items fetch_all_pages (items_reply remote) group_map
                 group_ids).
  { unfold find_items. now apply find_loop_agrees. }
  pose proof (find_calls_only_pages remote group_map group_ids) as Hp.
  assert (Hfm : List.filter is_mutation
                  (find_calls (find_items fetch_all_pages (items_reply remote)
                                 group_map group_ids)) = []).
  { apply (forallb_filter_none _ is_items_page); [exact Hp|]. now intros []. }
  pose proof (backup_shape remote deal_id group_ids group_map email None Ho
                eq_refl Ht) as B.
  cbv zeta in B. rewrite Hf in B.
  pose proof (run_shape remote deal_id group_ids group_map (Some email)
                (ZENDESK_OWNER_EMAIL_TO_MONDAY_ID !! email)) as M.
  cbv zeta in M.
  destruct M as [[Hnil Hm]|[(Hne & e & Hn & Hm)|(Hne & rid & m & tc & Hn & Ht' & Hm)]];
    destruct B as [[Hnil' Hb]|[(Hne' & e' & Hn' & Hb)|(Hne' & rid' & Hn' & Hb)]];
    try contradiction; try congruence; rewrite Hm, Hb; cbn [fst snd].
  - split.
    + cbn [List.filter is_mutation]. reflexivity.
    + do 4 eexists. split; reflexivity.
  - split.
    + cbn [List.filter is_mutation]. rewrite !List.filter_app, Hfm.
      reflexivity.
    + do 4 eexists. split; reflexivity.
  - split.
    + cbn [List.filter is_mutation]. rewrite !List.filter_app, Hfm.
      destruct Ht' as [->|[nid ->]]; reflexivity.
    + do 4 eexists. split; reflexivity.
Qed.

(** ** The wizard *)

Lemma truthy_app_l (a b : string) :
  PyStr.truthy a = true -> PyStr.truthy (a +:+ b) = true.
Proof. destruct a; [discriminate|reflexivity]. Qed.

Lemma fold_left_truthy (f : string -> string) (parts : list string)
    (init : string) :
  PyStr.truthy init = true ->
  PyStr.truthy (fold_left (fun m part => m +:+ f part) parts init) = true.
Proof.
  revert init. induction parts as [|p parts IH]; intros init H; simpl.
  - exact H.
  - apply IH. now apply truthy_app_l.
Qed.

Lemma final_message_truthy (success_parts failure_parts : list string) :
  PyStr.truthy (MondayCRM.final_message_of success_parts failure_parts) = true.
Proof.
  unfold MondayCRM.final_message_of.
  assert (H : PyStr.truthy
    (fold_left (fun m part => m +:+ "<li>✅ " +:+ part +:+ "</li>")
       success_parts "<b>Process Summary:</b><ul>" +:+ "</ul>") = true).
  { apply truthy_app_l.
    apply (fold_left_truthy (fun part => "<li>✅ " +:+ part +:+ "</li>")).
    reflexivity. }
  destruct failure_parts as [|p l]; [exact H|].
  apply truthy_app_l.
  apply (fold_left_truthy MondayCRM.failure_item).
  now apply truthy_app_l.
Qed.

Lemma monday_run_returns (remote : Remote) (deal_id : string)
    (group_ids : list string) (group_map : gmap string string)
    (owner_email : option string) (uid : option N) :
  exists site ok message,
    (MondayCRM.process_activation_request remote deal_id group_ids group_map
       owner_email uid).1 = Return site ok message /\
    (ok = true -> site = AtSummary) /\
    PyStr.truthy message = true.
Proof.
  destruct (run_shape remote deal_id group_ids group_map owner_email uid)
    as [[Hnil Hrun]|[(Hne & e & Hn & Hrun)|(Hne & rid & m & tc & Hn & _ & _)]].
  - rewrite Hrun. do 3 eexists. split; [reflexivity|].
    split; [discriminate|]. apply or_else_truthy. reflexivity.
  - rewrite Hrun. do 3 eexists. split; [reflexivity|].
    split; [discriminate|]. apply or_else_truthy. reflexivity.
  - destruct (RunFacts.run_summary remote deal_id group_ids group_map
                owner_email uid rid Hne Hn) as (ns & ncalls & _ & Hrun).
    rewrite Hrun. do 3 eexists. split; [reflexivity|].
    split; [reflexivity|]. apply final_message_truthy.
Qed.

(** X12. For an ASCII input, the wizard moves at step 1 on to step 2 only
    for a deal id made of digits whose owner was resolved: the session then
    holds the stripped deal id and the resolved, non-empty owner email, no
    group is selected yet, and the owner lookup and the group fetch are the
    only remote calls. In every other case it stays at step 1 and shows an
    error, with at most the owner lookup and the group fetch issued. The
    input is taken ASCII because [str.strip] and [str.isdigit] also accept
    white space and digits beyond ASCII, which the model does not have. *)
Theorem step1_advances_only_with_owner (remote : Remote) (st : Session)
    (deal_id_input : string) :
  ss_current_step st = 1 ->
  isascii deal_id_input = true ->
  let deal_id := PyStr.strip deal_id_input in
  let r := Wizard.step1_submit remote st deal_id_input in
  (ss_current_step r.1 = 2 /\
   PyStr.isdigit deal_id = true /\
   ss_deal_id r.1 = deal_id /\
   ss_owner_email r.1 = (owner_reply remote).1 /\
   PyStr.truthy_opt (ss_owner_email r.1) = true /\
   PyStr.truthy_opt (owner_reply remote).2 = false /\
   ss_selected_groups r.1 = [] /\
   ss_all_groups r.1 = default [] (groups_reply remote).1 /\
   r.2 = [CallOwner deal_id; CallGroups]) \/
  (ss_current_step r.1 = 1 /\
   PyStr.truthy_opt (ss_show_error r.1) = true /\
   ss_all_groups r.1 = ss_all_groups st /\
   ss_note_written r.1 = ss_note_written st /\
   (r.2 = [] \/ r.2 = [CallOwner deal_id] \/
    r.2 = [CallOwner deal_id; CallGroups])).
Proof.
  intros Hstep _. cbv zeta. unfold Wizard.step1_submit.
  destruct (PyStr.isdigit (PyStr.strip deal_id_input)) eqn:Hd; cbn [negb].
  2:{ right. simpl. repeat split; auto. }
  destruct (owner_reply remote) as [email err]. cbn [fst snd].
  destruct (PyStr.truthy_opt err) eqn:Eerr.
  { right. simpl. repeat split; auto. }
  destruct (PyStr.truthy_opt email) eqn:Eem; cbn [negb].
  2:{ right. simpl. repeat split; auto. }
  destruct (groups_reply remote) as [[groups|] gerr]; cbn [fst snd].
  - left. simpl. repeat split; auto.
  - destruct (PyStr.truthy_opt gerr) eqn:Eg.
    + right. simpl. repeat split; auto.
    + left. simpl. repeat split; auto.
Qed.

(** X13. A run started from step 2 with a selection always ends with the
    [processing] flag cleared. When the run succeeds the wizard is at step 3
    with [note_written] true, and the result page shows the summary; when it
    fails the wizard stays at its step with [note_written] false and the
    non-empty failure message as error to show, so the error branch of the
    result page is not reached after a run. *)
Theorem step2_outcome (remote : Remote) (st : Session) :
  ss_current_step st = 2 ->
  ss_selected_groups st <> [] ->
  let r := Wizard.step2_proceed remote st in
  ss_processing r.1 = false /\
  ((exists summary,
      ss_current_step r.1 = 3 /\ ss_note_written r.1 = Some true /\
      ss_success_message r.1 = Some summary /\ ss_show_error r.1 = None /\
      PyStr.truthy summary = true /\
      (WizardMore.step3_view r.1).1 = WizardMore.ViewSuccess (Some summary)) \/
   (exists message,
      ss_current_step r.1 = 2 /\ ss_note_written r.1 = Some false /\
      ss_success_message r.1 = None /\ ss_show_error r.1 = Some message /\
      PyStr.truthy message = true)).
Proof.
  intros Hstep Hsel. cbv zeta. unfold Wizard.step2_proceed.
  destruct (ss_selected_groups st) as [|t ts] eqn:Es; [contradiction|].
  rewrite <- Es.
  set (ids := map g_id (List.filter (title_in (ss_selected_groups st))
                          (ss_all_groups st))).
  set (gm := selection_map (List.filter (title_in (ss_selected_groups st))
                              (ss_all_groups st))).
  set (uid := match ss_owner_email st with
              | Some e => ZENDESK_OWNER_EMAIL_TO_MONDAY_ID !! e
              | None => None
              end).
  destruct (monday_run_returns remote (ss_deal_id st) ids gm
              (ss_owner_email st) uid) as (site & ok & m & Hrun & Hs & Hm).
  destruct (MondayCRM.process_activation_request remote (ss_deal_id st) ids gm
              (ss_owner_email st) uid) as [out calls].
  cbn [fst] in Hrun. subst out.
  destruct ok; cbn [fst].
  - split; [reflexivity|]. left.
    exists m. unfold WizardMore.step3_view. simpl. rewrite Hm.
    repeat split; auto.
  - split; [reflexivity|]. right. exists m. simpl.
    rewrite Hstep. repeat split; auto.
Qed.

Lemma title_in_spec (titles : list string) (g : Group) :
  title_in titles g = true <-> In (g_title g) titles.
Proof.
  unfold title_in. rewrite existsb_exists. split.
  - intros (t & Hin & He). apply String.eqb_eq in He. now subst t.
  - intros H. exists (g_title g). split; [exact H|apply String.eqb_refl].
Qed.

Lemma selection_map_lookup (groups : list Group) (m : gmap string string)
    (k : string) :
  is_Some (m !! k) \/ (exists g, In g groups /\ g_id g = k) ->
  is_Some (fold_left (fun m g => <[g_id g := g_title g]> m) groups m !! k).
Proof.
  revert m. induction groups as [|g groups IH]; intros m H; simpl.
  - destruct H as [H|(g & [] & _)]. exact H.
  - apply IH. destruct (decide (g_id g = k)) as [E|E].
    + left. rewrite <- E, lookup_insert_eq. eauto.
    + destruct H as [H|(g' & [->|Hin] & Hk)].
      * left. now rewrite lookup_insert_ne.
      * contradiction.
      * right. eauto.
Qed.

(** X14. "Proceed" selects by title: a group of the board is processed
    exactly when its title is the title of a ticked group, so a group that
    shares its title with a ticked group is processed too; when the titles of
    the board are pairwise distinct the groups processed are exactly the
    ticked ones, in board order; and the map handed to the run has a title
    for every selected id, so the fallback title "Group ID ..." is not
    used. *)
Theorem proceed_selects_by_title (is_checked : string -> bool)
    (all_groups : list Group) :
  let selected_titles := WizardMore.tick is_checked all_groups in
  let chosen := WizardMore.chosen_groups selected_titles all_groups in
  (forall g, In g chosen <->
     In g all_groups /\
     exists g', In g' all_groups /\ is_checked (g_id g') = true /\
                g_title g' = g_title g) /\
  (List.NoDup (map g_title all_groups) ->
   chosen = List.filter (fun g => is_checked (g_id g)) all_groups) /\
  (forall group_id, In group_id (map g_id chosen) ->
     is_Some (selection_map chosen !! group_id)).
Proof.
  cbv zeta. unfold WizardMore.chosen_groups, WizardMore.tick.
  assert (Hsel : forall g,
    title_in (map g_title (List.filter (fun g => is_checked (g_id g)) all_groups)) g
      = true <->
    exists g', In g' all_groups /\ is_checked (g_id g') = true /\
               g_title g' = g_title g).
  { intros g. rewrite title_in_spec, in_map_iff. split.
    - intros (g' & Ht & Hin). apply List.filter_In in Hin. destruct Hin.
      exists g'. auto.
    - intros (g' & Hin & Hc & Ht). exists g'. split; [exact Ht|].
      apply List.filter_In. auto. }
  split; [|split].
  - intros g. rewrite List.filter_In, Hsel. reflexivity.
  - intros Hnd. apply List.filter_ext_in. intros g Hg.
    destruct (is_checked (g_id g)) eqn:Ec.
    + apply Hsel. exists g. auto.
    + destruct (title_in _ g) eqn:Et; [|reflexivity].
      apply Hsel in Et. destruct Et as (g' & Hin' & Hc' & Ht').
      assert (g' = g); [|congruence].
      clear -Hnd Hin' Hg Ht'. induction all_groups as [|x l IH]; [contradiction|].
      simpl in Hnd. apply List.NoDup_cons_iff in Hnd. destruct Hnd as [Hx Hnd].
      destruct Hin' as [->|Hin'], Hg as [->|Hg]; auto.
      * exfalso. apply Hx. rewrite Ht'. now apply in_map.
      * exfalso. apply Hx. rewrite <- Ht'. now apply in_map.
  - intros gid Hin. apply in_map_iff in Hin. destruct Hin as (g & <- & Hg).
    unfold selection_map. apply selection_map_lookup. right. eauto.
Qed.

(** X15. A wizard restarted with [reset_app] behaves at step 1 like a fresh
    one: for every earlier session the step-1 handler issues the same calls
    and leaves the same step, deal id, error, groups and selection as from
    the initial session; [reset_app] keeps the owner email of the earlier
    deal, but whenever step 2 is reached the session holds the owner email
    resolved for the new deal. *)
Theorem reset_behaves_like_fresh (remote : Remote) (st : Session)
    (deal_id_input : string) :
  let a := Wizard.step1_submit remote (WizardMore.reset_app st) deal_id_input in
  let b := Wizard.step1_submit remote initial_session deal_id_input in
  ss_owner_email (WizardMore.reset_app st) = ss_owner_email st /\
  a.2 = b.2 /\
  ss_current_step a.1 = ss_current_step b.1 /\
  ss_deal_id a.1 = ss_deal_id b.1 /\
  ss_show_error a.1 = ss_show_error b.1 /\
  ss_all_groups a.1 = ss_all_groups b.1 /\
  ss_selected_groups a.1 = ss_selected_groups b.1 /\
  ss_note_written a.1 = ss_note_written b.1 /\
  (ss_current_step a.1 = 2 ->
   ss_owner_email a.1 = (owner_reply remote).1 /\
   ss_owner_email a.1 = ss_owner_email b.1).
Proof.
  cbv zeta. unfold Wizard.step1_submit.
  destruct (PyStr.isdigit (PyStr.strip deal_id_input)); cbn [negb].
  2:{ simpl. repeat split; auto; discriminate. }
  destruct (owner_reply remote) as [email err]. cbn [fst snd].
  destruct (PyStr.truthy_opt err).
  { simpl. repeat split; auto; discriminate. }
  destruct (PyStr.truthy_opt email); cbn [negb].
  2:{ simpl. repeat split; auto; discriminate. }
  destruct (groups_reply remote) as [[groups|] gerr].
  - simpl. repeat split; auto.
  - destruct (PyStr.truthy_opt gerr); simpl; repeat split; auto; discriminate.
Qed.

(** ** Display names *)

Lemma regex_prefixes_good : Forall good_prefix REGEX_PREFIX_ORDER.
Proof.
  unfold REGEX_PREFIX_ORDER.
  repeat (apply List.Forall_cons;
          [split; [discriminate|]; split; [reflexivity|];
           eexists; split; [vm_compute; reflexivity|];
           split; [reflexivity|simpl; auto 10]|]).
  apply List.Forall_nil.
Qed.

Lemma display_loop_shape (prefixes : list string) (title : string) :
  Forall good_prefix prefixes ->
  display_name_loop prefixes title = title \/
  exists prefix base v,
    In prefix prefixes /\ BASE_PRODUCT_MAPPING !! prefix = Some base /\
    In base base_names /\ Token.token_at prefix title v /\
    display_name_loop prefixes title = base +:+ " " +:+ v.
Proof.
  induction 1 as [|prefix rest (Hne & Hup & base & Hb & Ht & Hin) _ IH].
  - now left.
  - destruct (Regex.search prefix title) as [[g v]|] eqn:E.
    + right.
      destruct (SearchFacts.search_is_token prefix Hne Hup _ _ _ E) as [Htok Hu].
      exists prefix, base, v. split; [now left|]. split; [exact Hb|].
      split; [exact Hin|]. split; [exact Htok|].
      apply (display_name_first_match _ _ _ g); [exact E| |exact Ht].
      now rewrite Hu.
    + rewrite (display_name_no_match _ _ _ E).
      destruct IH as [IH|(p & b & v & Hp & H1 & H2 & H3 & H4)]; [now left|].
      right. exists p, b, v. split; [now right|]. auto.
Qed.

Lemma contains_space_cons (c : ascii) (s : string) :
  Ascii.eqb c " " = false ->
  PyStr.contains " " (String c s) = PyStr.contains " " s.
Proof.
  intros H. destruct (Ascii.ascii_dec c " ") as [->|Hne]; [discriminate|].
  destruct c as [[] [] [] [] [] [] [] []]; try reflexivity.
  now contradiction Hne.
Qed.

Lemma digits_no_space (v : string) :
  PyStr.all_digits v = true -> PyStr.contains " " v = false.
Proof.
  induction v as [|c v IH]; [reflexivity|].
  simpl PyStr.all_digits. intros H. apply andb_prop in H. destruct H as [Hc Hv].
  rewrite contains_space_cons; [now apply IH|].
  destruct (RegexFacts.digit_facts _ Hc) as (_ & Hs & _).
  destruct (Ascii.eqb c " ") eqn:E; [|reflexivity].
  apply Ascii.eqb_eq in E. subst c. discriminate.
Qed.

Lemma split_from_word (cur w rest : string) :
  PyStr.contains " " w = false ->
  PyStr.split_from cur (w +:+ String " " rest) =
  (cur +:+ w) :: PyStr.split_from EmptyString rest.
Proof.
  revert cur. induction w as [|c w IH]; intros cur H.
  - rewrite StrFacts.app_nil_l, StrFacts.app_nil_r. reflexivity.
  - apply StrFacts.contains_cons_false in H. destruct H as [Hc Hw].
    rewrite StrFacts.app_cons. simpl. rewrite Hc, (IH _ Hw).
    now rewrite StrFacts.app_assoc.
Qed.

Lemma split_from_nospace (cur w : string) :
  PyStr.contains " " w = false -> PyStr.split_from cur w = [cur +:+ w].
Proof.
  revert cur. induction w as [|c w IH]; intros cur H.
  - now rewrite StrFacts.app_nil_r.
  - apply StrFacts.contains_cons_false in H. destruct H as [Hc Hw].
    simpl. rewrite Hc, (IH _ Hw). now rewrite StrFacts.app_assoc.
Qed.

Lemma isdigit_digits (v : string) :
  v <> EmptyString -> PyStr.all_digits v = true -> PyStr.isdigit v = true.
Proof. destruct v; [congruence|auto]. Qed.

(** The base name of a product name followed by a version is that name. *)
Lemma base_name_of_product (base v : string) :
  In base base_names -> v <> EmptyString -> PyStr.all_digits v = true ->
  base_name_of (base +:+ " " +:+ v) = base.
Proof.
  intros Hin Hne Hd.
  pose proof (isdigit_digits v Hne Hd) as Hi.
  pose proof (digits_no_space v Hd) as Hs.
  unfold base_name_of, PyStr.split_space.
  assert (one : forall w, PyStr.contains " " w = false ->
            PyStr.isdigit w = false ->
            PyStr.join " "
              (base_name_parts
                 (PyStr.split_from EmptyString (w +:+ String " " v))) = w).
  { intros w Hw Hwd. rewrite (split_from_word _ _ _ Hw).
    rewrite (split_from_nospace _ _ Hs). rewrite !StrFacts.app_nil_l.
    simpl. now rewrite Hwd, Hi. }
  simpl in Hin.
  destruct Hin as [<-|[<-|[<-|[<-|[<-|[]]]]]];
    [exact (one "FilmPack" eq_refl eq_refl)
    |exact (one "ViewPoint" eq_refl eq_refl)
    |exact (one "PureRaw" eq_refl eq_refl)
    |exact (one "PhotoLab" eq_refl eq_refl)|].
  change ("Nik Collection" +:+ " " +:+ v)
    with ("Nik" +:+ String " " ("Collection" +:+ String " " v)).
  rewrite (split_from_word _ "Nik" _ eq_refl).
  rewrite (split_from_word _ "Collection" _ eq_refl).
  rewrite (split_from_nospace _ _ Hs). rewrite !StrFacts.app_nil_l.
  simpl. now rewrite Hi.
Qed.

(** X16. The display name of an ASCII group title is the title itself or
    one of the five product names followed by a space and the version digits
    of a token of the title; in the second case the sort key of the display
    name is the priority of that product, so every mapped group sorts before
    the groups of default priority. The title is taken ASCII because the
    pattern also matches digits, white space and word boundaries beyond
    ASCII, which [Token.token_at] does not have. *)
Theorem display_name_is_product_and_version (group_title : string) :
  isascii group_title = true ->
  get_product_display_name group_title = group_title \/
  exists prefix base v priority,
    In prefix REGEX_PREFIX_ORDER /\
    BASE_PRODUCT_MAPPING !! prefix = Some base /\
    Token.token_at prefix group_title v /\
    get_product_display_name group_title = base +:+ " " +:+ v /\
    PRODUCT_ORDER_PRIORITY !! base = Some priority /\
    sort_key_of_name (get_product_display_name group_title) = priority /\
    priority < DEFAULT_PRIORITY.
Proof.
  intros _.
  destruct (display_loop_shape REGEX_PREFIX_ORDER group_title regex_prefixes_good)
    as [H|(prefix & base & v & Hp & Hb & Hin & Htok & H)]; [now left|].
  right. unfold get_product_display_name. rewrite H.
  assert (Hv : v <> EmptyString /\ PyStr.all_digits v = true).
  { destruct Htok as (pre & tok & sep & post & _ & _ & _ & _ & Hne & Hd & _).
    auto. }
  destruct Hv as [Hne Hd].
  assert (Hpr : exists priority, PRODUCT_ORDER_PRIORITY !! base = Some priority).
  { simpl in Hin.
    destruct Hin as [<-|[<-|[<-|[<-|[<-|[]]]]]]; eexists; vm_compute;
      reflexivity. }
  destruct Hpr as [priority Hpr].
  exists prefix, base, v, priority.
  repeat split; auto.
  - unfold sort_key_of_name. rewrite (base_name_of_product base v Hin Hne Hd).
    now rewrite Hpr.
  - now apply (priority_below_default base).
Qed.

Lemma search_from_step (prefix : string) (before : option ascii) (c : ascii)
    (s : string) :
  Regex.match_here prefix before (String c s) = None ->
  Regex.search_from prefix before (String c s) =
  Regex.search_from prefix (Some c) s.
Proof. intros H. simpl. now rewrite H. Qed.

(** No prefix matches inside a run of digits. *)
Lemma search_from_digits (prefix : string) (before : option ascii) (v : string) :
  prefix <> EmptyString -> Token.all_upper prefix = true ->
  PyStr.all_digits v = true ->
  Regex.search_from prefix before v = None.
Proof.
  intros Hne Hup. destruct prefix as [|p prefix]; [congruence|].
  simpl in Hup. apply andb_prop in Hup. destruct Hup as [Hp _].
  revert before. induction v as [|c v IH]; intros before Hd.
  - simpl. unfold Regex.match_here. simpl.
    now destruct (Regex.word_boundary before None).
  - simpl in Hd. apply andb_prop in Hd. destruct Hd as [Hc Hv].
    rewrite search_from_step; [now apply IH|].
    unfold Regex.match_here.
    destruct (Regex.word_boundary before (PyStr.head (String c v)));
      [|reflexivity].
    simpl. destruct (Regex.ci_eq p c) eqn:E; [|reflexivity].
    exfalso. destruct (RegexFacts.ci_facts _ _ Hp E) as [_ Hu].
    unfold PyStr.upper in Hu.
    assert (Hl : PyStr.is_lower c = false).
    { clear -Hc. unfold PyStr.is_digit, PyStr.is_lower, PyStr.in_range in *.
      apply andb_prop in Hc. destruct Hc as [_ Hc]. apply Nat.leb_le in Hc.
      apply andb_false_iff. left. apply Nat.leb_gt. lia. }
    rewrite Hl in Hu. subst p.
    clear -Hc Hp. unfold PyStr.is_digit, PyStr.is_upper, PyStr.in_range in *.
    apply andb_prop in Hc, Hp. destruct Hc as [_ Hc], Hp as [Hp _].
    apply Nat.leb_le in Hc, Hp. lia.
Qed.

Ltac walk_search :=
  repeat (rewrite search_from_step by reflexivity);
  apply search_from_digits; [discriminate|reflexivity|assumption].

(** No pattern matches in a product name followed by a version. *)
Lemma search_none_on_display (prefix base v : string) :
  In prefix REGEX_PREFIX_ORDER -> In base base_names ->
  PyStr.all_digits v = true ->
  Regex.search prefix (base +:+ " " +:+ v) = None.
Proof.
  intros Hp Hb Hd. unfold Regex.search. simpl in Hp, Hb.
  destruct Hb as [<-|[<-|[<-|[<-|[<-|[]]]]]];
    cbv beta iota delta [String.append];
    destruct Hp as [<-|[<-|[<-|[<-|[<-|[<-|[<-|[]]]]]]]]; walk_search.
Qed.

(** X17. Mapping is idempotent: the display name of a display name is that
    display name, since no prefix pattern matches a product name followed by
    a version. *)
Theorem display_name_idempotent (group_title : string) :
  get_product_display_name (get_product_display_name group_title) =
  get_product_display_name group_title.
Proof.
  destruct (display_loop_shape REGEX_PREFIX_ORDER group_title regex_prefixes_good)
    as [H|(prefix & base & v & Hp & Hb & Hin & Htok & H)];
    unfold get_product_display_name at 2 3; rewrite H.
  - exact H.
  - assert (Hd : PyStr.all_digits v = true).
    { destruct Htok as (pre & tok & sep & post & _ & _ & _ & _ & _ & Hd & _).
      exact Hd. }
    unfold get_product_display_name, REGEX_PREFIX_ORDER.
    repeat (rewrite display_name_no_match
              by (apply search_none_on_display;
                  [simpl; auto 10|exact Hin|exact Hd])).
    reflexivity.
Qed.

(** ** Owner lookup *)






(** X19. [get_zendesk_deal_owner_email] asks for the user only when the deal
    has an owner id; and an exception whose text contains "Not Found" is
    reported as the deal not being found, also when it is the user lookup
    that raised it. *)
Theorem owner_lookup_calls_and_not_found (z : Zendesk.Service)
    (deal_id : string) :
  let r := Zendesk.get_zendesk_deal_owner_email z deal_id in
  (existsb Zendesk.is_user_call r.2 = true <->
   exists owner_id, Zendesk.deal_reply z = Zendesk.DealObject (Some owner_id) /\
                    owner_id <> 0%N) /\
  (forall e, PyStr.contains "Not Found" e = true ->
     Zendesk.deal_reply z = Zendesk.DealRaise e \/
     (exists owner_id,
        Zendesk.deal_reply z = Zendesk.DealObject (Some owner_id) /\
        owner_id <> 0%N /\ Zendesk.user_reply z owner_id = Zendesk.UserRaise e) ->
     r.1 = (None, Some ("Zendesk Deal ID " +:+ deal_id +:+ " not found."))).
Proof.
  cbv zeta. unfold Zendesk.get_zendesk_deal_owner_email. split.
  - destruct (Zendesk.deal_reply z) as [e|owner].
    + simpl. split; [discriminate|]. intros (o & H & _). discriminate.
    + destruct (truthy_N owner) eqn:Ho; cbn [negb].
      * destruct owner as [owner_id|]; [|discriminate].
        assert (Hne : owner_id <> 0%N).
        { simpl in Ho. now apply negb_true_iff, N.eqb_neq in Ho. }
        split; [intros _; eauto|]. intros _.
        destruct (Zendesk.user_reply z (default 0%N (Some owner_id)));
          [reflexivity|].
        now destruct (negb (PyStr.truthy_opt email)).
      * simpl. split; [discriminate|]. intros (o & H & Hne).
        injection H as ->. simpl in Ho.
        apply negb_false_iff, N.eqb_eq in Ho. contradiction.
  - intros e He [Hd|(o & Hd & Hne & Hu)]; rewrite Hd.
    + unfold Zendesk.on_exception. now rewrite He.
    + assert (Ho : truthy_N (Some o) = true).
      { simpl. now apply negb_true_iff, N.eqb_neq. }
      rewrite Ho. cbn [negb default]. change (id o) with o. rewrite Hu.
      unfold Zendesk.on_exception. now rewrite He.
Qed.

(** ** API keys *)

(** X20. When [load_api_keys] returns keys, both are non-empty. They are
    the two environment variables when both of these are set and non-empty;
    otherwise they are both read from the configuration file, stripped of
    surrounding white space and double quotes, and a key set in the
    environment alone is ignored. *)
Theorem loaded_keys_are_nonempty (env : Keys.Env)
    (monday_key zendesk_key : string) :
  Keys.load_api_keys env = Keys.KeysLoaded monday_key zendesk_key ->
  PyStr.truthy monday_key = true /\ PyStr.truthy zendesk_key = true /\
  ((Keys.env_monday env = Some monday_key /\
    Keys.env_zendesk env = Some zendesk_key) \/
   ((PyStr.truthy_opt (Keys.env_monday env) = false \/
     PyStr.truthy_opt (Keys.env_zendesk env) = false) /\
    exists m z,
      Keys.config_file env = Keys.Parsed (Keys.CfgValue m) (Keys.CfgValue z) /\
      monday_key = Keys.clean m /\ zendesk_key = Keys.clean z)).
Proof.
  unfold Keys.load_api_keys.
  destruct (PyStr.truthy_opt (Keys.env_monday env)) eqn:Em;
    destruct (PyStr.truthy_opt (Keys.env_zendesk env)) eqn:Ez; cbn [andb].
  1:{ destruct (Keys.env_monday env) as [m|]; [|discriminate].
      destruct (Keys.env_zendesk env) as [k|]; [|discriminate].
      intros [= <- <-]. auto. }
  all: destruct (Keys.config_file env) as [|e|mr zr]; try discriminate;
    destruct mr as [m|e|e]; try discriminate;
    destruct zr as [k|e|e]; try discriminate;
    destruct (PyStr.truthy (Keys.clean m)) eqn:Tm;
    destruct (PyStr.truthy (Keys.clean k)) eqn:Tk; try discriminate;
    intros [= <- <-]; repeat split; auto; right; split; eauto.
Qed.

(** ** Listing users *)

(** X21. The user listing of get_monday_users.py is empty only when no
    user was fetched. Otherwise it lists users of the reply only, never an
    empty list: exactly the active members (not guest, not pending, not
    view-only), in the order of the reply, when there is at least one, and
    all users when there is none, so a user that is not an active member is
    listed only when the account has no active member. *)
Theorem listing_prefers_active_members (users : option (list Users.User)) :
  (Users.listed users = None <-> users = None \/ users = Some []) /\
  (forall l shown, users = Some l -> Users.listed users = Some shown ->
     shown <> [] /\
     (shown = List.filter Users.is_active l \/
      (shown = l /\ List.filter Users.is_active l = [])) /\
     (forall u, In u shown -> In u l) /\
     (forall u, In u l -> Users.is_active u = true -> In u shown) /\
     (forall u, In u shown -> Users.is_active u = false ->
        forall u', In u' l -> Users.is_active u' = false)).
Proof.
  split.
  - destruct users as [[|u l]|]; unfold Users.listed.
    + split; auto.
    + destruct (List.filter Users.is_active (u :: l));
        (split; [discriminate|]); intros [H|H]; discriminate.
    + split; auto.
  - intros l shown -> H. destruct l as [|u0 l]; [discriminate|].
    unfold Users.listed in H.
    destruct (List.filter Users.is_active (u0 :: l)) as [|a act] eqn:E.
    + injection H as <-. split; [discriminate|]. split; [now right|].
      split; [auto|]. split; [auto|].
      intros _ _ _ u' Hu'. destruct (Users.is_active u') eqn:Ea; [|reflexivity].
      assert (Hin : In u' (List.filter Users.is_active (u0 :: l)))
        by (apply List.filter_In; auto).
      rewrite E in Hin. contradiction.
    + injection H as <-. rewrite <- E. split; [rewrite E; discriminate|].
      split; [now left|]. split.
      * intros u Hu. now apply List.filter_In in Hu.
      * split.
        -- intros u Hu Ha. apply List.filter_In. auto.
        -- intros u Hu Ha. apply List.filter_In in Hu. destruct Hu. congruence.
Qed.

(** ** Decoded JSON: the primitives *)

Module JsonFacts.
Import Json.

Lemma bind_inr {A B : Type} (m : exn + A) (k : A -> exn + B) (b : B) :
  bind m k = inr b <-> exists a, m = inr a /\ k a = inr b.
Proof.
  destruct m as [e|a]; simpl; split.
  - discriminate.
  - intros (a & H & _). discriminate.
  - eauto.
  - intros (a' & [= <-] & H). exact H.
Qed.

Lemma is_str_spec (s : string) (v : value) : is_str s v = true <-> v = JStr s.
Proof.
  destruct v; simpl; split; try discriminate.
  - intros H. apply String.eqb_eq in H. now subst.
  - intros [= ->]. apply String.eqb_refl.
Qed.

Lemma get_or_inr (v : value) (key : string) (d x : value) :
  get_or v key d = inr x <->
  exists members, v = JObj members /\ x = default d (lookup key members).
Proof.
  destruct v; simpl; split; try discriminate;
    try (intros (m & [=] & _); fail).
  - intros [= <-]. eauto.
  - intros (m & [= <-] & ->). reflexivity.
Qed.

Lemma get_inr (v : value) (key : string) (x : value) :
  get v key = inr x <->
  exists members, v = JObj members /\ x = default JNull (lookup key members).
Proof. apply get_or_inr. Qed.

Lemma item_inr (v : value) (key : string) (x : value) :
  item v key = inr x <->
  exists members, v = JObj members /\ lookup key members = Some x.
Proof.
  destruct v; simpl; split; try discriminate;
    try (intros (m & [=] & _); fail).
  - destruct (lookup key members) eqn:E; [|discriminate].
    intros [= <-]. eauto.
  - intros (m & [= <-] & ->). reflexivity.
Qed.

Lemma contains_obj (key : string) (members : list (string * value)) (b : bool) :
  contains key (JObj members) = inr b <->
  (b = false <-> lookup key members = None).
Proof.
  simpl. destruct (lookup key members) as [x|] eqn:E.
  - rewrite bool_decide_eq_true_2 by eauto. split.
    + intros [= <-]. split; discriminate.
    + intros H. destruct b; [reflexivity|]. destruct H as [H _].
      specialize (H eq_refl). discriminate.
  - rewrite bool_decide_eq_false_2 by (intros [? ?]; discriminate). split.
    + intros [= <-]. split; auto.
    + intros H. destruct b; [|reflexivity]. destruct H as [_ H].
      specialize (H eq_refl). discriminate.
Qed.

Lemma truthy_obj_inv (v : value) (key : string) (x : value) :
  get v key = inr x -> truthy x = true ->
  exists members, v = JObj members /\ lookup key members = Some x.
Proof.
  intros H T. apply get_inr in H as (m & -> & ->).
  exists m. split; [reflexivity|].
  destruct (lookup key m); [reflexivity|discriminate].
Qed.

Lemma traverse_length {A B : Type} (f : A -> exn + B) (l : list A) (r : list B) :
  traverse f l = inr r -> length r = length l.
Proof.
  revert r. induction l as [|a l IH]; intros r; simpl.
  - now intros [= <-].
  - intros H. apply bind_inr in H as (b & _ & H).
    apply bind_inr in H as (bs & Hbs & [= <-]). simpl. f_equal. auto.
Qed.

Lemma traverse_Forall {A B : Type} (f : A -> exn + B) (P : B -> Prop)
    (l : list A) (r : list B) :
  (forall a b, f a = inr b -> P b) ->
  traverse f l = inr r -> List.Forall P r.
Proof.
  intros Hf. revert r. induction l as [|a l IH]; intros r; simpl.
  - intros [= <-]. constructor.
  - intros H. apply bind_inr in H as (b & Hb & H).
    apply bind_inr in H as (bs & Hbs & [= <-]). constructor; eauto.
Qed.

End JsonFacts.

Module ApiFacts.
Import Json MondayApi ApiNotions JsonFacts.

Lemma truthy_arr_inv (v : value) (l : list value) :
  truthy v = true -> iter v = inr l ->
  (exists x xs, v = JArr (x :: xs) /\ l = x :: xs) \/
  (exists s, l = map JStr s /\ l <> []).
Proof.
  destruct v as [| | | |s|els|mem]; simpl; try discriminate.
  - intros T [= <-]. right. destruct s as [|c s]; [discriminate|].
    exists (map (fun c => String c EmptyString) (list_ascii_of_string (String c s))).
    split; [now rewrite map_map|]. simpl. discriminate.
  - destruct els as [|x xs]; [discriminate|]. intros _ [= <-]. left. eauto.
  - destruct mem as [|kv mem]; [discriminate|]. intros _ [= <-]. right.
    exists (map fst (kv :: mem)). split; [now rewrite map_map|].
    simpl. discriminate.
Qed.

Lemma group_entry_inr (group entry : value) :
  group_entry group = inr entry <->
  exists members id title,
    group = JObj members /\ lookup "id" members = Some id /\
    lookup "title" members = Some title /\
    entry = JObj [("id", id); ("title", title)].
Proof.
  unfold group_entry. split.
  - intros H. apply bind_inr in H as (id & Hid & H).
    apply bind_inr in H as (title & Ht & [= <-]).
    apply item_inr in Hid as (m & -> & Hid).
    apply item_inr in Ht as (m' & [= <-] & Ht). eauto 10.
  - intros (m & id & title & -> & Hid & Ht & ->). simpl.
    rewrite Hid. simpl. rewrite Ht. reflexivity.
Qed.

Lemma group_entry_str (s : list string) (r : list value) :
  s <> [] -> traverse group_entry (map JStr s) <> inr r.
Proof.
  destruct s as [|x s]; [congruence|]. intros _. simpl. discriminate.
Qed.

Lemma groups_of_inr (result groups : value) :
  groups_of result = inr groups -> truthy groups = true ->
  exists o d b boards,
    result = JObj o /\ lookup "data" o = Some (JObj d) /\
    lookup "boards" d = Some (JArr (JObj b :: boards)) /\
    lookup "groups" b = Some groups.
Proof.
  unfold groups_of. intros H T.
  apply bind_inr in H as (data & Hdata & H).
  destruct (truthy data) eqn:Td; [|injection H as <-; discriminate].
  apply truthy_obj_inv in Hdata as (o & -> & Hd); [|assumption].
  apply bind_inr in H as (data' & Hdata' & H).
  apply item_inr in Hdata' as (o' & [= <-] & Hd').
  rewrite Hd in Hd'. injection Hd' as <-.
  apply bind_inr in H as (boards & Hb & H).
  destruct (truthy boards) eqn:Tb; [|injection H as <-; discriminate].
  apply truthy_obj_inv in Hb as (d & -> & Hb); [|assumption].
  apply bind_inr in H as (data' & Hdata' & H).
  apply item_inr in Hdata' as (o' & [= <-] & Hd').
  rewrite Hd in Hd'. injection Hd' as <-.
  apply bind_inr in H as (boards' & Hb' & H).
  apply item_inr in Hb' as (d' & [= <-] & Hb').
  rewrite Hb in Hb'. injection Hb' as <-.
  apply bind_inr in H as (board_data & Hf & H).
  destruct (truthy board_data) eqn:Tbd; [|injection H as <-; discriminate].
  apply get_or_inr in H as (b & -> & ->).
  destruct (lookup "groups" b) as [g|] eqn:Hg; [|discriminate].
  destruct boards as [| | | |s|els|mem]; simpl in Hf; try discriminate.
  - destruct s; discriminate.
  - destruct els as [|x xs]; [discriminate|]. injection Hf as ->.
    exists o, d, b, xs. auto.
Qed.

Lemma groups_of_ok (o d b : list (string * value)) (boards : list value)
    (groups : value) :
  lookup "data" o = Some (JObj d) ->
  lookup "boards" d = Some (JArr (JObj b :: boards)) ->
  lookup "groups" b = Some groups ->
  groups_of (JObj o) = inr groups.
Proof.
  intros Hd Hb Hg. unfold groups_of. simpl. rewrite Hd. simpl.
  destruct d as [|kv d]; [discriminate|]. rewrite Hb. simpl.
  destruct b as [|kv' b]; [discriminate|]. now rewrite Hg.
Qed.

(** X22. [fetch_monday_data] never raises and returns one of three
    shapes: no list and a non-empty message; an empty list with the message
    that no groups were found; or a non-empty list and no message. It
    returns a list of groups and no message exactly when the reply has no
    HTTP error and is a JSON object without an [errors] member, the first board of its [data]
    has a non-empty list of groups, and every group has an [id] and a
    [title]; the entries returned keep these two members only, in the order
    of the reply. *)
Theorem fetch_monday_data_result (repr : value -> string)
    (builtin_text : exn -> string) (reply : Reply) :
  let r := fetch_monday_data repr builtin_text reply in
  ((exists msg, r = (None, Some msg) /\ PyStr.truthy msg = true) \/
   r = (Some [], Some "No groups found on the specified Monday.com board.") \/
   (exists fetched, r = (Some fetched, None) /\ fetched <> [])) /\
  (forall fetched,
     r = (Some fetched, None) <->
     exists text o d b boards gs,
       reply = Response None text (inr (JObj o)) /\
       lookup "errors" o = None /\
       lookup "data" o = Some (JObj d) /\
       lookup "boards" d = Some (JArr (JObj b :: boards)) /\
       lookup "groups" b = Some (JArr gs) /\ gs <> [] /\
       traverse group_entry gs = inr fetched).
Proof.
  cbv zeta. unfold fetch_monday_data.
  match goal with |- context [match ?B with inl _ => _ | inr _ => _ end] =>
    destruct B as [e|r] eqn:HB end.
  - split.
    + left. destruct e; eexists; split; reflexivity.
    + intros fetched. split; [destruct e; discriminate|].
      intros (text & o & d & b & boards & gs & -> & He & Hd & Hb & Hg & Hne & Ht).
      exfalso. simpl in HB. rewrite He in HB.
      rewrite bool_decide_eq_false_2 in HB by (intros [? ?]; discriminate).
      cbn [bind] in HB. rewrite (groups_of_ok _ _ _ _ _ Hd Hb Hg) in HB.
      destruct gs as [|g gs]; [congruence|].
      cbn [bind truthy negb iter] in HB. rewrite Ht in HB. discriminate.
  - apply bind_inr in HB as (result & Hres & HB).
    apply bind_inr in HB as (has & Hhas & HB).
    destruct has.
    { apply bind_inr in HB as (errors & He & [= <-]). split.
      - left. eexists. split; reflexivity.
      - intros fetched. split; [discriminate|].
        intros (text & o & d & b & boards & gs & -> & Herr & _).
        exfalso. simpl in Hres. injection Hres as <-.
        apply contains_obj in Hhas. destruct Hhas as [_ Hhas].
        specialize (Hhas Herr). discriminate. }
    apply bind_inr in HB as (groups & Hg & HB).
    destruct (truthy groups) eqn:Tg; cbn [negb] in HB.
    2:{ injection HB as <-. split; [right; left; reflexivity|].
        intros fetched. split; [discriminate|].
        intros (text & o & d & b & boards & gs & -> & Herr & Hd & Hb & Hgs & Hne & Ht).
        exfalso. simpl in Hres. injection Hres as <-.
        rewrite (groups_of_ok _ _ _ _ _ Hd Hb Hgs) in Hg.
        injection Hg as <-. destruct gs; [congruence|discriminate]. }
    apply bind_inr in HB as (l & Hl & HB).
    apply bind_inr in HB as (fetched & Hf & [= <-]).
    destruct (groups_of_inr _ _ Hg Tg) as (o & d & b & boards & -> & Hd & Hb & Hgs).
    destruct (truthy_arr_inv _ _ Tg Hl) as [(x & xs & -> & ->)|(s & -> & Hne)].
    2:{ exfalso. exact (group_entry_str s fetched
                          ltac:(intros ->; apply Hne; reflexivity) Hf). }
    assert (Herr : lookup "errors" o = None).
    { apply contains_obj in Hhas. now apply Hhas. }
    assert (Hfne : fetched <> []).
    { apply traverse_length in Hf. destruct fetched; [discriminate|congruence]. }
    destruct reply as [e|[he|] text body]; simpl in Hres; try discriminate.
    subst body.
    split.
    + right. right. eauto.
    + intros fetched'. split.
      * intros [= <-]. exists text, o, d, b, boards, (x :: xs).
        repeat split; auto; discriminate.
      * intros (text' & o' & d' & b' & boards' & gs & [= <- <-] & _ & Hd' & Hb' & Hgs' & _ & Ht).
        rewrite Hd in Hd'. injection Hd' as <-.
        rewrite Hb in Hb'. injection Hb' as <- <-.
        rewrite Hgs in Hgs'. injection Hgs' as <-.
        rewrite Hf in Ht. now injection Ht as <-.
Qed.

Lemma label_loop_some (py_int : string -> option Z) (target : string)
    (labels : list (string * value)) (i : Z) :
  label_loop py_int target labels = inr (Some i) <->
  exists before index rest,
    labels = before ++ (index, JStr target) :: rest /\
    List.Forall (fun kv => kv.2 <> JStr target) before /\
    py_int index = Some i.
Proof.
  induction labels as [|[index label] labels IH]; simpl.
  - split; [discriminate|]. intros (before & index & rest & H & _).
    destruct before; discriminate.
  - destruct (is_str target label) eqn:E.
    + apply is_str_spec in E. subst label. unfold int. split.
      * destruct (py_int index) as [z|] eqn:Hi; simpl; [|discriminate].
        intros [= <-]. exists [], index, labels. repeat split; auto.
      * intros (before & index' & rest & H & Hb & Hi).
        destruct before as [|[k v] before].
        -- injection H as <- <-. now rewrite Hi.
        -- injection H as <- <- _. inversion Hb; subst. simpl in *. contradiction.
    + assert (Hne : label <> JStr target).
      { intros ->. rewrite (proj2 (is_str_spec _ _) eq_refl) in E. discriminate. }
      rewrite IH. split.
      * intros (before & index' & rest & -> & Hb & Hi).
        exists ((index, label) :: before), index', rest.
        repeat split; auto.
      * intros (before & index' & rest & H & Hb & Hi).
        destruct before as [|[k v] before].
        -- injection H as _ Hl _. congruence.
        -- injection H as _ _ ->. inversion Hb; subst. eauto 10.
Qed.

(** X23. [get_status_index_from_label] returns an index and no message,
    or no index and a non-empty message. The index returned is [int] of the
    key of the first label, in the order of the column settings, that equals
    the target: later labels are not looked at, also when the key of the
    first one is no integer. *)
Theorem status_index_is_first_match (repr : value -> string)
    (builtin_text : exn -> string) (py_int : string -> option Z)
    (json_loads : string -> string + value)
    (reply : Reply) (column_id target_label : string) :
  let r := get_status_index_from_label repr builtin_text py_int json_loads
             reply column_id target_label in
  ((exists i, r = (Some i, None)) \/
   (exists msg, r = (None, Some msg) /\ PyStr.truthy msg = true)) /\
  (forall i,
     r = (Some i, None) <->
     exists before index rest,
       labels_map_of repr json_loads reply =
         inr (JObj (before ++ (index, JStr target_label) :: rest)) /\
       List.Forall (fun kv => kv.2 <> JStr target_label) before /\
       py_int index = Some i).
Proof.
  cbv zeta. unfold get_status_index_from_label.
  destruct (labels_map_of repr json_loads reply) as [e|labels_map] eqn:HL;
    cbn [bind].
  { split; [right; eexists; split; reflexivity|].
    intros i. split; [discriminate|]. intros (? & ? & ? & [=] & _). }
  destruct labels_map as [| | | | | |labels]; cbn [items bind];
    try (split; [right; eexists; split; reflexivity|];
         intros i; split; [discriminate|]; intros (? & ? & ? & [=] & _)).
  destruct (label_loop py_int target_label labels) as [e|[i0|]] eqn:HLoop;
    cbn [bind].
  - split; [right; eexists; split; reflexivity|].
    intros i. split; [discriminate|].
    intros (before & index & rest & [= ->] & Hb & Hi).
    assert (H : label_loop py_int target_label
                  (before ++ (index, JStr target_label) :: rest) = inr (Some i))
      by (apply label_loop_some; eauto 10).
    congruence.
  - split; [left; eauto|]. intros i. split.
    + intros [= <-]. apply label_loop_some in HLoop
        as (before & index & rest & -> & Hb & Hi). eauto 10.
    + intros (before & index & rest & [= ->] & Hb & Hi).
      assert (H : label_loop py_int target_label
                    (before ++ (index, JStr target_label) :: rest) = inr (Some i))
        by (apply label_loop_some; eauto 10).
      congruence.
  - split; [right; eexists; split; reflexivity|].
    intros i. split; [discriminate|].
    intros (before & index & rest & [= ->] & Hb & Hi).
    assert (H : label_loop py_int target_label
                  (before ++ (index, JStr target_label) :: rest) = inr (Some i))
      by (apply label_loop_some; eauto 10).
    congruence.
Qed.

Lemma errors_reported_false (result : value) :
  errors_reported result = inr false ->
  (exists o, result = JObj o /\
             forall e, lookup "errors" o = Some e -> truthy e = false) \/
  not_an_object result.
Proof.
  unfold errors_reported. intros H.
  destruct result as [| | | | | |o];
    try (right; intros o; discriminate).
  left. exists o. split; [reflexivity|]. intros e He.
  simpl in H. rewrite He in H. rewrite bool_decide_eq_true_2 in H by eauto.
  simpl in H. now injection H.
Qed.

Lemma errors_reported_ok (o : list (string * value)) :
  (forall e, lookup "errors" o = Some e -> truthy e = false) ->
  errors_reported (JObj o) = inr false.
Proof.
  intros H. unfold errors_reported. simpl.
  destruct (lookup "errors" o) as [e|] eqn:He.
  - rewrite bool_decide_eq_true_2 by eauto. simpl. now rewrite (H e).
  - rewrite bool_decide_eq_false_2 by (intros [? ?]; discriminate).
    reflexivity.
Qed.

Lemma structure_expected (result : value) :
  structure_unexpected result = inr false <->
  exists o d c id,
    result = JObj o /\ lookup "data" o = Some (JObj d) /\
    lookup "change_column_value" d = Some (JObj c) /\
    lookup "id" c = Some id /\ truthy id = true.
Proof.
  unfold structure_unexpected. split.
  - intros H. apply bind_inr in H as (data & Hd & H).
    destruct (truthy data) eqn:Td; cbn [negb] in H; [|discriminate].
    apply truthy_obj_inv in Hd as (o & -> & Hd); [|assumption].
    apply bind_inr in H as (data' & Hd' & H).
    apply item_inr in Hd' as (o' & [= <-] & Hd').
    rewrite Hd in Hd'. injection Hd' as <-.
    apply bind_inr in H as (change & Hc & H).
    destruct (truthy change) eqn:Tc; cbn [negb] in H; [|discriminate].
    apply truthy_obj_inv in Hc as (d & -> & Hc); [|assumption].
    apply bind_inr in H as (data' & Hd' & H).
    apply item_inr in Hd' as (o' & [= <-] & Hd').
    rewrite Hd in Hd'. injection Hd' as <-.
    apply bind_inr in H as (change' & Hc' & H).
    apply item_inr in Hc' as (d' & [= <-] & Hc').
    rewrite Hc in Hc'. injection Hc' as <-.
    apply bind_inr in H as (id & Hid & H).
    assert (Tid : truthy id = true).
    { injection H as H. now apply negb_false_iff in H. }
    apply truthy_obj_inv in Hid as (c & -> & Hid); [|assumption].
    eauto 10.
  - intros (o & d & c & id & -> & Hd & Hc & Hid & Tid).
    simpl. rewrite Hd. simpl.
    destruct d as [|kv d]; [discriminate|]. cbn [negb bind].
    rewrite Hc. simpl.
    destruct c as [|kv' c]; [discriminate|]. cbn [negb bind].
    rewrite Hid. simpl. now rewrite Tid.
Qed.

Lemma change_body_true (on_errors on_unexpected : value -> string)
    (reply : Reply) :
  change_body on_errors on_unexpected reply = inr (true, None) <->
  change_confirmed reply.
Proof.
  unfold change_body, change_confirmed. split.
  - intros H. apply bind_inr in H as (result & Hr & H).
    apply bind_inr in H as (reported & Hrep & H).
    destruct reported.
    { apply bind_inr in H as (e & _ & [=]). }
    apply bind_inr in H as (unexpected & Hu & H).
    destruct unexpected; [discriminate|].
    apply structure_expected in Hu as (o & d & c & id & -> & Hd & Hc & Hid & Tid).
    apply errors_reported_false in Hrep as [(o' & [= <-] & He)|Hno];
      [|exfalso; exact (Hno o eq_refl)].
    destruct reply as [e|[he|] text body]; simpl in Hr; try discriminate.
    subst body. exists text, o, d, c, id. auto 10.
  - intros (text & o & d & c & id & -> & He & Hd & Hc & Hid & Tid).
    cbn [result_of bind]. rewrite (errors_reported_ok o He). cbn [bind].
    assert (Hu : structure_unexpected (JObj o) = inr false)
      by (apply structure_expected; eauto 10).
    now rewrite Hu.
Qed.

Lemma change_body_shape (on_errors on_unexpected : value -> string)
    (reply : Reply) (r : bool * option string) :
  change_body on_errors on_unexpected reply = inr r ->
  r = (true, None) \/
  exists v, r = (false, Some (on_errors v)) \/
            r = (false, Some (on_unexpected v)).
Proof.
  unfold change_body. intros H.
  apply bind_inr in H as (result & Hr & H).
  apply bind_inr in H as (reported & Hrep & H).
  destruct reported.
  { apply bind_inr in H as (e & _ & [= <-]). right. eauto. }
  apply bind_inr in H as (unexpected & Hu & H).
  destruct unexpected; injection H as <-; [right|left]; eauto.
Qed.

Lemma index_lookup_cases (repr : value -> string)
    (builtin_text : exn -> string) (py_int : string -> option Z)
    (json_loads : string -> string + value)
    (reply : Reply) (column_id target_label : string) :
  let r := get_status_index_from_label repr builtin_text py_int json_loads
             reply column_id target_label in
  (exists i, r = (Some i, None)) \/
  (exists msg, r = (None, Some msg) /\ PyStr.truthy msg = true).
Proof.
  cbv zeta. unfold get_status_index_from_label.
  match goal with |- context [match ?B with inl _ => _ | inr _ => _ end] =>
    destruct B as [e|[[i|] m]] end.
  - right. eexists. split; reflexivity.
  - left. eauto.
  - right. eexists. split; reflexivity.
Qed.


Lemma person_update_cases (repr : value -> string)
    (builtin_text : exn -> string) (change_reply : Reply)
    (item_id : string) (monday_user_id : N) :
  let r := update_monday_item_person repr builtin_text change_reply item_id
             monday_user_id in
  (r.1 = (true, None) \/
   exists msg, r.1 = (false, Some msg) /\ PyStr.truthy msg = true) /\
  (r.1 = (true, None) <-> change_confirmed change_reply).
Proof.
  cbv zeta. unfold update_monday_item_person.
  change (match _ with inl _ => _ | inr r => (r, ?calls) end)
    with (match change_body
                  (fun errors => "Monday API GraphQL Error assigning person: " +:+ repr errors)
                  (fun result => "Monday API response structure unexpected assigning person. Full response: " +:+ repr result)
                  change_reply with
          | inr r => (r, calls)
          | inl (RequestException e) =>
              ((false,
                Some ("Network/HTTP error assigning person: " +:+ e +:+
                      ". Response text: " +:+ response_text_of change_reply)), calls)
          | inl (JSONDecodeError _) =>
              ((false,
                Some ("Failed to decode JSON response assigning person. Response text: " +:+
                      response_text_of change_reply)), calls)
          | inl e =>
              ((false, Some ("Unexpected error assigning person: " +:+
                             exn_str builtin_text e)), calls)
          end).
  match goal with |- context [change_body ?f ?g change_reply] =>
    pose proof (change_body_true f g change_reply) as Htrue;
    pose proof (change_body_shape f g change_reply) as Hshape;
    destruct (change_body f g change_reply) as [e|r] end.
  - assert (Hno : ~ change_confirmed change_reply).
    { intros Hc. apply Htrue in Hc. discriminate. }
    split; [right; destruct e; eexists; split; reflexivity|].
    split; [destruct e; discriminate|]. intros Hc. contradiction.
  - cbn [fst snd]. split.
    + destruct (Hshape r eq_refl) as [->|(v & [-> | ->])];
        [left; reflexivity|right; eexists; split; reflexivity..].
    + split.
      * intros ->. now apply Htrue.
      * intros Hc. apply Htrue in Hc. now injection Hc.
Qed.

Lemma status_update_found (repr : value -> string)
    (builtin_text : exn -> string) (py_int : string -> option Z)
    (json_loads : string -> string + value)
    (column_reply change_reply : Reply)
    (item_id status_column_id new_status_label : string) (i : Z) :
  get_status_index_from_label repr builtin_text py_int json_loads
    column_reply status_column_id new_status_label = (Some i, None) ->
  let r := update_monday_item_status repr builtin_text py_int json_loads
             column_reply change_reply item_id status_column_id
             new_status_label in
  r.2 = [QueryColumn status_column_id; ChangeStatus item_id (Some i)] /\
  (r.1 = (true, None) \/
   exists msg, r.1 = (false, Some msg) /\ PyStr.truthy msg = true) /\
  (r.1 = (true, None) <-> change_confirmed change_reply).
Proof.
  intros Hi. cbv zeta. unfold update_monday_item_status. rewrite Hi.
  cbn [PyStr.truthy_opt].
  change (match _ with inl _ => _ | inr r => (r, ?calls) end)
    with (match change_body
                  (fun errors => "Monday API GraphQL Error updating status via Variables: " +:+ repr errors)
                  (fun result => "Monday API response structure unexpected or indicates failure using Variables. Full response: " +:+ repr result)
                  change_reply with
          | inr r => (r, calls)
          | inl (RequestException e) =>
              ((false,
                Some ("Network/HTTP error (Variables method): " +:+ e +:+
                      ". Response text: " +:+ response_text_of change_reply)), calls)
          | inl (JSONDecodeError _) =>
              ((false,
                Some ("Failed to decode JSON response (Variables method). Response text: " +:+
                      response_text_of change_reply)), calls)
          | inl e =>
              ((false, Some ("Unexpected error (Variables method): " +:+
                             exn_str builtin_text e)), calls)
          end).
  match goal with |- context [change_body ?f ?g change_reply] =>
    pose proof (change_body_true f g change_reply) as Htrue;
    pose proof (change_body_shape f g change_reply) as Hshape;
    destruct (change_body f g change_reply) as [e|r] end.
  - assert (Hno : ~ change_confirmed change_reply).
    { intros Hc. apply Htrue in Hc. discriminate. }
    split; [destruct e; reflexivity|].
    split; [right; destruct e; eexists; split; reflexivity|].
    split; [destruct e; discriminate|]. intros Hc. contradiction.
  - cbn [fst snd]. split; [reflexivity|]. split.
    + destruct (Hshape r eq_refl) as [->|(v & [-> | ->])];
        [left; reflexivity|right; eexists; split; reflexivity..].
    + split.
      * intros ->. now apply Htrue.
      * intros Hc. apply Htrue in Hc. now injection Hc.
Qed.

(** X24. [update_monday_item_status] returns [(True, None)] or [False]
    with a non-empty message, and never raises. It succeeds exactly when the
    index of the label was found and the reply to the mutation confirms the
    change; when the index is not found, no mutation is sent and the message
    of the lookup is returned. *)
Theorem status_update_result (repr : value -> string)
    (builtin_text : exn -> string) (py_int : string -> option Z)
    (json_loads : string -> string + value)
    (column_reply change_reply : Reply)
    (item_id status_column_id new_status_label : string) :
  let index := get_status_index_from_label repr builtin_text py_int json_loads
                 column_reply status_column_id new_status_label in
  let r := update_monday_item_status repr builtin_text py_int json_loads
             column_reply change_reply item_id status_column_id
             new_status_label in
  (r.1 = (true, None) \/
   exists msg, r.1 = (false, Some msg) /\ PyStr.truthy msg = true) /\
  (r.1 = (true, None) <->
   (exists i, index = (Some i, None)) /\ change_confirmed change_reply) /\
  (forall i, index = (Some i, None) ->
     r.2 = [QueryColumn status_column_id; ChangeStatus item_id (Some i)]) /\
  ((forall i, index <> (Some i, None)) ->
     r = ((false, index.2), [QueryColumn status_column_id])).
Proof.
  cbv zeta.
  destruct (index_lookup_cases repr builtin_text py_int json_loads
              column_reply status_column_id new_status_label)
    as [(i & Hi)|(msg & Hi & Hmsg)].
  - destruct (status_update_found repr builtin_text py_int json_loads
                column_reply change_reply item_id status_column_id
                new_status_label i Hi) as (Hcalls & Hshape & Hiff).
    cbv zeta in Hcalls, Hshape, Hiff. rewrite Hi.
    split; [exact Hshape|]. split; [|split].
    + rewrite Hiff. split; [eauto|]. now intros [_ Hc].
    + now intros i' [= <-].
    + intros H. exfalso. exact (H i eq_refl).
  - unfold update_monday_item_status. rewrite Hi.
    cbn [PyStr.truthy_opt]. rewrite Hmsg. cbn [fst snd].
    split; [right; eauto|]. split; [|split].
    + split; [discriminate|]. intros [(i & [=]) _].
    + intros i [=].
    + reflexivity.
Qed.

(** X25. [update_monday_item_person] sends one mutation and returns
    [(True, None)] exactly when the reply confirms the change, otherwise
    [False] with a non-empty message. It accepts the same replies as
    [update_monday_item_status] does once the index of the label is
    found. *)
Theorem person_update_result (repr : value -> string)
    (builtin_text : exn -> string) (change_reply : Reply)
    (item_id : string) (monday_user_id : N) :
  let r := update_monday_item_person repr builtin_text change_reply item_id
             monday_user_id in
  (r.1 = (true, None) \/
   exists msg, r.1 = (false, Some msg) /\ PyStr.truthy msg = true) /\
  (r.1 = (true, None) <-> change_confirmed change_reply) /\
  r.2 = [ChangePerson item_id monday_user_id] /\
  (forall py_int json_loads column_reply item_id' column_id label i,
     get_status_index_from_label repr builtin_text py_int json_loads
       column_reply column_id label = (Some i, None) ->
     (update_monday_item_status repr builtin_text py_int json_loads
        column_reply change_reply item_id' column_id label).1.1 = r.1.1).
Proof.
  cbv zeta.
  destruct (person_update_cases repr builtin_text change_reply item_id
              monday_user_id) as [Hshape Hiff].
  cbv zeta in Hshape, Hiff.
  split; [exact Hshape|]. split; [exact Hiff|]. split.
  { unfold update_monday_item_person.
    match goal with |- context [match ?B with inl _ => _ | inr _ => _ end] =>
      destruct B as [[]|] end; reflexivity. }
  intros py_int json_loads column_reply item_id' column_id label i Hi.
  destruct (status_update_found repr builtin_text py_int json_loads
              column_reply change_reply item_id' column_id label i Hi)
    as (_ & Hs & Hsiff).
  cbv zeta in Hs, Hsiff.
  destruct Hshape as [Hp|(msg & Hp & _)]; rewrite Hp; cbn [fst].
  - assert (H : (update_monday_item_status repr builtin_text py_int json_loads
                   column_reply change_reply item_id' column_id label).1 =
                (true, None)).
    { apply Hsiff. now apply Hiff. }
    now rewrite H.
  - destruct Hs as [Hs|(msg' & Hs & _)]; [|now rewrite Hs].
    exfalso. apply Hsiff in Hs. apply Hiff in Hs. congruence.
Qed.

(** X26. [get_monday_users] never raises and returns [None] or a truthy
    value, never an empty list. It returns a value other than [None]
    exactly when the reply has no HTTP error and is a JSON object without an
    [errors] member
    whose [data.users] is truthy, and the value is that member as it is, so
    in the listing the branch for a failed retrieval is taken exactly when
    the function returned [None]. *)
Theorem users_fetch_result (reply : Reply) :
  let users := get_monday_users reply in
  (users = JNull \/ truthy users = true) /\
  (forall u, u <> JNull ->
     (users = u <->
      exists text o d,
        reply = Response None text (inr (JObj o)) /\
        lookup "errors" o = None /\
        lookup "data" o = Some (JObj d) /\
        lookup "users" d = Some u /\ truthy u = true)).
Proof.
  cbv zeta. unfold get_monday_users.
  match goal with |- context [match ?B with inl _ => _ | inr _ => _ end] =>
    destruct B as [e|users] eqn:HB end.
  - assert (Hn : match e with
                 | RequestException _ | JSONDecodeError _ | _ => JNull
                 end = JNull) by (destruct e; reflexivity).
    rewrite Hn. split; [now left|]. intros u Hu. split; [congruence|].
    intros (text & o & d & -> & He & Hd & Hud & Tu). exfalso.
    cbn [result_of bind contains] in HB. rewrite He in HB.
    rewrite bool_decide_eq_false_2 in HB by (intros [? ?]; discriminate).
    cbn [bind get get_or] in HB. rewrite Hd in HB.
    destruct d as [|kv d]; [discriminate|].
    cbn [default id bind truthy item] in HB. rewrite Hd in HB.
    cbn [bind get get_or] in HB. rewrite Hud in HB.
    cbn [default id bind] in HB. rewrite Tu in HB.
    cbn [bind item] in HB. rewrite Hud in HB. discriminate.
  - apply bind_inr in HB as (result & Hr & HB).
    apply bind_inr in HB as (has & Hhas & HB).
    destruct has.
    { apply bind_inr in HB as (e & He & [= <-]). split; [now left|].
      intros u Hu. split; [congruence|].
      intros (text & o & d & -> & Herr & _). exfalso.
      cbn [result_of] in Hr. injection Hr as <-.
      apply contains_obj in Hhas. destruct Hhas as [_ Hhas].
      specialize (Hhas Herr). discriminate. }
    apply bind_inr in HB as (data & Hd & HB).
    apply bind_inr in HB as (u0 & Hu0 & HB).
    destruct (truthy u0) eqn:Tu.
    2:{ injection HB as <-. split; [now left|].
        intros u Hu. split; [congruence|].
        intros (text & o & d & -> & Herr & Hdo & Hud & Tu'). exfalso.
        cbn [result_of] in Hr. injection Hr as <-.
        apply get_inr in Hd as (o' & [= <-] & ->). rewrite Hdo in Hu0.
        destruct d as [|kv d]; [discriminate|].
        cbn [default id truthy bind item] in Hu0. rewrite Hdo in Hu0.
        cbn [bind get get_or] in Hu0. rewrite Hud in Hu0.
        injection Hu0 as <-. cbn [default id] in Tu. congruence. }
    apply bind_inr in HB as (data' & Hd' & HB).
    apply item_inr in Hd' as (o & -> & Hdo).
    apply item_inr in HB as (d & -> & Hud).
    assert (Tusers : truthy users = true).
    { apply get_inr in Hd as (o' & [= <-] & ->). rewrite Hdo in Hu0.
      destruct d as [|kv d]; [discriminate|].
      cbn [default id truthy bind item] in Hu0. rewrite Hdo in Hu0.
      cbn [bind] in Hu0. apply get_inr in Hu0 as (d' & [= <-] & ->).
      rewrite Hud in Tu. exact Tu. }
    split; [now right|].
    destruct reply as [e|[he|] text body]; simpl in Hr; try discriminate.
    subst body. intros u Hu. split.
    + intros <-. exists text, o, d. repeat split; auto.
      apply contains_obj in Hhas. now apply Hhas.
    + intros (text' & o' & d' & [= <- <-] & _ & Hdo' & Hud' & _).
      rewrite Hdo in Hdo'. injection Hdo' as <-. congruence.
Qed.

(** X27. One page of the paging loop. A reply with an [errors] member
    raises, whatever the member holds. New items or a cursor for a further
    page are taken only from [data.boards[0].groups[0].items_page]: they are
    its [items] (or the empty list) and its [cursor] (or [None]). A reply
    without [data] is an empty last page, while a reply whose [data] is null
    raises. *)
Theorem page_decoding (repr : value -> string) (page_num group_id : string)
    (result : value) :
  let r := decode_page repr page_num group_id result in
  (forall o, result = JObj o -> lookup "errors" o <> None ->
     exists e, r = inl e) /\
  (forall new_items next_cursor,
     r = inr (new_items, next_cursor) ->
     truthy new_items = true \/ truthy next_cursor = true ->
     exists o d b boards g groups ip,
       result = JObj o /\ lookup "errors" o = None /\
       lookup "data" o = Some (JObj d) /\
       lookup "boards" d = Some (JArr (JObj b :: boards)) /\
       lookup "groups" b = Some (JArr (JObj g :: groups)) /\
       lookup "items_page" g = Some (JObj ip) /\
       new_items = default (JArr []) (lookup "items" ip) /\
       next_cursor = default JNull (lookup "cursor" ip)) /\
  (forall o, result = JObj o -> lookup "errors" o = None ->
     lookup "data" o = None -> r = inr (JArr [], JNull)) /\
  (forall o, result = JObj o -> lookup "errors" o = None ->
     lookup "data" o = Some JNull -> exists e, r = inl e).
Proof.
  cbv zeta. unfold decode_page. split; [|split; [|split]].
  - intros o -> He. cbn [contains bind].
    destruct (lookup "errors" o) as [e|] eqn:E; [|congruence].
    rewrite bool_decide_eq_true_2 by eauto. cbn [item]. rewrite E.
    cbn [bind]. eauto.
  - intros new_items next_cursor H T.
    apply bind_inr in H as (has & Hhas & H).
    destruct has; [apply bind_inr in H as (e & _ & [=])|].
    apply bind_inr in H as (data & Hd & H).
    apply bind_inr in H as (boards & Hb & H).
    apply bind_inr in H as (groups & Hg & H).
    destruct (truthy groups) eqn:Tg.
    2:{ injection H as <- <-. destruct T; discriminate. }
    apply bind_inr in H as (data' & Hd' & H).
    apply item_inr in Hd' as (o & -> & Hdo).
    apply bind_inr in H as (boards' & Hb' & H).
    apply item_inr in Hb' as (d & -> & Hbd).
    apply bind_inr in H as (board & Hf & H).
    apply bind_inr in H as (groups' & Hg' & H).
    apply item_inr in Hg' as (b & -> & Hgb).
    apply bind_inr in H as (group_data & Hgd & H).
    apply bind_inr in H as (items_page & Hip & H).
    destruct (truthy items_page) eqn:Tip.
    2:{ injection H as <- <-. destruct T; discriminate. }
    apply bind_inr in H as (ipd & Hipd & H).
    apply item_inr in Hipd as (g & -> & Hipg).
    apply bind_inr in H as (ni & Hni & H).
    apply get_or_inr in Hni as (ip & -> & ->).
    apply bind_inr in H as (nc & Hnc & [= <- <-]).
    apply get_inr in Hnc as (ip' & [= <-] & ->).
    assert (Herr : lookup "errors" o = None).
    { apply contains_obj in Hhas. now apply Hhas. }
    destruct boards' as [| | | |s|l|o']; simpl in Hf; try discriminate.
    { destruct s; discriminate. }
    destruct l as [|x xs]; [discriminate|]. injection Hf as ->.
    destruct groups' as [| | | |s|l|o']; simpl in Hgd; try discriminate.
    { destruct s; discriminate. }
    destruct l as [|y ys]; [discriminate|]. injection Hgd as ->.
    exists o, d, b, xs, g, ys, ip. auto 10.
  - intros o -> He Hd. cbn [contains bind].
    rewrite He. rewrite bool_decide_eq_false_2 by (intros [? ?]; discriminate).
    cbn [get_or]. rewrite Hd. reflexivity.
  - intros o -> He Hd. cbn [contains bind].
    rewrite He. rewrite bool_decide_eq_false_2 by (intros [? ?]; discriminate).
    cbn [get_or]. rewrite Hd. cbn. eauto.
Qed.

End ApiFacts.

(** ** Sample runs for the properties with a precondition *)

(** The first of two groups times out. *)
Lemma group_error_masks_later_failures_witness :
  first_group_error fetch_all_pages (items_reply MoreSamples.first_group_fails)
    MoreSamples.two_groups_map 0 ["g1"; "g2"] = Some "timeout" /\
  exists summary,
    (MondayCRM.process_activation_request MoreSamples.first_group_fails "123"
       ["g1"; "g2"] MoreSamples.two_groups_map (Some "asoni@dxo.com")
       (Some 47981810%N)).1 = Return AtSummary true summary.
Proof.
  assert (H : first_group_error fetch_all_pages
                (items_reply MoreSamples.first_group_fails)
                MoreSamples.two_groups_map 0 ["g1"; "g2"] = Some "timeout")
    by (vm_compute; reflexivity).
  split; [exact H|].
  destruct (group_error_masks_later_failures MoreSamples.first_group_fails
              "123" ["g1"; "g2"] MoreSamples.two_groups_map
              (Some "asoni@dxo.com") (Some 47981810%N) "timeout" H)
    as (_ & _ & S).
  apply (S ltac:(vm_compute; discriminate) (Some 55%N) eq_refl).
Defined.

(** One group with one available item. *)
Lemma note_lists_every_found_code_witness :
  items_found_details
    (find_items fetch_all_pages (items_reply Samples.assignment_fails)
       Samples.one_group_map ["g1"]) <> [] /\
  exists content,
    In (CallCreateNote "123" content)
       (MondayCRM.process_activation_request Samples.assignment_fails "123"
          ["g1"] Samples.one_group_map (Some "asoni@dxo.com")
          (Some 47981810%N)).2 /\
    forall d,
      In d (items_found_details
              (find_items fetch_all_pages (items_reply Samples.assignment_fails)
                 Samples.one_group_map ["g1"])) ->
      PyStr.substring (d_product d) content /\
      PyStr.substring (d_code d) content.
Proof.
  assert (H : items_found_details
    (find_items fetch_all_pages (items_reply Samples.assignment_fails)
       Samples.one_group_map ["g1"]) <> []) by (vm_compute; discriminate).
  split; [exact H|].
  exact (note_lists_every_found_code Samples.assignment_fails "123" ["g1"]
           Samples.one_group_map (Some "asoni@dxo.com") (Some 47981810%N) H).
Defined.

(** The status update of the only item fails. *)
Lemma backup_fails_exactly_on_status_failure_witness :
  (owner_reply Samples.status_fails = (Some "asoni@dxo.com", None) /\
   PyStr.truthy "asoni@dxo.com" = true /\
   items_found_details
     (find_items single_page (items_reply Samples.status_fails)
        Samples.one_group_map ["g1"]) <> [] /\
   note_reply Samples.status_fails = NoteCreated (Some 55%N)) /\
  exists ok message,
    (Backup.process_activation_request Samples.status_fails "123" ["g1"]
       Samples.one_group_map).1 = Return AtSummary ok message /\
    (ok = true <->
     forall i d,
       sort_found
         (items_found_details
            (find_items single_page (items_reply Samples.status_fails)
               Samples.one_group_map ["g1"])) !! i = Some d ->
       status_reply Samples.status_fails i = MutOk).
Proof.
  assert (H : items_found_details
     (find_items single_page (items_reply Samples.status_fails)
        Samples.one_group_map ["g1"]) <> []) by (vm_compute; discriminate).
  split; [repeat split; try reflexivity; exact H|].
  exact (backup_fails_exactly_on_status_failure Samples.status_fails "123"
           ["g1"] Samples.one_group_map "asoni@dxo.com" (Some 55%N)
           eq_refl eq_refl H eq_refl).
Defined.

(** One group that fits in one page. *)
Lemma implementations_agree_on_work_witness :
  (owner_reply Samples.assignment_fails = (Some "asoni@dxo.com", None) /\
   PyStr.truthy "asoni@dxo.com" = true /\
   forall i, one_page (items_reply Samples.assignment_fails i)) /\
  List.filter is_mutation
    (Backup.process_activation_request Samples.assignment_fails "123" ["g1"]
       Samples.one_group_map).2 =
  List.filter is_mutation
    (MondayCRM.process_activation_request Samples.assignment_fails "123"
       ["g1"] Samples.one_group_map (Some "asoni@dxo.com")
       (ZENDESK_OWNER_EMAIL_TO_MONDAY_ID !! "asoni@dxo.com")).2.
Proof.
  assert (H : forall i, one_page (items_reply Samples.assignment_fails i))
    by (intros i; exact I).
  split; [repeat split; try reflexivity; exact H|].
  exact (proj1 (implementations_agree_on_work Samples.assignment_fails "123"
                  ["g1"] Samples.one_group_map "asoni@dxo.com"
                  eq_refl eq_refl H)).
Defined.

(** A deal id typed with blanks around it. *)
Lemma step1_advances_only_with_owner_witness :
  (ss_current_step initial_session = 1 /\ isascii " 123 " = true) /\
  ss_current_step
    (Wizard.step1_submit Samples.assignment_fails initial_session " 123 ").1 = 2 /\
  ss_deal_id
    (Wizard.step1_submit Samples.assignment_fails initial_session " 123 ").1 =
    "123".
Proof.
  split; [split; reflexivity|].
  destruct (step1_advances_only_with_owner Samples.assignment_fails
              initial_session " 123 " eq_refl eq_refl)
    as [(S2 & _ & D & _)|(S1 & _)].
  - split; [exact S2|]. rewrite D. vm_compute. reflexivity.
  - exfalso. vm_compute in S1. discriminate.
Defined.

(** The group PL8 is ticked and the run succeeds. *)
Lemma step2_outcome_witness :
  (ss_current_step MoreSamples.at_step2 = 2 /\
   ss_selected_groups MoreSamples.at_step2 <> []) /\
  ss_processing
    (Wizard.step2_proceed Samples.assignment_fails MoreSamples.at_step2).1 =
    false.
Proof.
  assert (H : ss_selected_groups MoreSamples.at_step2 <> [])
    by (vm_compute; discriminate).
  split; [split; [reflexivity|exact H]|].
  exact (proj1 (step2_outcome Samples.assignment_fails MoreSamples.at_step2
                  eq_refl H)).
Defined.

(** Keys read from the file. *)
Lemma loaded_keys_are_nonempty_witness :
  Keys.load_api_keys MoreSamples.file_only = Keys.KeysLoaded "abc" "k2" /\
  PyStr.truthy "abc" = true /\ PyStr.truthy "k2" = true.
Proof.
  assert (H : Keys.load_api_keys MoreSamples.file_only =
              Keys.KeysLoaded "abc" "k2") by (vm_compute; reflexivity).
  split; [exact H|].
  destruct (loaded_keys_are_nonempty MoreSamples.file_only "abc" "k2" H)
    as (T1 & T2 & _).
  split; assumption.
Defined.

(** ** The no-codes outcome, stated on the data of the groups *)

Lemma fetched_fetch (group_id : string) (reply : PageReply) (items : list Item) :
  fetched reply items ->
  exists calls, fetch_all_pages group_id reply = (inr items, calls) /\
                Forall item_has_keys items.
Proof.
  intros (pages & cursors & HR & -> & Hk).
  eexists. split; [|exact Hk].
  unfold fetch_all_pages. now rewrite (paginate_reads group_id _ _ _ _ HR).
Qed.

Lemma fetched_succeeds (group_id : string) (reply : PageReply)
    (items : list Item) :
  fetched reply items -> fetch_succeeds fetch_all_pages group_id reply.
Proof.
  intros H. destruct (fetched_fetch group_id _ _ H) as (calls & Hf & Hk).
  now exists items, calls.
Qed.

Lemma scan_items_expected (name : string) (rev_items : list Item) :
  Forall item_has_keys rev_items ->
  match List.find available rev_items with
  | Some item =>
      exists d, scan_items name rev_items = ScanFound d /\
                found_key d = (default EmptyString (item_id item),
                               default EmptyString (item_name item), name)
  | None => scan_items name rev_items = ScanNone
  end.
Proof.
  induction 1 as [|item l [Hi Hn] Hl IH]; [reflexivity|].
  cbn [List.find scan_items].
  destruct (item_id item) as [iid|] eqn:Ei; [|congruence].
  destruct (item_name item) as [code|] eqn:En; [|congruence].
  pose proof (available_spec item) as HA. unfold item_status in HA.
  destruct (item_columns item) as [st|].
  - destruct (decide (status_val st = Some STATUS_LABEL_NOT_USED)) as [D|D].
    + rewrite (proj2 HA D). eexists. split; [reflexivity|].
      unfold found_key. cbn. now rewrite Ei, En.
    + destruct (available item); [|exact IH].
      exfalso. apply D. now apply HA.
  - destruct (available item); [|exact IH].
    specialize (proj1 HA eq_refl). discriminate.
Qed.

Lemma group_item_expected (group_map : gmap string string) (reply : PageReply)
    (group_id : string) (items : list Item) :
  fetched reply items ->
  map found_key
    (option_list (group_item fetch_all_pages group_map reply group_id)) =
  match newest_available items with
  | Some item =>
      [(default EmptyString (item_id item),
        default EmptyString (item_name item),
        get_product_display_name (group_title_of group_map group_id))]
  | None => []
  end.
Proof.
  intros H. destruct (fetched_fetch group_id _ _ H) as (calls & Hf & Hk).
  unfold group_item. rewrite Hf. unfold scan_group, newest_available.
  pose proof (scan_items_expected
                (get_product_display_name (group_title_of group_map group_id))
                (rev items) (List.Forall_rev Hk)) as HS.
  destruct (List.find available (rev items)) as [item|].
  - destruct HS as (d & -> & Hd). simpl. now rewrite Hd.
  - now rewrite HS.
Qed.

Lemma yielded_expected (items_of : nat -> list Item)
    (replies : nat -> PageReply) (group_map : gmap string string)
    (group_ids : list string) (i : nat) :
  (forall j group_id, group_ids !! j = Some group_id ->
     fetched (replies (i + j)) (items_of (i + j))) ->
  map found_key (yielded_items fetch_all_pages replies group_map i group_ids) =
  expected_found items_of group_map i group_ids.
Proof.
  revert i. induction group_ids as [|group_id rest IH]; intros i H; [reflexivity|].
  cbn [yielded_items expected_found]. rewrite map_app. f_equal.
  - apply group_item_expected.
    specialize (H 0 group_id eq_refl). now rewrite Nat.add_0_r in H.
  - apply IH. intros j gid Hj. specialize (H (S j) gid Hj).
    now rewrite Nat.add_succ_r in H.
Qed.

Lemma newest_available_none (items : list Item) :
  newest_available items = None <->
  forall item, In item items -> available item = false.
Proof.
  unfold newest_available. split.
  - intros H item Hin. apply (List.find_none _ _ H). now apply in_rev in Hin.
  - intros H. destruct (List.find available (rev items)) as [item|] eqn:E;
      [|reflexivity].
    apply List.find_some in E as [Hin Ha]. apply in_rev in Hin.
    rewrite (H item Hin) in Ha. discriminate.
Qed.

Lemma expected_found_nil (items_of : nat -> list Item)
    (group_map : gmap string string) (group_ids : list string) (i : nat) :
  expected_found items_of group_map i group_ids = [] <->
  forall j group_id, group_ids !! j = Some group_id ->
    forall item, In item (items_of (i + j)) -> available item = false.
Proof.
  revert i. induction group_ids as [|group_id rest IH]; intros i.
  - split; [intros _ j gid Hj; discriminate|reflexivity].
  - cbn [expected_found]. split.
    + intros H. apply app_eq_nil in H as [H1 H2].
      intros [|j] gid Hj.
      * rewrite Nat.add_0_r. apply newest_available_none.
        now destruct (newest_available (items_of i)).
      * rewrite Nat.add_succ_r. apply (proj1 (IH (S i)) H2 j gid Hj).
    + intros H.
      assert (H0 : newest_available (items_of i) = None).
      { apply newest_available_none. specialize (H 0 group_id eq_refl).
        now rewrite Nat.add_0_r in H. }
      rewrite H0. apply IH. intros j gid Hj. specialize (H (S j) gid Hj).
      now rewrite Nat.add_succ_r in H.
Qed.

(** C5. For every run of [process_activation_request]
    (Monday-CRM.py) in which the fetch of every selected group succeeds (the
    exchange ends without exception and the items of its pages carry their
    [id] and [name]): the found items are, in group order, the newest
    available item of each group that has one, with its id, its activation
    code and the display name of the group; no error is recorded; a group in
    which no item has the status text "Not used" contributes nothing; and the
    run returns Failure with the "no codes found" message if and only if no
    item of a selected group is available, an item being available when it
    has the status text "Not used" and its column values can be read. *)
Theorem no_codes_iff_no_available_item (remote : Remote) (deal_id : string)
    (group_ids : list string) (group_map : gmap string string)
    (owner_email : option string) (monday_user_id_to_assign : option N)
    (items_of : nat -> list Item) :
  (forall i group_id, group_ids !! i = Some group_id ->
     fetched (items_reply remote i) (items_of i)) ->
  let found :=
    find_items fetch_all_pages (items_reply remote) group_map group_ids in
  let run :=
    MondayCRM.process_activation_request remote deal_id group_ids group_map
      owner_email monday_user_id_to_assign in
  map found_key (items_found_details found) =
    expected_found items_of group_map 0 group_ids /\
  global_error found = None /\
  (forall i group_id, group_ids !! i = Some group_id ->
     (forall item, In item (items_of i) ->
        status_text item <> Some STATUS_LABEL_NOT_USED) ->
     expected_found items_of group_map i [group_id] = []) /\
  ((exists site, run.1 = Return site false (no_codes_message deal_id)) <->
   (forall i group_id, group_ids !! i = Some group_id ->
      forall item, In item (items_of i) -> available item = false)).
Proof.
  intros Hok found run.
  assert (Hs : forall i group_id, group_ids !! i = Some group_id ->
             fetch_succeeds fetch_all_pages group_id (items_reply remote i)).
  { intros i gid Hi. exact (fetched_succeeds gid _ _ (Hok i gid Hi)). }
  destruct (no_codes_iff_nothing_yielded remote deal_id group_ids group_map
              owner_email monday_user_id_to_assign Hs) as (_ & F1 & F2 & F3).
  fold found in F1, F2. fold run in F3.
  assert (HE : map found_key (items_found_details found) =
               expected_found items_of group_map 0 group_ids).
  { rewrite F1. apply yielded_expected. intros j gid Hj. exact (Hok j gid Hj). }
  split; [exact HE|]. split; [exact F2|]. split.
  - intros i gid Hi Hst. cbn [expected_found]. rewrite app_nil_r.
    assert (H0 : newest_available (items_of i) = None).
    { apply newest_available_none. intros item Hin. unfold available.
      rewrite bool_decide_eq_false_2; [reflexivity|]. now apply Hst. }
    now rewrite H0.
  - rewrite F3.
    pose proof (yielded_items_nil fetch_all_pages (items_reply remote)
                  group_map group_ids 0) as Y.
    pose proof (expected_found_nil items_of group_map group_ids 0) as X.
    assert (HY : map found_key
                   (yielded_items fetch_all_pages (items_reply remote)
                      group_map 0 group_ids) =
                 expected_found items_of group_map 0 group_ids).
    { apply yielded_expected. intros j gid Hj. exact (Hok j gid Hj). }
    cbn [Nat.add] in Y, X. split; intros H.
    + apply X. rewrite <- HY. now rewrite (proj2 Y H).
    + apply Y. apply (proj2 X) in H. rewrite <- HY in H.
      now destruct (yielded_items fetch_all_pages (items_reply remote)
                      group_map 0 group_ids).
Qed.

(** Two groups, of which the first holds available items. *)
Lemma no_codes_iff_no_available_item_witness :
  (forall i group_id, ["g1"; "g2"] !! i = Some group_id ->
     fetched (items_reply MoreSamples.second_group_empty i)
       (MoreSamples.second_group_empty_items i)) /\
  map found_key
    (items_found_details
       (find_items fetch_all_pages (items_reply MoreSamples.second_group_empty)
          MoreSamples.two_groups_map ["g1"; "g2"])) =
  [("2", "CODE2", "PhotoLab 8")].
Proof.
  assert (H : forall i group_id, ["g1"; "g2"] !! i = Some group_id ->
     fetched (items_reply MoreSamples.second_group_empty i)
       (MoreSamples.second_group_empty_items i)).
  { intros i gid Hi. destruct i as [|[|i]]; simpl in Hi; try discriminate.
    - eexists [_; _], ["c1"]. split; [|split].
      + apply ReadsMore; [reflexivity|apply ReadsLast].
      + reflexivity.
      + repeat constructor; discriminate.
    - eexists [_], []. split; [|split].
      + apply ReadsLast.
      + reflexivity.
      + repeat constructor; discriminate. }
  split; [exact H|].
  rewrite (proj1 (no_codes_iff_no_available_item MoreSamples.second_group_empty
                    "123" ["g1"; "g2"] MoreSamples.two_groups_map
                    (Some "asoni@dxo.com") (Some 47981810%N)
                    MoreSamples.second_group_empty_items H)).
  vm_compute. reflexivity.
Defined.

(** The claim as the specification states it fails on an item that has the
    status text "Not used" and a link value that parses to a JSON list: the
    fetch succeeds and the group holds an item with the status, yet the item
    is skipped and the run returns the "no codes found" failure. *)
Lemma no_codes_although_status_not_used :
  fetched (items_reply MoreSamples.unreadable_link 0)
    [MoreSamples.unreadable_item] /\
  status_text MoreSamples.unreadable_item = Some STATUS_LABEL_NOT_USED /\
  (MondayCRM.process_activation_request MoreSamples.unreadable_link "123"
     ["g1"] Samples.one_group_map (Some "asoni@dxo.com") (Some 47981810%N)).1 =
    Return AtNoItems false (no_codes_message "123") /\
  ~ ((exists site,
        (MondayCRM.process_activation_request MoreSamples.unreadable_link "123"
           ["g1"] Samples.one_group_map (Some "asoni@dxo.com")
           (Some 47981810%N)).1 =
        Return site false (no_codes_message "123")) <->
     (forall item, In item [MoreSamples.unreadable_item] ->
        status_text item <> Some STATUS_LABEL_NOT_USED)).
Proof.
  assert (Hs : status_text MoreSamples.unreadable_item =
               Some STATUS_LABEL_NOT_USED) by reflexivity.
  assert (Hr : (MondayCRM.process_activation_request MoreSamples.unreadable_link
                  "123" ["g1"] Samples.one_group_map (Some "asoni@dxo.com")
                  (Some 47981810%N)).1 =
               Return AtNoItems false (no_codes_message "123"))
    by (vm_compute; reflexivity).
  split; [|split; [exact Hs|split; [exact Hr|]]].
  - exists [[MoreSamples.unreadable_item]], []. split; [|split].
    + apply ReadsLast.
    + reflexivity.
    + repeat constructor; discriminate.
  - intros [H _].
    apply (H (ex_intro _ AtNoItems Hr) MoreSamples.unreadable_item);
      [now left|exact Hs].
Qed.

(** A title with a hyphen between the prefix and the version. *)
Lemma display_name_is_product_and_version_witness :
  isascii "DFP-6" = true /\
  (get_product_display_name "DFP-6" = "DFP-6" \/
   exists prefix base v priority,
     In prefix REGEX_PREFIX_ORDER /\
     BASE_PRODUCT_MAPPING !! prefix = Some base /\
     Token.token_at prefix "DFP-6" v /\
     get_product_display_name "DFP-6" = base +:+ " " +:+ v /\
     PRODUCT_ORDER_PRIORITY !! base = Some priority /\
     sort_key_of_name (get_product_display_name "DFP-6") = priority /\
     priority < DEFAULT_PRIORITY).
Proof.
  split; [reflexivity|].
  exact (display_name_is_product_and_version "DFP-6" eq_refl).
Defined.
